(** * kalshi_scan: the spike detector, the history store, the token cache,
      the market collector, the alerts and the scanner loop.

    A shallow embedding of the Python sources under [kalshi/] and the
    properties their specification states about them.

    Conventions of the embedding.
    - Python [int] is [Z].
    - Python [float] is idealised as a real number ([R]): rounding of IEEE
      doubles, infinities and NaN are outside the model.  Every comparison and
      every arithmetic expression is the one written in the source, read over
      the reals.
    - The price check and the spread check, whose outcome at a threshold
      depends on rounding, are embedded a second time over IEEE 754 binary64
      numbers, in the module [Binary64].
    - [datetime] is the number of microseconds since the epoch ([Z]);
      [timedelta] is a number of microseconds.
    - [datetime.utcnow()] is an explicit argument of the function that reads
      the clock.
    - A raised exception is the [Raise] branch of [result]. *)

From stdpp Require Import gmap strings.
From Stdlib Require Import ZArith List Ascii Reals Lra Lia Permutation Sorted.
From Stdlib Require Floats.
Import ListNotations.

Set Warnings "-register-all".

(** ** Python values, exceptions *)

Module Py.

(** The exceptions that the modelled code can raise. *)
Inductive exn : Type :=
| StatisticsError
| ZeroDivisionError
| IndexError
| KeyError (key : string)
| AttributeError
| HTTPStatusError (status_code : Z)
| OtherException.

Inductive result (A : Type) : Type :=
| Ok (a : A)
| Raise (e : exn).
Arguments Ok {A} a.
Arguments Raise {A} e.

Definition bind {A B : Type} (m : result A) (k : A -> result B) : result B :=
  match m with
  | Ok a => k a
  | Raise e => Raise e
  end.

(** A dynamically typed value, as [response.json()] produces them. *)
Inductive value : Type :=
| VNone
| VBool (b : bool)
| VInt (z : Z)
| VFloat (r : R)
| VStr (s : string)
| VList (l : list value)
| VDict (d : gmap string value).

(** Truth value testing ([if v], [v or w]). *)
Definition truthy (v : value) : bool :=
  match v with
  | VNone => false
  | VBool b => b
  | VInt z => negb (z =? 0)%Z
  | VFloat r => if Req_dec_T r 0 then false else true
  | VStr s => negb (String.eqb s "")
  | VList l => match l with [] => false | _ :: _ => true end
  | VDict d => negb (bool_decide (d = ∅))
  end.

(** [v or w] *)
Definition or_ (v w : value) : value := if truthy v then v else w.

(** [d.get(k, dflt)] *)
Definition get (d : gmap string value) (k : string) (dflt : value) : value :=
  match d !! k with
  | Some v => v
  | None => dflt
  end.

(** [d[k]] *)
Definition getitem (d : gmap string value) (k : string) : result value :=
  match d !! k with
  | Some v => Ok v
  | None => Raise (KeyError k)
  end.

(** [str.lower()], on the ASCII letters. *)
Definition lower_ascii (c : ascii) : ascii :=
  let n := nat_of_ascii c in
  if (65 <=? n)%nat && (n <=? 90)%nat then ascii_of_nat (n + 32) else c.

Fixpoint lower (s : string) : string :=
  match s with
  | EmptyString => EmptyString
  | String c s' => String (lower_ascii c) (lower s')
  end.

(** [v.lower()]: only [str] has the method. *)
Definition lower_method (v : value) : result string :=
  match v with
  | VStr s => Ok (lower s)
  | _ => Raise AttributeError
  end.

End Py.

Import Py.

Notation "'let*' x ':=' m 'in' k" := (bind m (fun x => k))
  (at level 10, x name, m at level 100, k at level 200).

(** ** statistics.mean, statistics.stdev *)

Module Stats.

Definition fsum (data : list R) : R := fold_right Rplus 0%R data.

(** [statistics.mean(data)]: raises [StatisticsError] on empty data. *)
Definition mean (data : list R) : result R :=
  match data with
  | [] => Raise StatisticsError
  | _ :: _ => Ok (fsum data / INR (length data))%R
  end.

(** Sum of the squared deviations from [c]. *)
Definition sum_sq_dev (c : R) (data : list R) : R :=
  fsum (map (fun x => (x - c) * (x - c))%R data).

(** [statistics.variance(data)]: sample variance, divisor [n - 1]. *)
Definition variance (data : list R) : result R :=
  if (length data <? 2)%nat then Raise StatisticsError
  else
    let* m := mean data in
    Ok (sum_sq_dev m data / INR (length data - 1))%R.

(** [statistics.stdev(data)]: the square root of the sample variance; raises
    [StatisticsError] with fewer than two data points. *)
Definition stdev (data : list R) : result R :=
  let* v := variance data in
  Ok (sqrt v).

End Stats.

(** ** config.py *)

Record Config : Type := {
  poll_interval_seconds : Z;
  max_history_points : Z;
  volume_std_threshold : R;
  price_spike_threshold : R;
  price_spike_window_minutes : Z;
  spread_compression_threshold : R
}.

Definition default_config : Config := {|
  poll_interval_seconds := 60;
  max_history_points := 100;
  volume_std_threshold := 2;
  price_spike_threshold := 10 / 100;
  price_spike_window_minutes := 5;
  spread_compression_threshold := 5 / 10
|}.

(** [timedelta(...)] in microseconds. *)
Definition timedelta_seconds (s : Z) : Z := (s * 1000000)%Z.
Definition timedelta_minutes (m : Z) : Z := timedelta_seconds (m * 60).
Definition timedelta_hours (h : Z) : Z := timedelta_minutes (h * 60).

(** ** Stable sorting

    [sorted(...)] and SQL's [ORDER BY] are modelled by a stable insertion
    sort: [before y x] says that [y] goes strictly before [x]; elements that
    are not strictly ordered keep the order they had in the input (Python
    documents [sorted] as stable, also with [reverse=True]; for [ORDER BY]
    the order of ties is left open by SQL, and rowid order is chosen here). *)

Section StableSort.
Context {A : Type} (before : A -> A -> bool).

Fixpoint insert_sorted (x : A) (l : list A) : list A :=
  match l with
  | [] => [x]
  | y :: ys => if before y x then y :: insert_sorted x ys else x :: y :: ys
  end.

Definition stable_sort (l : list A) : list A := fold_right insert_sorted [] l.
End StableSort.

(** ** database.py *)

Module Database.

Record MarketSnapshot : Type := {
  ticker : string;
  timestamp : Z;
  volume : Z;
  last_price : option R;
  yes_bid : option R;
  yes_ask : option R;
  open_interest : Z;
  title : string;
  subtitle : string
}.

(** A row of [market_snapshots]: the autoincremented primary key and the
    columns of the snapshot.  The [timestamp] column holds
    [datetime.isoformat()] text, whose lexicographic order is the order of
    the instants. *)
Record row : Type := { id : Z; snap : MarketSnapshot }.

Definition row_ticker (r : row) : string := ticker (snap r).
Definition row_timestamp (r : row) : Z := timestamp (snap r).

(** [WHERE ticker = ?] *)
Definition where_ticker (t : string) (tbl : list row) : list row :=
  filter (fun r => String.eqb (row_ticker r) t) tbl.

(** [ORDER BY timestamp ASC] *)
Definition order_by_timestamp_asc (rows : list row) : list row :=
  stable_sort (fun y x => (row_timestamp y <? row_timestamp x)%Z) rows.

(** [LIMIT n] (SQLite: a negative limit is no limit) *)
Definition limit {A : Type} (n : Z) (rows : list A) : list A :=
  if (n <? 0)%Z then rows else firstn (Z.to_nat n) rows.

(** [SELECT ticker, COUNT( * ) as cnt FROM market_snapshots GROUP BY ticker
    HAVING cnt > ?] *)
Definition count_rows (t : string) (tbl : list row) : Z :=
  Z.of_nat (length (where_ticker t tbl)).

Definition group_by_ticker_count (tbl : list row) : list (string * Z) :=
  map (fun t => (t, count_rows t tbl)) (nodup String.string_dec (map row_ticker tbl)).

Definition tickers_to_prune (max_points_per_market : Z) (tbl : list row)
  : list (string * Z) :=
  filter (fun tc => (max_points_per_market <? snd tc)%Z) (group_by_ticker_count tbl).

(** [SELECT id FROM market_snapshots WHERE ticker = ? ORDER BY timestamp ASC
    LIMIT ?] *)
Definition select_oldest_ids (t : string) (n : Z) (tbl : list row) : list Z :=
  map id (limit n (order_by_timestamp_asc (where_ticker t tbl))).

(** [DELETE FROM market_snapshots WHERE id IN (...)] *)
Definition delete_where_id_in (ids : list Z) (tbl : list row) : list row :=
  filter (fun r => negb (existsb (Z.eqb (id r)) ids)) tbl.

(** The body of the loop of [prune_old_data], on the table and
    [total_deleted]. *)
Definition prune_step (max_points_per_market : Z) (st : list row * Z)
    (tc : string * Z) : list row * Z :=
  let to_delete := (snd tc - max_points_per_market)%Z in
  (delete_where_id_in (select_oldest_ids (fst tc) to_delete (fst st)) (fst st),
   (snd st + to_delete)%Z).

(** [Database.prune_old_data]: the table afterwards and the returned count. *)
Definition prune_old_data (max_points_per_market : Z) (tbl : list row)
  : list row * Z :=
  fold_left (prune_step max_points_per_market)
    (tickers_to_prune max_points_per_market tbl) (tbl, 0%Z).

(** [Database.get_history]: [ORDER BY timestamp DESC LIMIT ?] *)
Definition get_history (t : string) (lim : Z) (tbl : list row)
  : list MarketSnapshot :=
  map snap (limit lim
    (stable_sort (fun y x => (row_timestamp x <? row_timestamp y)%Z)
       (where_ticker t tbl))).

End Database.

(** ** collector.py *)

Module Collector.

(** The dataclass does not check its fields: they hold whatever the API
    record holds. *)
Record Market : Type := {
  ticker : value;
  title : value;
  subtitle : value;
  status : value;
  volume : value;
  open_interest : value;
  last_price : value;
  yes_bid : value;
  yes_ask : value;
  url : string
}.

Definition markets_url : string := "https://kalshi.com/markets/".

(** [Market.from_api_response] *)
Definition from_api_response (data : gmap string value) : result Market :=
  let ticker := get data "ticker" (VStr "") in
  let title := get data "title" (VStr "") in
  let subtitle := get data "subtitle" (VStr "") in
  let status := get data "status" (VStr "") in
  let volume := or_ (get data "volume" (VInt 0)) (VInt 0) in
  let open_interest := or_ (get data "open_interest" (VInt 0)) (VInt 0) in
  let last_price := get data "last_price" VNone in
  let yes_bid := get data "yes_bid" VNone in
  let yes_ask := get data "yes_ask" VNone in
  let* url :=
    (if truthy ticker
     then let* low := lower_method ticker in Ok (markets_url +:+ low)
     else Ok ""%string) in
  Ok {| ticker := ticker; title := title; subtitle := subtitle;
        status := status; volume := volume; open_interest := open_interest;
        last_price := last_price; yes_bid := yes_bid; yes_ask := yes_ask;
        url := url |}.

End Collector.

(** ** detector.py *)

Module Detector.

Import Database.

Inductive SpikeType : Type := VOLUME | PRICE | SPREAD_COMPRESSION.

(** The values that the detector stores in [extra_info]. *)
Inductive extra : Type :=
| EFloat (r : R)
| EInt (z : Z)
| EStr (s : string).

(** [SpikeEvent].  The fields that share their name with a field of the
    market carry the prefix [event_]. *)
Record SpikeEvent : Type := {
  spike_type : SpikeType;
  event_ticker : string;
  event_title : string;
  event_subtitle : string;
  event_timestamp : Z;
  current_value : R;
  previous_value : R;
  average_value : R;
  threshold : R;
  event_url : string;
  extra_info : list (string * extra)
}.

(** [collector.Market], its fields at their annotated types, which is how the
    detector reads them. *)
Record Market : Type := {
  ticker : string;
  title : string;
  subtitle : string;
  status : string;
  volume : Z;
  open_interest : Z;
  last_price : option R;
  yes_bid : option R;
  yes_ask : option R;
  url : string
}.

(** [x / y] on floats, when the divisor is not known to be nonzero. *)
Definition truediv (x y : R) : result R :=
  if Req_dec_T y 0 then Raise ZeroDivisionError else Ok (x / y)%R.

(** [l[0]] *)
Definition item0 {A : Type} (l : list A) : result A :=
  match l with
  | x :: _ => Ok x
  | [] => Raise IndexError
  end.

(** The loop of [_detect_volume_spike] over the adjacent pairs
    [history[i]], [history[i + 1]]. *)
Fixpoint rates_of_change (history : list MarketSnapshot) : list Z :=
  match history with
  | newer :: rest =>
      match rest with
      | older :: _ =>
          let rate := (Database.volume newer - Database.volume older)%Z in
          if (0 <=? rate)%Z then rate :: rates_of_change rest
          else rates_of_change rest
      | [] => []
      end
  | [] => []
  end.

Definition _detect_volume_spike (config : Config) (utcnow : Z)
    (market : Market) (history : list MarketSnapshot)
  : result (option SpikeEvent) :=
  if (length history <? 3)%nat then Ok None else
  let rates := rates_of_change history in
  if (length rates <? 2)%nat then Ok None else
  let* newest := item0 history in
  let current_rate := (volume market - Database.volume newest)%Z in
  if (current_rate <=? 0)%Z then Ok None else
  let* mean_rate := Stats.mean (map IZR rates) in
  let* std_rate :=
    (if (2 <=? length rates)%nat
     then match Stats.stdev (map IZR rates) with
          | Ok s => Ok s
          | Raise StatisticsError => Ok 0%R
          | Raise e => Raise e
          end
     else Ok 0%R) in
  if Rlt_dec 0 std_rate then
    let z_score := ((IZR current_rate - mean_rate) / std_rate)%R in
    if Rle_dec (volume_std_threshold config) z_score then
      Ok (Some {|
        spike_type := VOLUME;
        event_ticker := ticker market;
        event_title := title market;
        event_subtitle := subtitle market;
        event_timestamp := utcnow;
        current_value := IZR (volume market);
        previous_value := IZR (Database.volume newest);
        average_value := mean_rate;
        threshold := volume_std_threshold config;
        event_url := url market;
        extra_info := [("z_score"%string, EFloat z_score);
                       ("std_rate"%string, EFloat std_rate)]
      |})
    else Ok None
  else Ok None.

(** The loop of [_detect_price_spike]; the accumulator is
    [reference_snapshot]. *)
Fixpoint find_reference (window_cutoff : Z) (history : list MarketSnapshot)
    (reference_snapshot : option MarketSnapshot) : option MarketSnapshot :=
  match history with
  | [] => reference_snapshot
  | snapshot :: rest =>
      if (Database.timestamp snapshot <=? window_cutoff)%Z then Some snapshot
      else find_reference window_cutoff rest (Some snapshot)
  end.

Definition _detect_price_spike (config : Config) (utcnow : Z)
    (market : Market) (history : list MarketSnapshot)
  : result (option SpikeEvent) :=
  match last_price market with
  | None => Ok None
  | Some market_last_price =>
      let window_cutoff :=
        (utcnow - timedelta_minutes (price_spike_window_minutes config))%Z in
      match find_reference window_cutoff history None with
      | None => Ok None
      | Some reference_snapshot =>
          match Database.last_price reference_snapshot with
          | None => Ok None
          | Some reference_last_price =>
              let current_price := (market_last_price / 100)%R in
              let reference_price := (reference_last_price / 100)%R in
              let price_change := Rabs (current_price - reference_price) in
              if Rle_dec (price_spike_threshold config) price_change then
                Ok (Some {|
                  spike_type := PRICE;
                  event_ticker := ticker market;
                  event_title := title market;
                  event_subtitle := subtitle market;
                  event_timestamp := utcnow;
                  current_value := current_price;
                  previous_value := reference_price;
                  average_value := reference_price;
                  threshold := price_spike_threshold config;
                  event_url := url market;
                  extra_info :=
                    [("window_minutes"%string,
                      EInt (price_spike_window_minutes config));
                     ("direction"%string,
                      EStr (if Rlt_dec reference_price current_price
                            then "up" else "down"))]
                |})
              else Ok None
          end
      end
  end.

(** The loop of [_detect_spread_compression] that collects
    [historical_spreads]. *)
Fixpoint historical_spreads (history : list MarketSnapshot) : list R :=
  match history with
  | [] => []
  | snapshot :: rest =>
      match Database.yes_bid snapshot, Database.yes_ask snapshot with
      | Some bid, Some ask =>
          let spread := ((ask - bid) / 100)%R in
          if Rlt_dec 0 spread then spread :: historical_spreads rest
          else historical_spreads rest
      | _, _ => historical_spreads rest
      end
  end.

Definition _detect_spread_compression (config : Config) (utcnow : Z)
    (market : Market) (history : list MarketSnapshot)
  : result (option SpikeEvent) :=
  match yes_bid market, yes_ask market with
  | Some bid, Some ask =>
      let current_spread := ((ask - bid) / 100)%R in
      if Rle_dec current_spread 0 then Ok None else
      let spreads := historical_spreads history in
      if (length spreads <? 3)%nat then Ok None else
      let* avg_spread := Stats.mean spreads in
      let* compression_ratio := truediv current_spread avg_spread in
      if Rle_dec compression_ratio (1 - spread_compression_threshold config) then
        Ok (Some {|
          spike_type := SPREAD_COMPRESSION;
          event_ticker := ticker market;
          event_title := title market;
          event_subtitle := subtitle market;
          event_timestamp := utcnow;
          current_value := current_spread;
          previous_value := match spreads with s :: _ => s | [] => 0%R end;
          average_value := avg_spread;
          threshold := spread_compression_threshold config;
          event_url := url market;
          extra_info := [("yes_bid"%string, EFloat (bid / 100));
                         ("yes_ask"%string, EFloat (ask / 100));
                         ("compression_ratio"%string, EFloat compression_ratio)]
        |})
      else Ok None
  | _, _ => Ok None
  end.

(** [sorted(history, key=lambda x: x.timestamp, reverse=True)] *)
Definition sorted_newest_first (history : list MarketSnapshot)
  : list MarketSnapshot :=
  stable_sort (fun y x => (Database.timestamp x <? Database.timestamp y)%Z)
    history.

(** [events.append(e)] when the check returned an event. *)
Definition append_if (events : list SpikeEvent) (e : option SpikeEvent)
  : list SpikeEvent :=
  match e with
  | Some ev => events ++ [ev]
  | None => events
  end.

(** [SpikeDetector.detect_spikes].  One reading of the clock serves the whole
    call. *)
Definition detect_spikes (config : Config) (utcnow : Z)
    (market : Market) (history : list MarketSnapshot)
  : result (list SpikeEvent) :=
  let events := [] in
  if (length history <? 2)%nat then Ok events else
  let history := sorted_newest_first history in
  let* volume_spike := _detect_volume_spike config utcnow market history in
  let events := append_if events volume_spike in
  let* price_spike := _detect_price_spike config utcnow market history in
  let events := append_if events price_spike in
  let* spread_spike := _detect_spread_compression config utcnow market history in
  let events := append_if events spread_spike in
  Ok events.

(** A line of [format_message]: fixed text, or a label and the number that is
    rendered after it (the rendering of numbers to text is not modelled). *)
Inductive line : Type :=
| Text (s : string)
| Num (label : string) (v : R).

(** [extra_info.get(key, dflt)] for the numeric entries. *)
Fixpoint extra_get (info : list (string * extra)) (key : string) (dflt : R) : R :=
  match info with
  | [] => dflt
  | (k, v) :: rest =>
      if String.eqb k key
      then match v with EFloat r => r | EInt z => IZR z | EStr _ => dflt end
      else extra_get rest key dflt
  end.

(** The kind-specific lines of [SpikeEvent.format_message]. *)
Definition format_message (e : SpikeEvent) : result (list line) :=
  match spike_type e with
  | VOLUME =>
      Ok [Num "Current Volume" (current_value e);
          Num "Previous Volume" (previous_value e);
          Num "Volume Change" (current_value e - previous_value e);
          Num "Avg Rate of Change" (average_value e);
          Num "Threshold (std devs)" (threshold e)]
  | PRICE =>
      Ok [Num "Current Price" (current_value e);
          Num "Price min ago" (previous_value e);
          Num "Price Change" (current_value e - previous_value e);
          Num "Threshold" (threshold e)]
  | SPREAD_COMPRESSION =>
      let* ratio := truediv (current_value e) (average_value e) in
      Ok [Num "Current Spread" (current_value e);
          Num "Average Spread" (average_value e);
          Num "Compression" ((1 - ratio) * 100);
          Num "Yes Bid" (extra_get (extra_info e) "yes_bid" 0);
          Num "Yes Ask" (extra_get (extra_info e) "yes_ask" 0)]
  end.

End Detector.

(** ** auth.py *)

Module Auth.

Record AuthToken : Type := {
  token : value;
  member_id : value;
  expires_at : Z
}.

(** [AuthToken.is_expired] *)
Definition is_expired (utcnow : Z) (self : AuthToken) (buffer_seconds : Z) : bool :=
  (expires_at self - timedelta_seconds buffer_seconds <=? utcnow)%Z.

(** What [client.post] hands back: a status code and the decoded body. *)
Record response : Type := {
  status_code : Z;
  json : gmap string value
}.

(** [response.raise_for_status()]: [HTTPStatusError] unless the status is
    2xx. *)
Definition raise_for_status (r : response) : result unit :=
  if ((200 <=? status_code r) && (status_code r <? 300))%Z then Ok tt
  else Raise (HTTPStatusError (status_code r)).

(** [KalshiAuth._login]: [post] is the outcome of the request, [utcnow] the
    clock when the token is built.  Returns the cache afterwards. *)
Definition _login (utcnow : Z) (post : result response)
    (_token : option AuthToken) : result unit * option AuthToken :=
  match
    (let* response := post in
     let* _ := raise_for_status response in
     let data := json response in
     let* t := getitem data "token" in
     let* m := getitem data "member_id" in
     Ok {| token := t; member_id := m;
           expires_at := (utcnow + timedelta_hours 23)%Z |})
  with
  | Ok tok => (Ok tt, Some tok)
  | Raise e => (Raise e, _token)
  end.

(** [self._token.token] *)
Definition token_of (_token : option AuthToken) : result value :=
  match _token with
  | Some t => Ok (token t)
  | None => Raise AttributeError
  end.

(** [KalshiAuth.get_token], for one caller holding the lock.
    [utcnow_check] is the clock read by [is_expired], [utcnow_login] the
    clock read by [_login], [post] the outcome of the login request if one
    is sent.  Returns the result, the cache afterwards and the number of
    login requests sent. *)
Definition get_token (utcnow_check utcnow_login : Z) (post : result response)
    (_token : option AuthToken) : result value * option AuthToken * nat :=
  if match _token with
     | None => true
     | Some t => is_expired utcnow_check t 60
     end
  then
    match _login utcnow_login post _token with
    | (Ok _, _token') => (token_of _token', _token', 1%nat)
    | (Raise e, _token') => (Raise e, _token', 1%nat)
    end
  else (token_of _token, _token, 0%nat).

(** [KalshiAuth.clear_token] *)
Definition clear_token (_token : option AuthToken) : option AuthToken := None.

End Auth.

(** ** scanner.py *)

Module Scanner.

(** The state of [MarketScanner] that the loop of [start] reads and writes. *)
Record MarketScanner : Type := {
  _running : bool;
  auth_token : option Auth.AuthToken
}.

(** One call of [_poll_cycle], as the loop sees it: how it ends, what its
    calls of [get_token] did to the token cache, and whether [stop()] ran
    while the cycle, respectively the sleep after it, was suspended.  The
    exceptions are instances of [Exception]. *)
Record cycle : Type := {
  cycle_result : result unit;
  cycle_token : option Auth.AuthToken -> option Auth.AuthToken;
  stop_during_cycle : bool;
  stop_during_sleep : bool
}.

Inductive event : Type :=
| PollCycle
| PrintAuthError
| ClearToken
| PrintHTTPError
| PrintError
| Sleep.

Definition event_eqb (a b : event) : bool :=
  match a, b with
  | PollCycle, PollCycle | PrintAuthError, PrintAuthError
  | ClearToken, ClearToken | PrintHTTPError, PrintHTTPError
  | PrintError, PrintError | Sleep, Sleep => true
  | _, _ => false
  end.

Definition count_event (e : event) (trace : list event) : nat :=
  length (filter (event_eqb e) trace).

(** The [except] clauses of the loop. *)
Definition handle (r : result unit) (s : MarketScanner)
  : MarketScanner * list event :=
  match r with
  | Ok _ => (s, [])
  | Raise (HTTPStatusError code) =>
      if (code =? 401)%Z
      then ({| _running := _running s;
               auth_token := Auth.clear_token (auth_token s) |},
            [PrintAuthError; ClearToken])
      else (s, [PrintHTTPError])
  | Raise _ => (s, [PrintError])
  end.

(** The body of [while self._running]. *)
Definition iteration (c : cycle) (s : MarketScanner)
  : MarketScanner * list event :=
  let s1 := {| _running := _running s && negb (stop_during_cycle c);
               auth_token := cycle_token c (auth_token s) |} in
  let (s2, handled) := handle (cycle_result c) s1 in
  if _running s2
  then ({| _running := negb (stop_during_sleep c);
           auth_token := auth_token s2 |},
        PollCycle :: handled ++ [Sleep])
  else (s2, PollCycle :: handled).

Inductive loop_status : Type := Exited | InLoop.

(** [while self._running: ...], run against the given cycles; [InLoop] when
    the loop is about to start a cycle beyond them. *)
Fixpoint start_loop (cycles : list cycle) (s : MarketScanner)
  : MarketScanner * list event * loop_status :=
  match cycles with
  | [] => (s, [], if _running s then InLoop else Exited)
  | c :: rest =>
      if _running s then
        let (s1, trace1) := iteration c s in
        let '(s2, trace2, status) := start_loop rest s1 in
        (s2, trace1 ++ trace2, status)
      else (s, [], Exited)
  end.

(** [MarketScanner.start]: sets the flag and enters the loop. *)
Definition start (cycles : list cycle) (s : MarketScanner)
  : MarketScanner * list event * loop_status :=
  start_loop cycles {| _running := true; auth_token := auth_token s |}.

(** [MarketScanner.stop], on the flag. *)
Definition stop (s : MarketScanner) : MarketScanner :=
  {| _running := false; auth_token := auth_token s |}.

End Scanner.

(** ** The specification's own wording

    Definitions that follow the words of the specification, to be compared
    with the ones that follow the code. *)

Module Spec.

Import Database.

(** [history[i].volume - history[i+1].volume] for each adjacent pair. *)
Definition successive_deltas (history : list MarketSnapshot) : list Z :=
  map (fun i =>
         (match nth_error history i, nth_error history (S i) with
          | Some newer, Some older => Database.volume newer - Database.volume older
          | _, _ => 0
          end)%Z)
      (seq 0 (length history - 1)).

(** The deltas that survive: the negative ones are discarded. *)
Definition surviving_deltas (history : list MarketSnapshot) : list R :=
  map IZR (filter (fun d => (0 <=? d)%Z) (successive_deltas history)).

(** The sample mean. *)
Definition sample_mean (xs : list R) : R :=
  (Stats.fsum xs / INR (length xs))%R.

(** The sample standard deviation, Bessel-corrected (divisor [n - 1]). *)
Definition sample_stdev (xs : list R) : R :=
  sqrt (Stats.fsum (map (fun x => (x - sample_mean xs) ^ 2)%R xs)
        / (INR (length xs) - 1))%R.

(** The historical spreads: entries with both bid and ask present and a
    strictly positive spread. *)
Definition qualifying_spread (s : MarketSnapshot) : option R :=
  match Database.yes_bid s, Database.yes_ask s with
  | Some bid, Some ask =>
      if Rlt_dec 0 ((ask - bid) / 100) then Some ((ask - bid) / 100)%R else None
  | _, _ => None
  end.

Definition qualifying_spreads (history : list MarketSnapshot) : list R :=
  omap qualifying_spread history.

(** The first snapshot, scanning newest to oldest, at or before the cutoff;
    the oldest snapshot scanned when none qualifies. *)
Definition reference (cutoff : Z) (history : list MarketSnapshot)
  : option MarketSnapshot :=
  match find (fun s => (Database.timestamp s <=? cutoff)%Z) history with
  | Some s => Some s
  | None => last (map Some history) None
  end.

(** The condition on the [ticker] entry under which
    [Market.from_api_response] returns: an entry that is present and true is
    a string. *)
Definition ticker_lowerable (data : gmap string value) : Prop :=
  forall v, data !! "ticker"%string = Some v -> truthy v = true ->
            exists s, v = VStr s.

(** The [n] oldest rows of a ticker, by timestamp, and the others. *)
Definition oldest_rows (t : string) (n : nat) (tbl : list Database.row)
  : list Database.row :=
  firstn n (Database.order_by_timestamp_asc (Database.where_ticker t tbl)).

Definition newest_rows (t : string) (n : nat) (tbl : list Database.row)
  : list Database.row :=
  skipn n (Database.order_by_timestamp_asc (Database.where_ticker t tbl)).

(** A stored row with the given key, ticker and timestamp. *)
Definition stored (i : Z) (t : string) (ts : Z) : Database.row := {|
  Database.id := i;
  Database.snap := {|
    Database.ticker := t; Database.timestamp := ts; Database.volume := 0;
    Database.last_price := None; Database.yes_bid := None;
    Database.yes_ask := None; Database.open_interest := 0;
    Database.title := ""; Database.subtitle := "" |}
|}.

(** A table with three rows of one ticker, stored out of time order, and
    one row of another. *)
Definition stored_rows : list Database.row :=
  [stored 1 "A" 30; stored 2 "A" 10; stored 3 "A" 20; stored 4 "B" 5].

(** No stop request during the given cycles. *)
Definition no_stop_request (cycles : list Scanner.cycle) : Prop :=
  Forall (fun c => Scanner.stop_during_cycle c = false /\
                   Scanner.stop_during_sleep c = false) cycles.

(** A snapshot and a market that carry a volume and nothing else. *)
Definition snapshot_of_volume (ts vol : Z) : MarketSnapshot := {|
  Database.ticker := "T"; Database.timestamp := ts; Database.volume := vol;
  Database.last_price := None; Database.yes_bid := None;
  Database.yes_ask := None; Database.open_interest := 0;
  Database.title := ""; Database.subtitle := ""
|}.

Definition market_of_volume (vol : Z) : Detector.Market := {|
  Detector.ticker := "T"; Detector.title := ""; Detector.subtitle := "";
  Detector.status := "open"; Detector.volume := vol;
  Detector.open_interest := 0; Detector.last_price := None;
  Detector.yes_bid := None; Detector.yes_ask := None; Detector.url := ""
|}.

(** The example of the specification: four snapshots, one minute apart,
    newest first, and the current market. *)
Definition example_newest : MarketSnapshot := snapshot_of_volume 240000000 1000.

Definition example_history : list MarketSnapshot :=
  [example_newest; snapshot_of_volume 180000000 950;
   snapshot_of_volume 120000000 920; snapshot_of_volume 60000000 850].

Definition example_market : Detector.Market := market_of_volume 1200.

(** A snapshot and a market that carry quotes and no volume. *)
Definition snapshot_of_quotes (ts : Z) (price bid ask : option R)
  : MarketSnapshot := {|
  Database.ticker := "T"; Database.timestamp := ts; Database.volume := 0;
  Database.last_price := price; Database.yes_bid := bid;
  Database.yes_ask := ask; Database.open_interest := 0;
  Database.title := ""; Database.subtitle := ""
|}.

Definition market_of_quotes (price bid ask : option R) : Detector.Market := {|
  Detector.ticker := "T"; Detector.title := ""; Detector.subtitle := "";
  Detector.status := "open"; Detector.volume := 0;
  Detector.open_interest := 0; Detector.last_price := price;
  Detector.yes_bid := bid; Detector.yes_ask := ask; Detector.url := ""
|}.

(** Ten minutes after the epoch, a history whose newest snapshot is inside
    the five minute window and whose older one, at four minutes, is not. *)
Definition price_now : Z := 600000000.

Definition price_reference : MarketSnapshot :=
  snapshot_of_quotes 240000000 (Some 130%R) None None.

Definition price_history : list MarketSnapshot :=
  [snapshot_of_quotes 540000000 (Some 140%R) None None; price_reference].

Definition price_market : Detector.Market :=
  market_of_quotes (Some 150%R) None None.

(** Three snapshots with the spreads 0.05, 0.06 and 0.07, and a market
    quoted 48/50. *)
Definition spread_history : list MarketSnapshot :=
  [snapshot_of_quotes 180000000 None (Some 45%R) (Some 50%R);
   snapshot_of_quotes 120000000 None (Some 44%R) (Some 50%R);
   snapshot_of_quotes 60000000 None (Some 43%R) (Some 50%R)].

Definition spread_market : Detector.Market :=
  market_of_quotes None (Some 48%R) (Some 50%R).

(** Two snapshots taken at the same instant, with different prices. *)
Definition tie_low : MarketSnapshot :=
  snapshot_of_quotes 0 (Some 130%R) None None.

Definition tie_high : MarketSnapshot :=
  snapshot_of_quotes 0 (Some 150%R) None None.

(** Whether an event is a Volume event. *)
Definition is_volume (e : Detector.SpikeEvent) : bool :=
  match Detector.spike_type e with
  | Detector.VOLUME => true
  | _ => false
  end.

(** Newest first: no snapshot is followed by a newer one. *)
Definition newest_first (history : list MarketSnapshot) : Prop :=
  StronglySorted
    (fun a b => (Database.timestamp b <= Database.timestamp a)%Z) history.

End Spec.

(** ** database.py: the store as a whole

    The two tables and the counter that [AUTOINCREMENT] keeps in
    [sqlite_sequence]: a new row gets a key one above the largest key the
    table has ever held. *)

Module Store.

Import Database.

(** A row of [market_metadata]; [ticker] is the primary key. *)
Record metadata : Type := {
  meta_ticker : string;
  meta_title : string;
  meta_subtitle : string;
  meta_url : string;
  last_updated : Z
}.

(** What [get_market_metadata] hands back. *)
Record market_info : Type := {
  info_ticker : string;
  info_title : string;
  info_subtitle : string;
  info_url : string
}.

Record db : Type := {
  market_snapshots : list row;
  sqlite_sequence : Z;
  market_metadata : list metadata
}.

(** [CREATE TABLE IF NOT EXISTS ...] on a new file. *)
Definition empty : db :=
  {| market_snapshots := []; sqlite_sequence := 0; market_metadata := [] |}.

Definition max_rowid (rows : list row) : Z :=
  fold_right (fun r m => Z.max (id r) m) 0%Z rows.

(** [INSERT INTO market_snapshots (...) VALUES (...)] *)
Definition insert_snapshot (d : db) (s : MarketSnapshot) : db :=
  let new_id :=
    (Z.max (sqlite_sequence d) (max_rowid (market_snapshots d)) + 1)%Z in
  {| market_snapshots := market_snapshots d ++ [{| id := new_id; snap := s |}];
     sqlite_sequence := new_id;
     market_metadata := market_metadata d |}.

(** [Database.save_snapshot] *)
Definition save_snapshot (snapshot : MarketSnapshot) (d : db) : db :=
  insert_snapshot d snapshot.

(** [Database.save_snapshots_batch]: [executemany] inserts in list order. *)
Definition save_snapshots_batch (snapshots : list MarketSnapshot) (d : db) : db :=
  fold_left insert_snapshot snapshots d.

(** [Database.get_history] on the store. *)
Definition get_history (t : string) (lim : Z) (d : db) : list MarketSnapshot :=
  Database.get_history t lim (market_snapshots d).

(** [Database.get_all_market_histories]: [SELECT DISTINCT ticker], then one
    [get_history] per ticker, collected in a dict. *)
Definition get_all_market_histories (limit_per_market : Z) (d : db)
  : gmap string (list MarketSnapshot) :=
  fold_left
    (fun histories t => <[t := get_history t limit_per_market d]> histories)
    (nodup String.string_dec (map row_ticker (market_snapshots d)))
    ∅.

(** [histories.get(ticker, [])] *)
Definition history_of (histories : gmap string (list MarketSnapshot))
    (t : string) : list MarketSnapshot :=
  match histories !! t with
  | Some h => h
  | None => []
  end.

(** [Database.prune_old_data] on the store: the table afterwards and the
    returned count. *)
Definition prune_old_data (max_points_per_market : Z) (d : db) : db * Z :=
  let pruned :=
    Database.prune_old_data max_points_per_market (market_snapshots d) in
  ({| market_snapshots := fst pruned;
      sqlite_sequence := sqlite_sequence d;
      market_metadata := market_metadata d |},
   snd pruned).

(** [Database.update_market_metadata]: [INSERT OR REPLACE] deletes the row
    that holds the primary key, if there is one, and inserts the new row. *)
Definition update_market_metadata (ticker title subtitle url : string)
    (utcnow : Z) (d : db) : db :=
  {| market_snapshots := market_snapshots d;
     sqlite_sequence := sqlite_sequence d;
     market_metadata :=
       filter (fun m => negb (String.eqb (meta_ticker m) ticker))
              (market_metadata d)
       ++ [{| meta_ticker := ticker; meta_title := title;
              meta_subtitle := subtitle; meta_url := url;
              last_updated := utcnow |}] |}.

(** [Database.get_market_metadata]: [fetchone] of the rows with the ticker. *)
Definition get_market_metadata (ticker : string) (d : db) : option market_info :=
  match find (fun m => String.eqb (meta_ticker m) ticker) (market_metadata d) with
  | Some m => Some {| info_ticker := meta_ticker m; info_title := meta_title m;
                      info_subtitle := meta_subtitle m; info_url := meta_url m |}
  | None => None
  end.

End Store.

(** ** alerts.py *)

Module Alerts.

Import Detector.

(** What [AlertManager] reads of the configuration. *)
Record AlertManager : Type := {
  discord_webhook_url : option string
}.

(** [if self.config.discord_webhook_url] *)
Definition webhook_set (self : AlertManager) : bool :=
  match discord_webhook_url self with
  | Some u => negb (String.eqb u "")
  | None => false
  end.

(** [extra_info.get(key)] *)
Fixpoint extra_lookup (info : list (string * extra)) (key : string)
  : option extra :=
  match info with
  | [] => None
  | (k, v) :: rest => if String.eqb k key then Some v else extra_lookup rest key
  end.

(** A value under the format specification [:.2f]: text has no such format
    ([ValueError], an instance of [Exception]). *)
Definition format_float (v : extra) : result R :=
  match v with
  | EFloat r => Ok r
  | EInt z => Ok (IZR z)
  | EStr _ => Raise OtherException
  end.

(** [extra_info.get(key, 0)] under [:.2f] *)
Definition extra_float (info : list (string * extra)) (key : string) : result R :=
  match extra_lookup info key with
  | Some v => format_float v
  | None => Ok 0%R
  end.

(** What a field of the embed shows: a number (the conversion [int(...)] and
    the format specification belong to the rendering, which is not modelled),
    an arrow and an amount, or the two quotes. *)
Inductive shown : Type :=
| Number (v : R)
| Change (up : bool) (v : R)
| BidAsk (bid ask : R).

(** [{"name": ..., "value": ..., "inline": True}]; [field_arg] is the value
    interpolated into the name, if there is one. *)
Record field : Type := {
  field_name : string;
  field_arg : option extra;
  field_value : shown
}.

(** [AlertManager._get_embed_color] *)
Definition _get_embed_color (spike_type : SpikeType) : Z :=
  match spike_type with
  | VOLUME => 65280
  | PRICE => 16755200
  | SPREAD_COMPRESSION => 39423
  end.

(** [AlertManager._build_embed_fields] *)
Definition _build_embed_fields (event : SpikeEvent) : result (list field) :=
  match spike_type event with
  | VOLUME =>
      Ok [{| field_name := "Current Volume"; field_arg := None;
             field_value := Number (current_value event) |};
          {| field_name := "Previous Volume"; field_arg := None;
             field_value := Number (previous_value event) |};
          {| field_name := "Volume Change"; field_arg := None;
             field_value :=
               Number (current_value event - previous_value event) |};
          {| field_name := "Avg Rate of Change"; field_arg := None;
             field_value := Number (average_value event) |}]
  | PRICE =>
      let direction :=
        match extra_lookup (extra_info event) "direction" with
        | Some v => v
        | None => EStr ""
        end in
      let arrow :=
        match direction with
        | EStr s => String.eqb s "up"
        | _ => false
        end in
      Ok [{| field_name := "Current Price"; field_arg := None;
             field_value := Number (current_value event) |};
          {| field_name := "Price min ago";
             field_arg :=
               Some match extra_lookup (extra_info event) "window_minutes" with
                    | Some v => v
                    | None => EInt 5
                    end;
             field_value := Number (previous_value event) |};
          {| field_name := "Change"; field_arg := None;
             field_value :=
               Change arrow
                 (Rabs (current_value event - previous_value event)) |}]
  | SPREAD_COMPRESSION =>
      let* ratio := truediv (current_value event) (average_value event) in
      let* bid := extra_float (extra_info event) "yes_bid" in
      let* ask := extra_float (extra_info event) "yes_ask" in
      Ok [{| field_name := "Current Spread"; field_arg := None;
             field_value := Number (current_value event) |};
          {| field_name := "Average Spread"; field_arg := None;
             field_value := Number (average_value event) |};
          {| field_name := "Compression"; field_arg := None;
             field_value := Number ((1 - ratio) * 100) |};
          {| field_name := "Bid/Ask"; field_arg := None;
             field_value := BidAsk bid ask |}]
  end.

(** The embed; [embed_title] stands for the emoji and the name of the kind. *)
Record embed : Type := {
  embed_title : SpikeType;
  description : string;
  color : Z;
  fields : list field;
  embed_timestamp : Z;
  footer : string
}.

Record payload : Type := {
  embeds : list embed;
  content : string
}.

Definition newline : string := String (ascii_of_nat 10) EmptyString.

(** What [send_alert] does to the outside: a message printed to the
    console, a POST to the webhook, the notice of a failed POST. *)
Inductive effect : Type :=
| Print (message : list line)
| Post (url : string) (json : payload)
| PrintFailure.

(** [AlertManager._print_console_alert] *)
Definition _print_console_alert (event : SpikeEvent)
  : list effect * result unit :=
  match format_message event with
  | Ok message => ([Print message], Ok tt)
  | Raise e => ([], Raise e)
  end.

(** [AlertManager._send_discord_alert]; [post] is the outcome of the POST,
    should one be sent. *)
Definition _send_discord_alert (self : AlertManager) (post : result unit)
    (event : SpikeEvent) : list effect * result unit :=
  if negb (webhook_set self) then ([], Ok tt) else
  match _build_embed_fields event with
  | Raise e => ([], Raise e)
  | Ok embed_fields =>
      let embed := {|
        embed_title := spike_type event;
        description :=
          if String.eqb (event_subtitle event) ""
          then "**" +:+ event_title event +:+ "**"
          else "**" +:+ event_title event +:+ "**" +:+ newline
               +:+ event_subtitle event;
        color := _get_embed_color (spike_type event);
        fields := embed_fields;
        embed_timestamp := event_timestamp event;
        footer := "Ticker: " +:+ event_ticker event
      |} in
      let payload := {|
        embeds := [embed];
        content := "[View Market](" +:+ event_url event +:+ ")"
      |} in
      let url := match discord_webhook_url self with
                 | Some u => u
                 | None => ""%string
                 end in
      match post with
      | Ok _ => ([Post url payload], Ok tt)
      | Raise _ => ([Post url payload; PrintFailure], Ok tt)
      end
  end.

(** [AlertManager.send_alert] *)
Definition send_alert (self : AlertManager) (post : result unit)
    (event : SpikeEvent) : list effect * result unit :=
  match _print_console_alert event with
  | (printed, Raise e) => (printed, Raise e)
  | (printed, Ok _) =>
      if webhook_set self then
        let (posted, r) := _send_discord_alert self post event in
        (printed ++ posted, r)
      else (printed, Ok tt)
  end.

End Alerts.

(** Reading what the alerts did: the messages printed, the payloads posted
    and the kinds of the alerts in them. *)

Module Effects.

Import Alerts.

Definition printed (out : list effect) : list (list Detector.line) :=
  flat_map (fun e => match e with Print m => [m] | _ => [] end) out.

Definition posted (out : list effect) : list payload :=
  flat_map (fun e => match e with Post _ p => [p] | _ => [] end) out.

Definition posted_kinds (out : list effect) : list Detector.SpikeType :=
  flat_map (fun p => map embed_title (embeds p)) (posted out).

End Effects.

(** ** collector.py: [MarketCollector] *)

Module MarketCollector.

Import Database.

(** [Market.to_snapshot], on the market at its annotated types. *)
Definition to_snapshot (utcnow : Z) (self : Detector.Market) : MarketSnapshot := {|
  ticker := Detector.ticker self;
  timestamp := utcnow;
  volume := Detector.volume self;
  last_price := Detector.last_price self;
  yes_bid := Detector.yes_bid self;
  yes_ask := Detector.yes_ask self;
  open_interest := Detector.open_interest self;
  title := Detector.title self;
  subtitle := Detector.subtitle self
|}.

(** One round of the loop of [fetch_all_markets] as the network answers it:
    the outcome of [get_auth_headers] and of [client.get]. *)
Record exchange : Type := {
  auth_headers : result value;
  get_response : result Auth.response
}.

(** The request of one round: the headers and the cursor parameter, if one
    is set. *)
Record request : Type := {
  headers : value;
  cursor_param : option value
}.

(** [for x in v]: a list gives its items, text its characters, a dict its
    keys; the other values are not iterable ([TypeError], an instance of
    [Exception]). *)
Definition iterate (v : value) : result (list value) :=
  match v with
  | VList l => Ok l
  | VStr s => Ok (map (fun c => VStr (String c EmptyString))
                    (String.list_ascii_of_string s))
  | VDict d => Ok (map (fun kv => VStr (fst kv)) (map_to_list d))
  | _ => Raise OtherException
  end.

(** [for market_data in ...: markets.append(Market.from_api_response(market_data))];
    only a dict has the method [get]. *)
Fixpoint markets_of (items : list value) : result (list Collector.Market) :=
  match items with
  | [] => Ok []
  | VDict market_data :: rest =>
      let* market := Collector.from_api_response market_data in
      let* markets := markets_of rest in
      Ok (market :: markets)
  | _ :: _ => Raise AttributeError
  end.

(** The body of the loop after the request: the markets of the page and the
    next cursor. *)
Definition page_of (response : result Auth.response)
  : result (list Collector.Market * value) :=
  let* response := response in
  let* _ := Auth.raise_for_status response in
  let data := Auth.json response in
  let* items := iterate (get data "markets" (VList [])) in
  let* page := markets_of items in
  Ok (page, get data "cursor" VNone).

Inductive fetch_status : Type :=
| Returned (markets : list Collector.Market)
| Raised (e : exn)
| Fetching.

(** [while True: ...] of [fetch_all_markets], run against the given
    exchanges; [Fetching] when the loop is about to start a round beyond
    them.  Returns the requests sent as well. *)
Fixpoint fetch_loop (exchanges : list exchange) (cursor : value)
    (markets : list Collector.Market) : list request * fetch_status :=
  match exchanges with
  | [] => ([], Fetching)
  | x :: rest =>
      match auth_headers x with
      | Raise e => ([], Raised e)
      | Ok h =>
          let request := {| headers := h;
                            cursor_param := if truthy cursor then Some cursor
                                            else None |} in
          match page_of (get_response x) with
          | Raise e => ([request], Raised e)
          | Ok (page, cursor') =>
              if truthy cursor' then
                let (requests, status) :=
                  fetch_loop rest cursor' (markets ++ page) in
                (request :: requests, status)
              else ([request], Returned (markets ++ page))
          end
      end
  end.

(** [MarketCollector.fetch_all_markets] *)
Definition fetch_all_markets (exchanges : list exchange)
  : list request * fetch_status :=
  fetch_loop exchanges VNone [].

(** [MarketCollector.fetch_single_market]: [auth] is the outcome of
    [get_auth_headers], [response] of [client.get]. *)
Definition fetch_single_market (auth : result value)
    (response : result Auth.response) : result (option Collector.Market) :=
  let* _ := auth in
  match
    (let* response := response in
     let* _ := Auth.raise_for_status response in
     let data := Auth.json response in
     match get data "market" (VDict data) with
     | VDict market_data => Collector.from_api_response market_data
     | _ => Raise AttributeError
     end)
  with
  | Ok market => Ok (Some market)
  | Raise (HTTPStatusError code) =>
      if (code =? 404)%Z then Ok None else Raise (HTTPStatusError code)
  | Raise e => Raise e
  end.

(** A market that [fetch_all_markets] returned, at its annotated types, with
    the readings of the clock that the cycle takes for it: in
    [to_snapshot], in [update_market_metadata] and in [detect_spikes]. *)
Record polled : Type := {
  market : Detector.Market;
  snapshot_time : Z;
  metadata_time : Z;
  detect_time : Z
}.

(** [MarketCollector.collect_and_store], after [fetch_all_markets] has
    returned: the store afterwards. *)
Definition collect_and_store (config : Config) (markets : list polled)
    (d : Store.db) : Store.db :=
  let snapshots :=
    map (fun m => to_snapshot (snapshot_time m) (market m)) markets in
  let d1 := match snapshots with
            | [] => d
            | _ :: _ => Store.save_snapshots_batch snapshots d
            end in
  let d2 :=
    fold_left
      (fun d m =>
         Store.update_market_metadata
           (Detector.ticker (market m)) (Detector.title (market m))
           (Detector.subtitle (market m)) (Detector.url (market m))
           (metadata_time m) d)
      markets d1 in
  fst (Store.prune_old_data (max_history_points config) d2).

End MarketCollector.

(** Reading the exchanges of [fetch_all_markets]: an exchange answers when
    the headers are obtained and the response gives a page; it continues when
    the cursor of the answer is true, and ends otherwise. *)

Module FetchSpec.

Import MarketCollector.

Definition header_of (x : exchange) : value :=
  match auth_headers x with
  | Ok h => h
  | Raise _ => VNone
  end.

Definition page (x : exchange) : list Collector.Market :=
  match page_of (get_response x) with
  | Ok (p, _) => p
  | Raise _ => []
  end.

Definition next_cursor (x : exchange) : value :=
  match page_of (get_response x) with
  | Ok (_, c) => c
  | Raise _ => VNone
  end.

Definition answers (x : exchange) : Prop :=
  (exists h, auth_headers x = Ok h) /\
  (exists p c, page_of (get_response x) = Ok (p, c)).

Definition continues (x : exchange) : Prop :=
  answers x /\ truthy (next_cursor x) = true.

Definition ends (x : exchange) : Prop :=
  answers x /\ truthy (next_cursor x) = false.

(** The cursor in hand after the given exchanges. *)
Definition cursor_after (exchanges : list exchange) (cursor : value) : value :=
  fold_left (fun _ x => next_cursor x) exchanges cursor.

(** One request per exchange, each with the cursor of the answer before. *)
Fixpoint requests_of (exchanges : list exchange) (cursor : value)
  : list request :=
  match exchanges with
  | [] => []
  | x :: rest =>
      {| headers := header_of x;
         cursor_param := if truthy cursor then Some cursor else None |}
      :: requests_of rest (next_cursor x)
  end.

(** An answer with status 200, a market per ticker and a cursor. *)
Definition answer (tickers : list string) (cursor : value) : exchange := {|
  auth_headers := Ok (VStr "Bearer");
  get_response :=
    Ok {| Auth.status_code := 200;
          Auth.json :=
            {[ "markets"%string :=
                 VList (map (fun t => VDict {[ "ticker"%string := VStr t ]})
                          tickers);
               "cursor"%string := cursor ]} |}
|}.

End FetchSpec.

(** ** scanner.py: [_poll_cycle], [get_market_history] *)

Module PollCycle.

Import Database.
Import MarketCollector.

(** [for spike in spikes: spike_count += 1; await self.alerts.send_alert(...)];
    [post n] is the outcome of the POST for the alert that brings
    [spike_count] to [n + 1]. *)
Fixpoint alert_loop (alerts : Alerts.AlertManager) (post : nat -> result unit)
    (spike_count : nat) (spikes : list Detector.SpikeEvent)
  : list Alerts.effect * result nat :=
  match spikes with
  | [] => ([], Ok spike_count)
  | spike :: rest =>
      match Alerts.send_alert alerts (post spike_count) spike with
      | (out, Raise e) => (out, Raise e)
      | (out, Ok _) =>
          let (out', r) := alert_loop alerts post (S spike_count) rest in
          (out ++ out', r)
      end
  end.

(** [for market in markets: ...] *)
Fixpoint market_loop (config : Config) (alerts : Alerts.AlertManager)
    (post : nat -> result unit)
    (histories : gmap string (list MarketSnapshot))
    (spike_count : nat) (markets : list polled)
  : list Alerts.effect * result nat :=
  match markets with
  | [] => ([], Ok spike_count)
  | m :: rest =>
      let history := Store.history_of histories (Detector.ticker (market m)) in
      match Detector.detect_spikes config (detect_time m) (market m) history with
      | Raise e => ([], Raise e)
      | Ok spikes =>
          match alert_loop alerts post spike_count spikes with
          | (out, Raise e) => (out, Raise e)
          | (out, Ok n) =>
              let (out', r) :=
                market_loop config alerts post histories n rest in
              (out ++ out', r)
          end
      end
  end.

(** How the call of [collect_and_store] in a cycle ends.
    - [Collected]: it returned these markets; the store accepted every row,
      and the fields of the markets are taken at their annotated types.
    - [FetchRaised]: [fetch_all_markets] raised; nothing was written.
    - [StoreRaised]: [save_snapshots_batch] raised, as it does when a column
      declared [NOT NULL] receives [None] (a title that the API record
      carries as null passes [from_api_response] unchanged), after the rows
      of [inserted] went in; the metadata was not written and nothing was
      pruned. *)
Inductive collected : Type :=
| Collected (markets : list polled)
| FetchRaised (e : exn)
| StoreRaised (inserted : list polled) (e : exn).

(** [MarketScanner._poll_cycle]: the store afterwards, what the alerts did,
    and [spike_count] or the exception that ended the cycle.  The progress
    messages are left out. *)
Definition _poll_cycle (config : Config) (alerts : Alerts.AlertManager)
    (post : nat -> result unit) (c : collected) (d : Store.db)
  : Store.db * list Alerts.effect * result nat :=
  match c with
  | FetchRaised e => (d, [], Raise e)
  | StoreRaised inserted e =>
      (Store.save_snapshots_batch
         (map (fun m => to_snapshot (snapshot_time m) (market m)) inserted) d,
       [], Raise e)
  | Collected markets =>
      let d' := collect_and_store config markets d in
      let histories :=
        Store.get_all_market_histories (max_history_points config) d' in
      let (out, r) := market_loop config alerts post histories 0 markets in
      (d', out, r)
  end.

(** [MarketScanner.get_market_history]: [None], or the metadata and the
    history. *)
Definition get_market_history (config : Config) (ticker : string)
    (d : Store.db)
  : option (option Store.market_info * list MarketSnapshot) :=
  let history := Store.get_history ticker (max_history_points config) d in
  let metadata := Store.get_market_metadata ticker d in
  match history, metadata with
  | [], None => None
  | _, _ => Some (metadata, history)
  end.

End PollCycle.

(** The events that the detector returns for the polled markets on the
    histories of a store, in the order of the markets. *)

Module CycleSpec.

Import MarketCollector.

Definition spikes_of (config : Config) (d : Store.db) (m : polled)
  : list Detector.SpikeEvent :=
  match
    Detector.detect_spikes config (detect_time m) (market m)
      (Store.get_history (Detector.ticker (market m))
         (max_history_points config) d)
  with
  | Ok spikes => spikes
  | Raise _ => []
  end.

Definition detected (config : Config) (markets : list polled) (d : Store.db)
  : list Detector.SpikeEvent :=
  flat_map (spikes_of config d) markets.

(** Two polled markets for the example table. *)
Definition polled_at (t : string) (vol now : Z) : polled := {|
  market := {| Detector.ticker := t; Detector.title := t;
               Detector.subtitle := ""; Detector.status := "open";
               Detector.volume := vol; Detector.open_interest := 0;
               Detector.last_price := None; Detector.yes_bid := None;
               Detector.yes_ask := None; Detector.url := "" |};
  snapshot_time := now;
  metadata_time := now;
  detect_time := now
|}.

Definition example_store : Store.db := {|
  Store.market_snapshots := Spec.stored_rows;
  Store.sqlite_sequence := 4;
  Store.market_metadata := []
|}.

Definition example_polled : list polled :=
  [polled_at "A" 7 40; polled_at "B" 9 41].

End CycleSpec.

(** ** detector.py in binary64

    The price check and the spread check decide by comparing floats with
    thresholds.  Whether a change that meets a threshold exactly is on one
    side or the other depends on the rounding of every operation, which the
    reals do not show.  This module embeds the two checks over IEEE 754
    binary64 numbers, the [float] of Python: [/], [-] and [abs] are the
    rounded operations, [<=], [>=] and [>] the comparisons of floats (false
    on NaN), and [statistics.mean] is the exact sum of the data divided by
    their number and rounded once.  A decimal literal denotes the nearest
    binary64 number, as it does in Python.  Prices and quotes are cents at
    their annotated type, [Optional[float]]; the store declares their
    columns [REAL] and returns them as floats, and an int of cents that the
    API sends takes part in the arithmetic as the float of the same value. *)

Module Binary64.

Import PrimFloat.

#[local] Set Warnings "-inexact-float".
#[local] Open Scope float_scope.

Record Config : Type := {
  poll_interval_seconds : Z;
  max_history_points : Z;
  volume_std_threshold : float;
  price_spike_threshold : float;
  price_spike_window_minutes : Z;
  spread_compression_threshold : float
}.

Definition default_config : Config := {|
  poll_interval_seconds := 60;
  max_history_points := 100;
  volume_std_threshold := 2;
  price_spike_threshold := 0.1;
  price_spike_window_minutes := 5;
  spread_compression_threshold := 0.5
|}.

(** [database.MarketSnapshot] *)
Record MarketSnapshot : Type := {
  ticker : string;
  timestamp : Z;
  volume : Z;
  last_price : option float;
  yes_bid : option float;
  yes_ask : option float;
  open_interest : Z;
  title : string;
  subtitle : string
}.

(** [collector.Market], its fields at their annotated types. *)
Record Market : Type := {
  market_ticker : string;
  market_title : string;
  market_subtitle : string;
  status : string;
  market_volume : Z;
  market_open_interest : Z;
  market_last_price : option float;
  market_yes_bid : option float;
  market_yes_ask : option float;
  url : string
}.

Inductive extra : Type :=
| EFloat (x : float)
| EInt (z : Z)
| EStr (s : string).

(** [SpikeEvent] *)
Record SpikeEvent : Type := {
  spike_type : Detector.SpikeType;
  event_ticker : string;
  event_title : string;
  event_subtitle : string;
  event_timestamp : Z;
  current_value : float;
  previous_value : float;
  average_value : float;
  threshold : float;
  event_url : string;
  extra_info : list (string * extra)
}.

(** *** statistics.mean on floats *)

(** A float that is neither an infinity nor NaN. *)
Definition is_finite (x : float) : bool :=
  match FloatOps.Prim2SF x with
  | SpecFloat.S754_zero _ | SpecFloat.S754_finite _ _ _ => true
  | SpecFloat.S754_infinity _ | SpecFloat.S754_nan => false
  end.

(** The value of a finite float, exactly: a pair [(m, e)] for [m * 2 ^ e]. *)
Definition exact (x : float) : Z * Z :=
  match FloatOps.Prim2SF x with
  | SpecFloat.S754_finite s m e => (SpecFloat.cond_Zopp s (Zpos m), e)
  | _ => (0, 0)%Z
  end.

Definition exact_add (a b : Z * Z) : Z * Z :=
  let e := Z.min (snd a) (snd b) in
  (fst a * 2 ^ (snd a - e) + fst b * 2 ^ (snd b - e), e)%Z.

(** The sum that [statistics._sum] keeps as a fraction. *)
Definition exact_sum (data : list float) : Z * Z :=
  fold_left (fun total x => exact_add total (exact x)) data (0, 0)%Z.

(** [float(total / n)]: the quotient rounded to the nearest float, ties to
    even. *)
Definition rounded_quotient (total : Z * Z) (n : nat) : float :=
  let divisor := SpecFloat.S754_finite false (Pos.of_nat n) 0 in
  match fst total with
  | Z0 => zero
  | Zpos m =>
      FloatOps.SF2Prim
        (SpecFloat.SFdiv FloatOps.prec FloatOps.emax
           (SpecFloat.S754_finite false m (snd total)) divisor)
  | Zneg m =>
      FloatOps.SF2Prim
        (SpecFloat.SFdiv FloatOps.prec FloatOps.emax
           (SpecFloat.S754_finite true m (snd total)) divisor)
  end.

(** [float(n)] for a count. *)
Definition of_nat (n : nat) : float :=
  FloatOps.SF2Prim
    (SpecFloat.binary_normalize FloatOps.prec FloatOps.emax (Z.of_nat n) 0 false).

(** [statistics.mean(data)]: [StatisticsError] on empty data; the exact mean
    rounded once when all data are finite; otherwise the float sum of the
    infinities and NaNs among the data, divided by the count. *)
Definition mean (data : list float) : result float :=
  match data with
  | [] => Raise StatisticsError
  | _ :: _ =>
      match filter (fun x => negb (is_finite x)) data with
      | [] => Ok (rounded_quotient (exact_sum data) (length data))
      | specials =>
          Ok (fold_left add specials zero / of_nat (length data))
      end
  end.

(** [x / y] on floats, when the divisor is not known to be nonzero. *)
Definition truediv (x y : float) : result float :=
  if (y =? 0) then Raise ZeroDivisionError else Ok (x / y).

(** *** The price check *)

(** The loop of [_detect_price_spike]; the accumulator is
    [reference_snapshot]. *)
Fixpoint find_reference (window_cutoff : Z) (history : list MarketSnapshot)
    (reference_snapshot : option MarketSnapshot) : option MarketSnapshot :=
  match history with
  | [] => reference_snapshot
  | snapshot :: rest =>
      if (timestamp snapshot <=? window_cutoff)%Z then Some snapshot
      else find_reference window_cutoff rest (Some snapshot)
  end.

Definition _detect_price_spike (config : Config) (utcnow : Z)
    (market : Market) (history : list MarketSnapshot)
  : result (option SpikeEvent) :=
  match market_last_price market with
  | None => Ok None
  | Some market_last_price =>
      let window_cutoff :=
        (utcnow - timedelta_minutes (price_spike_window_minutes config))%Z in
      match find_reference window_cutoff history None with
      | None => Ok None
      | Some reference_snapshot =>
          match last_price reference_snapshot with
          | None => Ok None
          | Some reference_last_price =>
              let current_price := market_last_price / 100 in
              let reference_price := reference_last_price / 100 in
              let price_change := abs (current_price - reference_price) in
              if price_spike_threshold config <=? price_change then
                Ok (Some {|
                  spike_type := Detector.PRICE;
                  event_ticker := market_ticker market;
                  event_title := market_title market;
                  event_subtitle := market_subtitle market;
                  event_timestamp := utcnow;
                  current_value := current_price;
                  previous_value := reference_price;
                  average_value := reference_price;
                  threshold := price_spike_threshold config;
                  event_url := url market;
                  extra_info :=
                    [("window_minutes"%string,
                      EInt (price_spike_window_minutes config));
                     ("direction"%string,
                      EStr (if reference_price <? current_price
                            then "up" else "down"))]
                |})
              else Ok None
          end
      end
  end.

(** *** The spread check *)

(** The loop of [_detect_spread_compression] that collects
    [historical_spreads]. *)
Fixpoint historical_spreads (history : list MarketSnapshot) : list float :=
  match history with
  | [] => []
  | snapshot :: rest =>
      match yes_bid snapshot, yes_ask snapshot with
      | Some bid, Some ask =>
          let spread := (ask - bid) / 100 in
          if 0 <? spread then spread :: historical_spreads rest
          else historical_spreads rest
      | _, _ => historical_spreads rest
      end
  end.

Definition _detect_spread_compression (config : Config) (utcnow : Z)
    (market : Market) (history : list MarketSnapshot)
  : result (option SpikeEvent) :=
  match market_yes_bid market, market_yes_ask market with
  | Some bid, Some ask =>
      let current_spread := (ask - bid) / 100 in
      if current_spread <=? 0 then Ok None else
      let spreads := historical_spreads history in
      if (length spreads <? 3)%nat then Ok None else
      let* avg_spread := mean spreads in
      let* compression_ratio := truediv current_spread avg_spread in
      if compression_ratio <=? 1 - spread_compression_threshold config then
        Ok (Some {|
          spike_type := Detector.SPREAD_COMPRESSION;
          event_ticker := market_ticker market;
          event_title := market_title market;
          event_subtitle := market_subtitle market;
          event_timestamp := utcnow;
          current_value := current_spread;
          previous_value := match spreads with s :: _ => s | [] => 0 end;
          average_value := avg_spread;
          threshold := spread_compression_threshold config;
          event_url := url market;
          extra_info := [("yes_bid"%string, EFloat (bid / 100));
                         ("yes_ask"%string, EFloat (ask / 100));
                         ("compression_ratio"%string,
                          EFloat compression_ratio)]
        |})
      else Ok None
  | _, _ => Ok None
  end.

(** *** What the claims say, in their words *)

(** The reference of the price check: the first snapshot, newest to oldest,
    at or before the cutoff; the oldest snapshot when there is none. *)
Definition reference (cutoff : Z) (history : list MarketSnapshot)
  : option MarketSnapshot :=
  match find (fun s => (timestamp s <=? cutoff)%Z) history with
  | Some s => Some s
  | None => last (map Some history) None
  end.

(** The spread of a snapshot that counts for the average: both quotes
    present and the spread, in dollars, strictly positive. *)
Definition qualifying_spread (s : MarketSnapshot) : option float :=
  match yes_bid s, yes_ask s with
  | Some bid, Some ask =>
      let spread := (ask - bid) / 100 in
      if 0 <? spread then Some spread else None
  | _, _ => None
  end.

Definition qualifying_spreads (history : list MarketSnapshot) : list float :=
  flat_map (fun s => match qualifying_spread s with
                     | Some x => [x]
                     | None => []
                     end) history.

(** *** Examples *)

(** A snapshot and a market that carry quotes, in cents, and nothing else. *)
Definition snapshot_of_quotes (ts : Z) (price bid ask : option float)
  : MarketSnapshot := {|
  ticker := "T"; timestamp := ts; volume := 0;
  last_price := price; yes_bid := bid; yes_ask := ask;
  open_interest := 0; title := ""; subtitle := ""
|}.

Definition market_of_quotes (price bid ask : option float) : Market := {|
  market_ticker := "T"; market_title := ""; market_subtitle := "";
  status := "open"; market_volume := 0; market_open_interest := 0;
  market_last_price := price; market_yes_bid := bid; market_yes_ask := ask;
  url := ""
|}.

(** Ten minutes after the one stored snapshot. *)
Definition price_now : Z := 600000000.

(** A history whose newest snapshot is inside the five minute window and
    whose older one, at four minutes, is not; a market at 150 cents. *)
Definition price_reference : MarketSnapshot :=
  snapshot_of_quotes 240000000 (Some 130) None None.

Definition price_history : list MarketSnapshot :=
  [snapshot_of_quotes 540000000 (Some 140) None None; price_reference].

Definition price_market : Market := market_of_quotes (Some 150) None None.




End Binary64.

(** * Properties *)

(** ** collector.py: [Market.from_api_response] *)

Section FromApiResponse.
Import Collector.

Lemma get_missing (data : gmap string value) k dflt :
  data !! k = None -> get data k dflt = dflt.
Proof. intros H. unfold get. now rewrite H. Qed.

Lemma get_present (data : gmap string value) k dflt v :
  data !! k = Some v -> get data k dflt = v.
Proof. intros H. unfold get. now rewrite H. Qed.

Lemma get_or_zero (data : gmap string value) k :
  data !! k = None \/ data !! k = Some VNone ->
  or_ (get data k (VInt 0)) (VInt 0) = VInt 0.
Proof.
  intros [H | H]; unfold get; rewrite H; reflexivity.
Qed.

Lemma truthy_str s : truthy (VStr s) = true <-> s <> ""%string.
Proof.
  simpl. destruct (String.eqb_spec s "") as [-> | Hne]; simpl; split; congruence.
Qed.

Lemma ticker_lowerable_get (data : gmap string value) :
  Spec.ticker_lowerable data ->
  truthy (get data "ticker" (VStr "")) = true ->
  exists s, get data "ticker" (VStr "") = VStr s /\ s <> ""%string.
Proof.
  intros Hlow Htruthy. unfold get in *.
  destruct (data !! "ticker"%string) as [v |] eqn:Hlook.
  - destruct (Hlow v Hlook Htruthy) as [s ->].
    exists s. split; [reflexivity | now apply truthy_str].
  - discriminate Htruthy.
Qed.

(** The constructor returns exactly on the records whose ticker can be
    lowercased. *)
Lemma from_api_response_returns_iff (data : gmap string value) :
  (exists m, from_api_response data = Ok m) <-> Spec.ticker_lowerable data.
Proof.
  split.
  - intros [m Hm] v Hv Htruthy. unfold from_api_response in Hm.
    rewrite (get_present data "ticker" (VStr "") v Hv) in Hm.
    rewrite Htruthy in Hm.
    destruct v; simpl in Hm; try discriminate Hm. now exists s.
  - intros Hlow. unfold from_api_response.
    destruct (truthy (get data "ticker" (VStr ""))) eqn:Htruthy.
    + destruct (ticker_lowerable_get data Hlow Htruthy) as [s [-> _]].
      simpl. eauto.
    + simpl. eauto.
Qed.

(** C10, amended.  On every record whose [ticker] entry is missing, false
    (null, empty, zero) or a string, [Market.from_api_response] returns a
    market where [volume] and [open_interest] are 0 when the entry is
    missing or null; [ticker], [title], [subtitle] and [status] are the
    empty string when missing; [last_price], [yes_bid] and [yes_ask] are
    [None] when missing; and [url] is the markets prefix followed by the
    lowercased ticker for a non-empty ticker and the empty string
    otherwise. *)
Theorem from_api_response_defaults (data : gmap string value) :
  Spec.ticker_lowerable data ->
  exists m, from_api_response data = Ok m /\
    (data !! "volume"%string = None \/ data !! "volume"%string = Some VNone ->
     volume m = VInt 0) /\
    (data !! "open_interest"%string = None \/
     data !! "open_interest"%string = Some VNone ->
     open_interest m = VInt 0) /\
    (data !! "ticker"%string = None -> ticker m = VStr "") /\
    (data !! "title"%string = None -> title m = VStr "") /\
    (data !! "subtitle"%string = None -> subtitle m = VStr "") /\
    (data !! "status"%string = None -> status m = VStr "") /\
    (data !! "last_price"%string = None -> last_price m = VNone) /\
    (data !! "yes_bid"%string = None -> yes_bid m = VNone) /\
    (data !! "yes_ask"%string = None -> yes_ask m = VNone) /\
    (forall s, ticker m = VStr s -> s <> ""%string ->
               url m = markets_url +:+ lower s) /\
    (truthy (ticker m) = false -> url m = ""%string).
Proof.
  intros Hlow. unfold from_api_response.
  destruct (truthy (get data "ticker" (VStr ""))) eqn:Htruthy.
  - destruct (ticker_lowerable_get data Hlow Htruthy) as [s [Hs Hne]].
    rewrite Hs in *. simpl bind. eexists. split; [reflexivity |]. simpl.
    repeat split; try (intros H; now rewrite ?get_or_zero, ?get_missing by exact H).
    + intros H. rewrite get_missing in Hs by exact H. symmetry. exact Hs.
    + intros s' [= <-] _. reflexivity.
    + intros H. simpl in Htruthy. congruence.
  - simpl bind. eexists. split; [reflexivity |]. simpl.
    repeat split; try (intros H; now rewrite ?get_or_zero, ?get_missing by exact H).
    intros s Hs Hne. rewrite Hs in Htruthy.
    apply truthy_str in Hne. congruence.
Qed.

(** A record without any of the fields: every hypothesis of
    [from_api_response_defaults] holds of it. *)
Lemma from_api_response_defaults_witness :
  exists m, from_api_response ∅ = Ok m /\ volume m = VInt 0 /\
            ticker m = VStr "" /\ last_price m = VNone /\ url m = ""%string.
Proof.
  destruct (from_api_response_defaults ∅) as [m [Hm [Hv [_ [Ht [_ [_ [_ [Hl [_ [_ [_ Hu]]]]]]]]]]]].
  - intros v Hv. rewrite lookup_empty in Hv. discriminate Hv.
  - exists m. split; [exact Hm |].
    split; [apply Hv; left; apply lookup_empty |].
    split; [apply Ht; apply lookup_empty |].
    split; [apply Hl; apply lookup_empty |].
    apply Hu. rewrite (Ht (lookup_empty _)). reflexivity.
Defined.

(** C10 as stated fails: a record whose ticker is the number 7 makes the
    constructor raise. *)
Lemma from_api_response_number_ticker_raises :
  ~ (exists m, from_api_response {[ "ticker"%string := VInt 7 ]} = Ok m).
Proof.
  intros [m Hm]. unfold from_api_response in Hm.
  rewrite (get_present _ "ticker" (VStr "") (VInt 7)) in Hm
    by apply lookup_singleton_eq.
  simpl in Hm. discriminate Hm.
Qed.

End FromApiResponse.

(** ** auth.py: the token cache *)

Section TokenCache.
Import Auth.

(** The cached token is usable: one is present and the clock is strictly
    before its expiry minus the 60 second buffer. *)
Lemma cache_usable_iff (utcnow : Z) (_token : option AuthToken) :
  match _token with
  | None => true
  | Some t => is_expired utcnow t 60
  end = false <->
  exists t, _token = Some t /\ (utcnow < expires_at t - 60 * 1000000)%Z.
Proof.
  unfold is_expired, timedelta_seconds. destruct _token as [t |].
  - rewrite Z.leb_gt. split.
    + intros H. exists t. split; [reflexivity | exact H].
    + intros [t' [[= <-] H]]. exact H.
  - split; [discriminate | intros [t [H _]]; discriminate H].
Qed.

(** What a successful login stores. *)
Lemma _login_ok (utcnow : Z) (r : response) (t m : value)
    (_token : option AuthToken) :
  raise_for_status r = Ok tt ->
  json r !! "token"%string = Some t ->
  json r !! "member_id"%string = Some m ->
  _login utcnow (Ok r) _token =
    (Ok tt, Some {| token := t; member_id := m;
                    expires_at := (utcnow + 23 * 3600 * 1000000)%Z |}).
Proof.
  intros Hstatus Ht Hm. unfold _login, getitem. simpl.
  rewrite Hstatus. simpl. rewrite Ht, Hm. simpl.
  unfold timedelta_hours, timedelta_minutes, timedelta_seconds.
  repeat f_equal; lia.
Qed.

(** A failed login leaves the cache as it was. *)
Lemma _login_raise (utcnow : Z) (post : result response)
    (_token : option AuthToken) (e : exn) :
  fst (_login utcnow post _token) = Raise e ->
  snd (_login utcnow post _token) = _token.
Proof.
  unfold _login.
  destruct (let* response := post in _) as [tok | e']; simpl;
    [discriminate | reflexivity].
Qed.

(** A login that returns has filled the cache. *)
Lemma _login_returns (utcnow : Z) (post : result response)
    (_token : option AuthToken) (u : unit) :
  fst (_login utcnow post _token) = Ok u ->
  exists t, snd (_login utcnow post _token) = Some t.
Proof.
  unfold _login.
  destruct (let* response := post in _) as [tok | e']; simpl;
    [eauto | discriminate].
Qed.

(** C8.  [get_token] returns the cached token, without a login request,
    exactly when a token is present and the clock is strictly before its
    [expires_at] minus 60 seconds.  Otherwise it sends one login request;
    when that succeeds the cache is replaced by a token built from the
    reply alone, valid for 23 hours from the clock reading of the login,
    whatever else the reply declares and whatever was cached, and that
    token is returned; when it fails the error propagates and the cache is
    left as it was.  [clear_token] empties the cache, so that the next
    [get_token] sends a login request. *)
Theorem get_token_cache_policy :
  (forall utcnow_check utcnow_login post _token,
      snd (get_token utcnow_check utcnow_login post _token) = 0%nat <->
      exists t, _token = Some t /\
                (utcnow_check < expires_at t - 60 * 1000000)%Z) /\
  (forall utcnow_check utcnow_login post t,
      (utcnow_check < expires_at t - 60 * 1000000)%Z ->
      get_token utcnow_check utcnow_login post (Some t) =
        (Ok (token t), Some t, 0%nat)) /\
  (forall utcnow_check utcnow_login post _token,
      (forall t, _token = Some t ->
                 (expires_at t - 60 * 1000000 <= utcnow_check)%Z) ->
      snd (get_token utcnow_check utcnow_login post _token) = 1%nat /\
      (forall r tok m,
          post = Ok r -> raise_for_status r = Ok tt ->
          json r !! "token"%string = Some tok ->
          json r !! "member_id"%string = Some m ->
          get_token utcnow_check utcnow_login post _token =
            (Ok tok,
             Some {| token := tok; member_id := m;
                     expires_at := (utcnow_login + 23 * 3600 * 1000000)%Z |},
             1%nat)) /\
      (forall e,
          fst (fst (get_token utcnow_check utcnow_login post _token)) = Raise e ->
          snd (fst (get_token utcnow_check utcnow_login post _token)) = _token)) /\
  (forall _token, clear_token _token = None) /\
  (forall utcnow_check utcnow_login post _token,
      snd (get_token utcnow_check utcnow_login post (clear_token _token)) = 1%nat).
Proof.
  split; [| split; [| split; [| split]]].
  - intros uc ul post tk. rewrite <- cache_usable_iff. unfold get_token.
    destruct (match tk with None => true | Some t => is_expired uc t 60 end).
    + destruct (_login ul post tk) as [[u | e] tk']; simpl; split; discriminate.
    + simpl. split; reflexivity.
  - intros uc ul post t Hlt. unfold get_token.
    assert (Hu : is_expired uc t 60 = false).
    { apply (cache_usable_iff uc (Some t)). eauto. }
    rewrite Hu. reflexivity.
  - intros uc ul post tk Hstale.
    assert (Hexp : match tk with None => true | Some t => is_expired uc t 60 end
                   = true).
    { destruct tk as [t |]; [| reflexivity].
      unfold is_expired, timedelta_seconds. apply Z.leb_le.
      specialize (Hstale t eq_refl). lia. }
    unfold get_token. rewrite Hexp. split; [| split].
    + destruct (_login ul post tk) as [[u | e] tk']; reflexivity.
    + intros r tok m -> Hst Htok Hm.
      rewrite (_login_ok ul r tok m tk Hst Htok Hm). reflexivity.
    + intros e. pose proof (_login_raise ul post tk) as Hraise.
      pose proof (_login_returns ul post tk) as Hret.
      destruct (_login ul post tk) as [[u | e'] tk']; simpl in *.
      * destruct (Hret u eq_refl) as [t' ->]. discriminate.
      * intros _. apply (Hraise e' eq_refl).
  - reflexivity.
  - intros uc ul post tk. unfold clear_token, get_token.
    destruct (_login ul post None) as [[u | e] tk']; reflexivity.
Qed.

(** [get_token_cache_policy] on a cache that is still valid, and on the
    same cache 40 seconds later, inside the buffer, with a reply that
    declares a lifetime of 30 days. *)
Lemma get_token_cache_policy_witness :
  let cached := {| token := VStr "a"; member_id := VStr "m";
                   expires_at := 100000000 |} in
  let reply := {| status_code := 200;
                  json := {[ "token"%string := VStr "b";
                             "member_id"%string := VStr "m";
                             "expires_in"%string := VInt 2592000 ]} |} in
  get_token 0 5 (Ok reply) (Some cached) = (Ok (VStr "a"), Some cached, 0%nat) /\
  get_token 40000000 45000000 (Ok reply) (Some cached) =
    (Ok (VStr "b"),
     Some {| token := VStr "b"; member_id := VStr "m";
             expires_at := (45000000 + 23 * 3600 * 1000000)%Z |},
     1%nat).
Proof.
  intros cached reply.
  destruct get_token_cache_policy as [_ [Hhit [Hmiss _]]].
  split.
  - apply Hhit. simpl. lia.
  - destruct (Hmiss 40000000%Z 45000000%Z (Ok reply) (Some cached))
      as [_ [Hok _]].
    + intros t [= <-]. simpl. lia.
    + apply (Hok reply); reflexivity.
Defined.

End TokenCache.

(** ** scanner.py: the loop of [MarketScanner.start] *)

Section ScannerLoop.
Import Scanner.

Lemma count_event_app (e : event) (t1 t2 : list event) :
  count_event e (t1 ++ t2) = (count_event e t1 + count_event e t2)%nat.
Proof. unfold count_event. now rewrite filter_app, length_app. Qed.

(** The handlers start no cycle and do not sleep. *)
Lemma handle_trace (r : result unit) (s : MarketScanner) :
  count_event PollCycle (snd (handle r s)) = 0%nat /\
  count_event Sleep (snd (handle r s)) = 0%nat /\
  _running (fst (handle r s)) = _running s.
Proof.
  unfold handle. destruct r as [u | e]; [auto |].
  destruct e; auto. destruct (status_code =? 401)%Z; auto.
Qed.

(** The token cache after the handlers: emptied on a 401 status, left
    alone otherwise. *)
Lemma handle_token (r : result unit) (s : MarketScanner) :
  (r = Raise (HTTPStatusError 401) ->
   auth_token (fst (handle r s)) = None /\
   count_event ClearToken (snd (handle r s)) = 1%nat) /\
  (r <> Raise (HTTPStatusError 401) ->
   auth_token (fst (handle r s)) = auth_token s /\
   count_event ClearToken (snd (handle r s)) = 0%nat).
Proof.
  split.
  - intros ->. simpl. auto.
  - intros Hne. unfold handle. destruct r as [u | e]; [auto |].
    destruct e; auto.
    destruct (Z.eqb_spec status_code 401) as [-> | Hcode]; [contradiction | auto].
Qed.

Lemma count_event_cycle (e : event) (handled : list event) :
  count_event e (PollCycle :: handled ++ [Sleep]) =
    (count_event e [PollCycle] + count_event e handled + count_event e [Sleep])%nat /\
  count_event e (PollCycle :: handled) =
    (count_event e [PollCycle] + count_event e handled)%nat.
Proof.
  change (PollCycle :: handled ++ [Sleep]) with ([PollCycle] ++ handled ++ [Sleep]).
  change (PollCycle :: handled) with ([PollCycle] ++ handled).
  rewrite !count_event_app. lia.
Qed.

(** One pass through the loop body starts one cycle; if nothing asked for
    a stop, it sleeps once and leaves the flag set. *)
Lemma iteration_trace (c : cycle) (s : MarketScanner) :
  count_event PollCycle (snd (iteration c s)) = 1%nat /\
  (_running s = true -> stop_during_cycle c = false ->
   stop_during_sleep c = false ->
   _running (fst (iteration c s)) = true /\
   count_event Sleep (snd (iteration c s)) = 1%nat).
Proof.
  unfold iteration.
  set (s1 := {| _running := _running s && negb (stop_during_cycle c);
                auth_token := cycle_token c (auth_token s) |}).
  destruct (handle_trace (cycle_result c) s1) as [Hpoll [Hsleep Hrun]].
  destruct (handle (cycle_result c) s1) as [s2 handled]. simpl in *.
  split.
  - destruct (_running s2); simpl snd;
      [rewrite (proj1 (count_event_cycle _ _))
      | rewrite (proj2 (count_event_cycle _ _))];
      rewrite Hpoll; reflexivity.
  - intros Hr Hc Hs. rewrite Hrun, Hr, Hc. simpl. rewrite Hs.
    split; [reflexivity |].
    rewrite (proj1 (count_event_cycle _ _)), Hsleep. reflexivity.
Qed.

(** The token cache after one pass through the loop body. *)
Lemma iteration_token (c : cycle) (s : MarketScanner) :
  (cycle_result c = Raise (HTTPStatusError 401) ->
   auth_token (fst (iteration c s)) = None /\
   count_event ClearToken (snd (iteration c s)) = 1%nat) /\
  (cycle_result c <> Raise (HTTPStatusError 401) ->
   auth_token (fst (iteration c s)) = cycle_token c (auth_token s) /\
   count_event ClearToken (snd (iteration c s)) = 0%nat).
Proof.
  unfold iteration.
  set (s1 := {| _running := _running s && negb (stop_during_cycle c);
                auth_token := cycle_token c (auth_token s) |}).
  destruct (handle_token (cycle_result c) s1) as [H401 Hother].
  destruct (handle (cycle_result c) s1) as [s2 handled]. simpl in *.
  split; intros Hres;
    [destruct (H401 Hres) as [Htok Hclear]
    | destruct (Hother Hres) as [Htok Hclear]];
    (destruct (_running s2); simpl; split; try exact Htok;
     [rewrite (proj1 (count_event_cycle _ _))
     | rewrite (proj2 (count_event_cycle _ _))];
     rewrite Hclear; reflexivity).
Qed.

(** Without a stop request the loop runs every cycle it is given, however
    the cycles end, and is still in the loop afterwards. *)
Lemma start_loop_no_stop (cycles : list cycle) :
  Spec.no_stop_request cycles ->
  forall s, _running s = true ->
  snd (start_loop cycles s) = InLoop /\
  _running (fst (fst (start_loop cycles s))) = true /\
  count_event PollCycle (snd (fst (start_loop cycles s))) = length cycles /\
  count_event Sleep (snd (fst (start_loop cycles s))) = length cycles.
Proof.
  induction 1 as [| c rest [Hc Hs] Hrest IH]; intros s Hrun; simpl.
  - rewrite Hrun. auto.
  - rewrite Hrun.
    destruct (iteration_trace c s) as [Hpoll Hstep].
    destruct (Hstep Hrun Hc Hs) as [Hrun1 Hsleep].
    destruct (iteration c s) as [s1 trace1]. simpl in *.
    specialize (IH s1 Hrun1).
    destruct (start_loop rest s1) as [[s2 trace2] status]. simpl in *.
    destruct IH as [Hstatus [Hrun2 [Hpoll2 Hsleep2]]].
    rewrite !count_event_app, Hpoll, Hsleep, Hpoll2, Hsleep2. auto.
Qed.

(** The loop is left only after a stop request. *)
Lemma start_loop_exited (cycles : list cycle) :
  forall s, _running s = true ->
  snd (start_loop cycles s) = Exited ->
  Exists (fun c => stop_during_cycle c = true \/ stop_during_sleep c = true)
         cycles.
Proof.
  induction cycles as [| c rest IH]; intros s Hrun; simpl.
  - rewrite Hrun. discriminate.
  - rewrite Hrun. intros Hexit.
    destruct (stop_during_cycle c) eqn:Hc; [left; auto |].
    destruct (stop_during_sleep c) eqn:Hs; [left; auto |].
    right.
    destruct (iteration_trace c s) as [_ Hstep].
    destruct (Hstep Hrun Hc Hs) as [Hrun1 _].
    destruct (iteration c s) as [s1 trace1]. simpl in *.
    apply (IH s1 Hrun1).
    destruct (start_loop rest s1) as [[s2 trace2] status]. exact Hexit.
Qed.

(** What the handlers print: one line for a failed cycle, of the kind of
    its exception, and nothing for a cycle that returned. *)
Lemma handle_log (r : result unit) (s : MarketScanner) :
  (forall u, r = Ok u ->
     count_event PrintAuthError (snd (handle r s)) = 0%nat /\
     count_event PrintHTTPError (snd (handle r s)) = 0%nat /\
     count_event PrintError (snd (handle r s)) = 0%nat) /\
  (r = Raise (HTTPStatusError 401) ->
     count_event PrintAuthError (snd (handle r s)) = 1%nat /\
     count_event PrintHTTPError (snd (handle r s)) = 0%nat /\
     count_event PrintError (snd (handle r s)) = 0%nat) /\
  (forall code, r = Raise (HTTPStatusError code) -> code <> 401%Z ->
     count_event PrintAuthError (snd (handle r s)) = 0%nat /\
     count_event PrintHTTPError (snd (handle r s)) = 1%nat /\
     count_event PrintError (snd (handle r s)) = 0%nat) /\
  (forall e, r = Raise e -> (forall code, e <> HTTPStatusError code) ->
     count_event PrintAuthError (snd (handle r s)) = 0%nat /\
     count_event PrintHTTPError (snd (handle r s)) = 0%nat /\
     count_event PrintError (snd (handle r s)) = 1%nat).
Proof.
  split; [| split; [| split]].
  - intros u ->. simpl. auto.
  - intros ->. simpl. auto.
  - intros code -> Hcode. simpl.
    destruct (Z.eqb_spec code 401) as [Heq | _]; [contradiction | simpl; auto].
  - intros e -> Hkind. destruct e; simpl; auto.
    exfalso. exact (Hkind status_code eq_refl).
Qed.

(** The pass through the loop body prints what its handlers print. *)
Lemma iteration_log (c : cycle) (s : MarketScanner) (e : event) :
  e = PrintAuthError \/ e = PrintHTTPError \/ e = PrintError ->
  count_event e (snd (iteration c s)) =
  count_event e
    (snd (handle (cycle_result c)
            {| _running := _running s && negb (stop_during_cycle c);
               auth_token := cycle_token c (auth_token s) |})).
Proof.
  intros Hkind. unfold iteration.
  destruct (handle (cycle_result c) _) as [s2 handled]. simpl.
  assert (Hpoll : count_event e [PollCycle] = 0%nat)
    by (destruct Hkind as [-> | [-> | ->]]; reflexivity).
  assert (Hsleep : count_event e [Sleep] = 0%nat)
    by (destruct Hkind as [-> | [-> | ->]]; reflexivity).
  destruct (_running s2); simpl snd;
    [rewrite (proj1 (count_event_cycle _ _)), Hsleep
    | rewrite (proj2 (count_event_cycle _ _))];
    rewrite Hpoll; lia.
Qed.

(** C7.  A cycle that fails with an HTTP 401 status empties the token
    cache and is not retried: the pass through the loop body starts one
    cycle.  A cycle that ends otherwise, with any other error or without
    one, leaves the token cache as the cycle left it.  In every case, if no
    stop was requested, the flag is still set and the loop sleeps once
    before the next cycle; run against any cycles without a stop request,
    however they end, the loop starts every one of them and is still
    running afterwards.  The loop is left only after a stop request.  Every
    failed cycle is logged with exactly one line: the auth notice for a 401
    status, the HTTP error line for any other status, the error line for
    any other exception; a cycle that returns logs none of them. *)
Theorem scanner_loop_recovery :
  (forall c s,
      cycle_result c = Raise (HTTPStatusError 401) ->
      auth_token (fst (iteration c s)) = None /\
      count_event ClearToken (snd (iteration c s)) = 1%nat /\
      count_event PollCycle (snd (iteration c s)) = 1%nat) /\
  (forall c s,
      cycle_result c <> Raise (HTTPStatusError 401) ->
      auth_token (fst (iteration c s)) = cycle_token c (auth_token s) /\
      count_event ClearToken (snd (iteration c s)) = 0%nat /\
      count_event PollCycle (snd (iteration c s)) = 1%nat) /\
  (forall c s,
      _running s = true ->
      stop_during_cycle c = false -> stop_during_sleep c = false ->
      _running (fst (iteration c s)) = true /\
      count_event Sleep (snd (iteration c s)) = 1%nat) /\
  (forall cycles s,
      Spec.no_stop_request cycles ->
      snd (start cycles s) = InLoop /\
      _running (fst (fst (start cycles s))) = true /\
      count_event PollCycle (snd (fst (start cycles s))) = length cycles /\
      count_event Sleep (snd (fst (start cycles s))) = length cycles) /\
  (forall cycles s,
      snd (start cycles s) = Exited ->
      Exists (fun c => stop_during_cycle c = true \/ stop_during_sleep c = true)
             cycles) /\
  (forall c s,
      (cycle_result c = Raise (HTTPStatusError 401) ->
       count_event PrintAuthError (snd (iteration c s)) = 1%nat /\
       count_event PrintHTTPError (snd (iteration c s)) = 0%nat /\
       count_event PrintError (snd (iteration c s)) = 0%nat) /\
      (forall code,
          cycle_result c = Raise (HTTPStatusError code) -> code <> 401%Z ->
          count_event PrintAuthError (snd (iteration c s)) = 0%nat /\
          count_event PrintHTTPError (snd (iteration c s)) = 1%nat /\
          count_event PrintError (snd (iteration c s)) = 0%nat) /\
      (forall e,
          cycle_result c = Raise e ->
          (forall code, e <> HTTPStatusError code) ->
          count_event PrintAuthError (snd (iteration c s)) = 0%nat /\
          count_event PrintHTTPError (snd (iteration c s)) = 0%nat /\
          count_event PrintError (snd (iteration c s)) = 1%nat) /\
      (forall u,
          cycle_result c = Ok u ->
          count_event PrintAuthError (snd (iteration c s)) = 0%nat /\
          count_event PrintHTTPError (snd (iteration c s)) = 0%nat /\
          count_event PrintError (snd (iteration c s)) = 0%nat)).
Proof.
  split; [| split; [| split; [| split; [| split]]]];
    [| | | | |
     intros c s;
     rewrite !iteration_log by auto;
     destruct (handle_log (cycle_result c)
                 {| _running := _running s && negb (stop_during_cycle c);
                    auth_token := cycle_token c (auth_token s) |})
       as [Hok [H401 [Hhttp Hother]]];
     split; [exact H401 | split; [exact Hhttp | split; [exact Hother | exact Hok]]]].
  - intros c s H401. destruct (proj1 (iteration_token c s) H401) as [Ht Hc].
    split; [exact Ht | split; [exact Hc | apply iteration_trace]].
  - intros c s Hother. destruct (proj2 (iteration_token c s) Hother) as [Ht Hc].
    split; [exact Ht | split; [exact Hc | apply iteration_trace]].
  - intros c s. apply iteration_trace.
  - intros cycles s Hquiet. unfold start.
    apply start_loop_no_stop; [exact Hquiet | reflexivity].
  - intros cycles s. unfold start. apply start_loop_exited. reflexivity.
Qed.

(** [scanner_loop_recovery] on three cycles, none with a stop request, and
    a scanner that holds a token: the first cycle is rejected with a 401
    status, which clears the token; the second fails with another error,
    which is logged and leaves the token; the third succeeds. *)
Lemma scanner_loop_recovery_witness :
  let cached := {| Auth.token := VStr "a"; Auth.member_id := VStr "m";
                   Auth.expires_at := 100 |} in
  let rejected := {| cycle_result := Raise (HTTPStatusError 401);
                     cycle_token := fun t => t;
                     stop_during_cycle := false;
                     stop_during_sleep := false |} in
  let failed := {| cycle_result := Raise OtherException;
                   cycle_token := fun t => t;
                   stop_during_cycle := false;
                   stop_during_sleep := false |} in
  let fine := {| cycle_result := Ok tt;
                 cycle_token := fun t => t;
                 stop_during_cycle := false;
                 stop_during_sleep := false |} in
  let s := {| _running := false; auth_token := Some cached |} in
  auth_token (fst (iteration rejected s)) = None /\
  auth_token (fst (iteration failed s)) = Some cached /\
  count_event PrintError (snd (iteration failed s)) = 1%nat /\
  snd (start [rejected; failed; fine] s) = InLoop /\
  count_event PollCycle (snd (fst (start [rejected; failed; fine] s))) = 3%nat.
Proof.
  intros cached rejected failed fine s.
  destruct scanner_loop_recovery as [H401 [Hkeep [_ [Hloop [_ Hlog]]]]].
  split; [| split; [| split]].
  - apply (H401 rejected s). reflexivity.
  - apply (Hkeep failed s). discriminate.
  - destruct (Hlog failed s) as [_ [_ [Hother _]]].
    apply (Hother OtherException); [reflexivity | discriminate].
  - destruct (Hloop [rejected; failed; fine] s) as [Hstatus [_ [Hpoll _]]].
    + repeat constructor.
    + split; [exact Hstatus | exact Hpoll].
Defined.

End ScannerLoop.

(** ** statistics: mean and sample standard deviation *)

Section Statistics.

Lemma fsum_nonneg (xs : list R) :
  Forall (fun x => 0 <= x)%R xs -> (0 <= Stats.fsum xs)%R.
Proof.
  induction 1 as [| x xs Hx _ IH]; simpl; [lra | lra].
Qed.

Lemma fsum_pos (xs : list R) :
  xs <> [] -> Forall (fun x => 0 < x)%R xs -> (0 < Stats.fsum xs)%R.
Proof.
  intros Hne Hall. destruct Hall as [| x xs Hx Hxs]; [contradiction |].
  simpl. assert (0 <= Stats.fsum xs)%R.
  { apply fsum_nonneg. eapply Forall_impl; [| exact Hxs].
    simpl. intros; lra. }
  lra.
Qed.

Lemma fsum_const (d : R) (xs : list R) :
  Forall (eq d) xs -> Stats.fsum xs = (INR (length xs) * d)%R.
Proof.
  induction 1 as [| x xs <- _ IH].
  - simpl. lra.
  - change (Stats.fsum (d :: xs)) with (d + Stats.fsum xs)%R.
    change (length (d :: xs)) with (S (length xs)).
    rewrite IH, S_INR. lra.
Qed.

Lemma INR_length_pos {A : Type} (xs : list A) :
  xs <> [] -> (0 < INR (length xs))%R.
Proof.
  intros Hne. destruct xs as [| x xs]; [contradiction |].
  apply lt_0_INR. simpl. lia.
Qed.

(** On nonempty data [statistics.mean] is the sample mean. *)
Lemma mean_ok (xs : list R) :
  xs <> [] -> Stats.mean xs = Ok (Spec.sample_mean xs).
Proof.
  intros Hne. destruct xs as [| x xs]; [contradiction | reflexivity].
Qed.

(** With two data points or more [statistics.stdev] is the Bessel-corrected
    sample standard deviation. *)
Lemma stdev_ok (xs : list R) :
  (2 <= length xs)%nat -> Stats.stdev xs = Ok (Spec.sample_stdev xs).
Proof.
  intros Hlen. unfold Stats.stdev, Stats.variance.
  destruct (Nat.ltb_spec (length xs) 2) as [Hlt | _]; [lia |].
  rewrite mean_ok by (intros ->; simpl in Hlen; lia). simpl.
  unfold Spec.sample_stdev, Stats.sum_sq_dev.
  rewrite minus_INR by lia.
  rewrite (map_ext (fun x => (x - Spec.sample_mean xs) * (x - Spec.sample_mean xs))%R
                   (fun x => (x - Spec.sample_mean xs) ^ 2)%R)
    by (intros x; simpl; ring).
  reflexivity.
Qed.

(** The mean of strictly positive data is strictly positive. *)
Lemma sample_mean_pos (xs : list R) :
  xs <> [] -> Forall (fun x => 0 < x)%R xs -> (0 < Spec.sample_mean xs)%R.
Proof.
  intros Hne Hall. unfold Spec.sample_mean.
  apply Rdiv_lt_0_compat; [now apply fsum_pos | now apply INR_length_pos].
Qed.

(** Equal data have standard deviation 0. *)
Lemma sample_stdev_const (d : R) (xs : list R) :
  xs <> [] -> Forall (eq d) xs -> Spec.sample_stdev xs = 0%R.
Proof.
  intros Hne Hall. unfold Spec.sample_stdev.
  assert (Hmean : Spec.sample_mean xs = d).
  { unfold Spec.sample_mean. rewrite (fsum_const d xs Hall).
    pose proof (INR_length_pos xs Hne). field. lra. }
  rewrite Hmean.
  assert (Hss : Stats.fsum (map (fun x => (x - d) ^ 2)%R xs) = 0%R).
  { clear Hmean Hne. induction Hall as [| x xs <- _ IH]; [reflexivity |].
    simpl in *. rewrite IH. ring. }
  rewrite Hss. unfold Rdiv. rewrite Rmult_0_l. apply sqrt_0.
Qed.

Lemma sample_stdev_nonneg (xs : list R) : (0 <= Spec.sample_stdev xs)%R.
Proof. apply sqrt_pos. Qed.

End Statistics.

(** ** The stable sort *)

Section StableSortFacts.
Context {A : Type} (before : A -> A -> bool).

(** [x] is not after [y]: [y] does not go strictly before [x]. *)
Let not_after (x y : A) : Prop := before y x = false.

Hypothesis before_asym : forall a b, before a b = true -> before b a = false.
Hypothesis not_after_trans :
  forall a b c, not_after a b -> not_after b c -> not_after a c.

Lemma insert_sorted_perm (x : A) (l : list A) :
  Permutation (insert_sorted before x l) (x :: l).
Proof.
  induction l as [| y ys IH]; simpl; [reflexivity |].
  destruct (before y x); [| reflexivity].
  rewrite IH. apply perm_swap.
Qed.

Lemma stable_sort_perm (l : list A) : Permutation (stable_sort before l) l.
Proof.
  induction l as [| x l IH]; simpl; [reflexivity |].
  rewrite insert_sorted_perm. now constructor.
Qed.

Lemma stable_sort_length (l : list A) :
  length (stable_sort before l) = length l.
Proof. apply Permutation_length, stable_sort_perm. Qed.

Lemma insert_sorted_sorted (x : A) (l : list A) :
  StronglySorted not_after l ->
  StronglySorted not_after (insert_sorted before x l).
Proof.
  induction 1 as [| y ys Hys IH Hy]; simpl.
  - repeat constructor.
  - destruct (before y x) eqn:Hyx.
    + constructor; [exact IH |].
      apply Forall_forall. intros z Hz.
      apply (Permutation_in _ (insert_sorted_perm x ys)) in Hz.
      destruct Hz as [<- | Hz].
      * apply before_asym. exact Hyx.
      * rewrite Forall_forall in Hy. now apply Hy.
    + constructor; [constructor; assumption |].
      constructor; [exact Hyx |].
      apply Forall_forall. intros z Hz. rewrite Forall_forall in Hy.
      apply (not_after_trans x y z); [exact Hyx | now apply Hy].
Qed.

Lemma stable_sort_sorted (l : list A) :
  StronglySorted not_after (stable_sort before l).
Proof.
  induction l as [| x l IH]; simpl; [constructor |].
  now apply insert_sorted_sorted.
Qed.

(** A sorted list is left as it is. *)
Lemma stable_sort_of_sorted (l : list A) :
  StronglySorted not_after l -> stable_sort before l = l.
Proof.
  induction 1 as [| x l Hl IH Hx]; [reflexivity |].
  simpl. rewrite IH.
  destruct l as [| y ys]; [reflexivity |].
  simpl. inversion Hx as [| ? ? Hxy _]; subst.
  unfold not_after in Hxy. now rewrite Hxy.
Qed.

(** Two sorted lists with the same elements are equal when elements that
    are not strictly ordered are equal. *)
Lemma sorted_perm_unique (l1 l2 : list A) :
  (forall a b, In a l1 -> In b l1 -> not_after a b -> not_after b a -> a = b) ->
  StronglySorted not_after l1 ->
  StronglySorted not_after l2 ->
  Permutation l1 l2 ->
  l1 = l2.
Proof.
  intros Hties Hs1. revert l2 Hties.
  induction Hs1 as [| a l1 Hs1 IH Ha]; intros l2 Hties Hs2 Hperm.
  - apply Permutation_nil in Hperm. now subst.
  - destruct l2 as [| b l2];
      [apply Permutation_sym, Permutation_nil in Hperm; discriminate Hperm |].
    inversion Hs2 as [| ? ? Hs2' Hb]; subst.
    rewrite Forall_forall in Ha, Hb.
    assert (Hab : a = b).
    { assert (Hina : In a (b :: l2))
        by (apply (Permutation_in _ Hperm); now left).
      assert (Hinb : In b (a :: l1))
        by (apply (Permutation_in _ (Permutation_sym Hperm)); now left).
      destruct Hina as [-> | Hina]; [reflexivity |].
      destruct Hinb as [-> | Hinb]; [reflexivity |].
      apply Hties; [now left | now right | now apply Ha | now apply Hb]. }
    subst b. f_equal.
    apply IH; [| exact Hs2' | now apply Permutation_cons_inv in Hperm].
    intros x y Hx Hy. apply Hties; now right.
Qed.

End StableSortFacts.

Section SnapshotOrder.
Import Database.

Lemma StronglySorted_weaken {B : Type} (R1 R2 : B -> B -> Prop) (l : list B) :
  (forall a b, R1 a b -> R2 a b) ->
  StronglySorted R1 l -> StronglySorted R2 l.
Proof.
  intros Himpl. induction 1 as [| x l Hl IH Hx]; constructor; [exact IH |].
  eapply Forall_impl; [| exact Hx]. intros b. apply Himpl.
Qed.

(** [sorted(..., reverse=True)] returns a permutation of the history that is
    newest first. *)
Lemma sorted_newest_first_perm (history : list MarketSnapshot) :
  Permutation (Detector.sorted_newest_first history) history.
Proof. apply stable_sort_perm. Qed.

Lemma sorted_newest_first_sorted (history : list MarketSnapshot) :
  Spec.newest_first (Detector.sorted_newest_first history).
Proof.
  unfold Spec.newest_first, Detector.sorted_newest_first.
  eapply StronglySorted_weaken;
    [| apply (stable_sort_sorted
                (fun y x => (timestamp x <? timestamp y)%Z))].
  - intros a b Hab. simpl in Hab. apply Z.ltb_ge in Hab. lia.
  - intros a b Hab. apply Z.ltb_lt in Hab. apply Z.ltb_ge. lia.
  - intros a b c Hab Hbc. apply Z.ltb_ge in Hab, Hbc. apply Z.ltb_ge. lia.
Qed.

Lemma sorted_newest_first_of_sorted (history : list MarketSnapshot) :
  Spec.newest_first history -> Detector.sorted_newest_first history = history.
Proof.
  intros Hsorted. apply stable_sort_of_sorted.
  eapply StronglySorted_weaken; [| exact Hsorted].
  intros a b Hab. simpl in Hab. apply Z.ltb_ge. lia.
Qed.

Lemma NoDup_map_injective {B C : Type} (f : B -> C) (l : list B) (a b : B) :
  NoDup (map f l) -> In a l -> In b l -> f a = f b -> a = b.
Proof.
  induction l as [| x l IH]; simpl; [intros _ [] |].
  intros Hnd Ha Hb Hf. inversion Hnd as [| ? ? Hnotin Hnd']; subst.
  destruct Ha as [-> | Ha], Hb as [-> | Hb].
  - reflexivity.
  - exfalso. apply Hnotin. rewrite Hf. now apply in_map.
  - exfalso. apply Hnotin. rewrite <- Hf. now apply in_map.
  - now apply IH.
Qed.

(** With pairwise distinct timestamps the sorted history depends on the
    snapshots alone, not on their order. *)
Lemma sorted_newest_first_unique (h1 h2 : list MarketSnapshot) :
  NoDup (map timestamp h1) ->
  Permutation h1 h2 ->
  Detector.sorted_newest_first h1 = Detector.sorted_newest_first h2.
Proof.
  intros Hnd Hperm.
  apply (sorted_perm_unique (fun y x => (timestamp x <? timestamp y)%Z)).
  - intros a b Ha Hb Hab Hba.
    apply (Permutation_in _ (sorted_newest_first_perm h1)) in Ha, Hb.
    apply (NoDup_map_injective timestamp h1 a b Hnd Ha Hb).
    apply Z.ltb_ge in Hab, Hba. lia.
  - apply stable_sort_sorted.
    + intros a b Hab. apply Z.ltb_lt in Hab. apply Z.ltb_ge. lia.
    + intros a b c Hab Hbc. apply Z.ltb_ge in Hab, Hbc. apply Z.ltb_ge. lia.
  - apply stable_sort_sorted.
    + intros a b Hab. apply Z.ltb_lt in Hab. apply Z.ltb_ge. lia.
    + intros a b c Hab Hbc. apply Z.ltb_ge in Hab, Hbc. apply Z.ltb_ge. lia.
  - rewrite !sorted_newest_first_perm. exact Hperm.
Qed.

End SnapshotOrder.

(** ** detector.py: the volume check *)

Section VolumeCheck.
Import Detector.

Lemma successive_deltas_cons (a b : Database.MarketSnapshot)
    (rest : list Database.MarketSnapshot) :
  Spec.successive_deltas (a :: b :: rest) =
    (Database.volume a - Database.volume b)%Z :: Spec.successive_deltas (b :: rest).
Proof.
  unfold Spec.successive_deltas.
  replace (length (a :: b :: rest) - 1)%nat with (S (length rest))
    by (simpl; lia).
  replace (length (b :: rest) - 1)%nat with (length rest) by (simpl; lia).
  rewrite <- cons_seq, <- seq_shift, map_cons, map_map. reflexivity.
Qed.

(** The loop over the adjacent pairs computes the successive deltas without
    the negative ones. *)
Lemma rates_of_change_deltas (history : list Database.MarketSnapshot) :
  rates_of_change history =
    filter (fun d => (0 <=? d)%Z) (Spec.successive_deltas history).
Proof.
  induction history as [| a history IH]; [reflexivity |].
  destruct history as [| b rest]; [reflexivity |].
  rewrite successive_deltas_cons.
  change (rates_of_change (a :: b :: rest)) with
    (if (0 <=? Database.volume a - Database.volume b)%Z
     then (Database.volume a - Database.volume b)%Z :: rates_of_change (b :: rest)
     else rates_of_change (b :: rest)).
  rewrite IH. simpl filter.
  destruct (0 <=? Database.volume a - Database.volume b)%Z; reflexivity.
Qed.

Lemma surviving_deltas_rates (history : list Database.MarketSnapshot) :
  Spec.surviving_deltas history = map IZR (rates_of_change history).
Proof. unfold Spec.surviving_deltas. now rewrite rates_of_change_deltas. Qed.

(** With fewer than three snapshots the check returns no event. *)
Lemma _detect_volume_spike_short (config : Config) (utcnow : Z)
    (market : Market) (history : list Database.MarketSnapshot) :
  (length history < 3)%nat ->
  _detect_volume_spike config utcnow market history = Ok None.
Proof.
  intros Hlen. unfold _detect_volume_spike.
  destruct (Nat.ltb_spec (length history) 3); [reflexivity | lia].
Qed.

(** The check on three snapshots or more, with the guards in the order of
    the code and the statistics in closed form. *)
Lemma _detect_volume_spike_cases (config : Config) (utcnow : Z)
    (market : Market) (newest : Database.MarketSnapshot)
    (rest : list Database.MarketSnapshot) :
  (3 <= length (newest :: rest))%nat ->
  let history := newest :: rest in
  let deltas := Spec.surviving_deltas history in
  let current_rate := (volume market - Database.volume newest)%Z in
  let z := ((IZR current_rate - Spec.sample_mean deltas)
            / Spec.sample_stdev deltas)%R in
  exists ev,
    spike_type ev = VOLUME /\
    current_value ev = IZR (volume market) /\
    previous_value ev = IZR (Database.volume newest) /\
    average_value ev = Spec.sample_mean deltas /\
    extra_info ev = [("z_score"%string, EFloat z);
                     ("std_rate"%string, EFloat (Spec.sample_stdev deltas))] /\
    _detect_volume_spike config utcnow market history =
      if (length deltas <? 2)%nat then Ok None
      else if (current_rate <=? 0)%Z then Ok None
      else if Rlt_dec 0 (Spec.sample_stdev deltas) then
        if Rle_dec (volume_std_threshold config) z then Ok (Some ev)
        else Ok None
      else Ok None.
Proof.
  intros Hlen history deltas current_rate z.
  subst z deltas history. rewrite surviving_deltas_rates.
  unfold _detect_volume_spike.
  destruct (Nat.ltb_spec (length (newest :: rest)) 3) as [Hlt | _]; [lia |].
  rewrite length_map.
  set (rates := rates_of_change (newest :: rest)).
  eexists {| spike_type := VOLUME |}.
  split; [reflexivity |]. split; [reflexivity |].
  split; [reflexivity |]. split; [reflexivity |]. split; [reflexivity |].
  destruct (Nat.ltb_spec (length rates) 2) as [Hfew | Hmany]; [reflexivity |].
  cbn [item0 bind]. fold current_rate.
  destruct (current_rate <=? 0)%Z; [reflexivity |].
  assert (Hne : map IZR rates <> []).
  { intros Hnil. apply (f_equal (@length R)) in Hnil.
    rewrite length_map in Hnil. simpl in Hnil. lia. }
  rewrite (mean_ok _ Hne). cbn [bind].
  destruct (Nat.leb_spec 2 (length rates)) as [_ | Hlt]; [| lia].
  rewrite stdev_ok by (rewrite length_map; exact Hmany). cbn [bind].
  reflexivity.
Qed.

(** C1.  With fewer than three snapshots the volume check returns no event.
    With three or more it returns a Volume event if and only if at least two
    successive deltas survive the discarding of the negative ones, the
    current rate [market.volume - history[0].volume] is strictly positive,
    the Bessel-corrected sample standard deviation of the surviving deltas is
    nonzero, and the z-score of the current rate reaches
    [volume_std_threshold].  The event carries [market.volume],
    [history[0].volume] and the mean of the surviving deltas.  With fewer
    than two surviving deltas, a current rate that is not positive or a
    standard deviation of 0, and so whenever all surviving deltas are equal,
    no event is returned. *)
Theorem volume_spike_iff :
  (forall config utcnow market history,
      (length history < 3)%nat ->
      _detect_volume_spike config utcnow market history = Ok None) /\
  (forall config utcnow market newest rest,
      let history := newest :: rest in
      let deltas := Spec.surviving_deltas history in
      let current_rate := (volume market - Database.volume newest)%Z in
      let z := ((IZR current_rate - Spec.sample_mean deltas)
                / Spec.sample_stdev deltas)%R in
      (3 <= length history)%nat ->
      ((exists e, _detect_volume_spike config utcnow market history = Ok (Some e)) <->
       (2 <= length deltas)%nat /\ (0 < current_rate)%Z /\
       Spec.sample_stdev deltas <> 0%R /\
       (volume_std_threshold config <= z)%R) /\
      (forall e,
          _detect_volume_spike config utcnow market history = Ok (Some e) ->
          spike_type e = VOLUME /\
          current_value e = IZR (volume market) /\
          previous_value e = IZR (Database.volume newest) /\
          average_value e = Spec.sample_mean deltas) /\
      ((length deltas < 2)%nat \/ (current_rate <= 0)%Z \/
       Spec.sample_stdev deltas = 0%R ->
       _detect_volume_spike config utcnow market history = Ok None) /\
      (forall d, Forall (eq d) deltas ->
                 _detect_volume_spike config utcnow market history = Ok None)).
Proof.
  split; [exact _detect_volume_spike_short |].
  intros config utcnow market newest rest history deltas current_rate z Hlen.
  destruct (_detect_volume_spike_cases config utcnow market newest rest Hlen)
    as [ev [Htype [Hcur [Hprev [Havg [_ Hrun]]]]]].
  fold history deltas current_rate z in Hrun, Havg.
  pose proof (sample_stdev_nonneg deltas) as Hsd.
  assert (Hnone :
    (length deltas < 2)%nat \/ (current_rate <= 0)%Z \/
    Spec.sample_stdev deltas = 0%R ->
    _detect_volume_spike config utcnow market history = Ok None).
  { intros Hskip. rewrite Hrun.
    destruct (Nat.ltb_spec (length deltas) 2); [reflexivity |].
    destruct (Z.leb_spec current_rate 0); [reflexivity |].
    destruct (Rlt_dec 0 (Spec.sample_stdev deltas)); [| reflexivity].
    destruct Hskip as [H1 | [H2 | H3]]; [lia | lia | lra]. }
  split; [| split; [| split]].
  - rewrite Hrun. split.
    + intros [e He].
      destruct (Nat.ltb_spec (length deltas) 2); [discriminate He |].
      destruct (Z.leb_spec current_rate 0); [discriminate He |].
      destruct (Rlt_dec 0 (Spec.sample_stdev deltas)); [| discriminate He].
      destruct (Rle_dec (volume_std_threshold config) z); [| discriminate He].
      repeat split; [lia | lia | lra | lra].
    + intros [Hmany [Hrate [Hstd Hz]]].
      destruct (Nat.ltb_spec (length deltas) 2); [lia |].
      destruct (Z.leb_spec current_rate 0); [lia |].
      destruct (Rlt_dec 0 (Spec.sample_stdev deltas)); [| lra].
      destruct (Rle_dec (volume_std_threshold config) z); [| contradiction].
      eauto.
  - intros e He. rewrite Hrun in He.
    destruct (length deltas <? 2)%nat; [discriminate He |].
    destruct (current_rate <=? 0)%Z; [discriminate He |].
    destruct (Rlt_dec 0 (Spec.sample_stdev deltas)); [| discriminate He].
    destruct (Rle_dec (volume_std_threshold config) z); [| discriminate He].
    injection He as <-. auto.
  - exact Hnone.
  - intros d Hall. apply Hnone.
    destruct deltas as [| x xs] eqn:Hd; [left; simpl; lia |].
    right. right. apply (sample_stdev_const d); [discriminate | exact Hall].
Qed.

(** The volume check never raises, and what it returns is a Volume event. *)
Lemma _detect_volume_spike_total (config : Config) (utcnow : Z)
    (market : Market) (history : list Database.MarketSnapshot) :
  exists r, _detect_volume_spike config utcnow market history = Ok r /\
            forall e, r = Some e -> spike_type e = VOLUME.
Proof.
  destruct (Nat.lt_ge_cases (length history) 3) as [Hshort | Hlong].
  - exists None. split; [now apply _detect_volume_spike_short | discriminate].
  - destruct history as [| newest rest]; [simpl in Hlong; lia |].
    destruct (_detect_volume_spike_cases config utcnow market newest rest Hlong)
      as [ev [Htype [_ [_ [_ [_ Hrun]]]]]].
    rewrite Hrun.
    repeat match goal with
           | |- context [if ?c then _ else _] => destruct c
           end;
      eexists; (split; [reflexivity |]); intros e [= <-]; exact Htype.
Qed.

(** [volume_spike_iff] on four snapshots with the volumes 1000, 950, 920
    and 850. *)
Lemma volume_spike_iff_witness :
  let deltas := Spec.surviving_deltas Spec.example_history in
  let current_rate :=
    (volume Spec.example_market - Database.volume Spec.example_newest)%Z in
  (exists e, _detect_volume_spike default_config 0 Spec.example_market
               Spec.example_history = Ok (Some e)) <->
  (2 <= length deltas)%nat /\ (0 < current_rate)%Z /\
  Spec.sample_stdev deltas <> 0%R /\
  (volume_std_threshold default_config <=
   (IZR current_rate - Spec.sample_mean deltas) / Spec.sample_stdev deltas)%R.
Proof.
  refine (proj1 (proj2 volume_spike_iff default_config 0%Z Spec.example_market
                   Spec.example_newest (tl Spec.example_history) _)).
  simpl. lia.
Defined.

End VolumeCheck.

(** ** detector.py: the price check *)

Section PriceCheck.
Import Detector.

Lemma last_default_irrelevant {A : Type} (l : list A) (x d d' : A) :
  last (x :: l) d = last (x :: l) d'.
Proof.
  revert x. induction l as [| y l IH]; intros x; [reflexivity |].
  change (last (y :: l) d = last (y :: l) d'). apply IH.
Qed.

(** The loop with its break selects the reference of the specification: the
    first snapshot at or before the cutoff, else the last one scanned, else
    what the variable held before the loop. *)
Lemma find_reference_scan (cutoff : Z) (history : list Database.MarketSnapshot)
    (acc : option Database.MarketSnapshot) :
  find_reference cutoff history acc =
    match find (fun s => (Database.timestamp s <=? cutoff)%Z) history with
    | Some s => Some s
    | None => last (map Some history) acc
    end.
Proof.
  revert acc. induction history as [| s rest IH]; intros acc; [reflexivity |].
  simpl find_reference. simpl find.
  destruct (Database.timestamp s <=? cutoff)%Z; [reflexivity |].
  rewrite IH.
  destruct (find (fun s => (Database.timestamp s <=? cutoff)%Z) rest);
    [reflexivity |].
  destruct rest as [| s' rest']; [reflexivity |].
  change (last (Some s' :: map Some rest') (Some s) =
          last (Some s' :: map Some rest') acc).
  apply last_default_irrelevant.
Qed.

Lemma find_reference_reference (cutoff : Z)
    (history : list Database.MarketSnapshot) :
  find_reference cutoff history None = Spec.reference cutoff history.
Proof. apply find_reference_scan. Qed.

(** There is no reference only when there is no history. *)
Lemma reference_none (cutoff : Z) (history : list Database.MarketSnapshot) :
  Spec.reference cutoff history = None <-> history = [].
Proof.
  split; [| intros ->; reflexivity].
  unfold Spec.reference.
  destruct (find _ history); [discriminate |].
  destruct history as [| s rest]; [reflexivity |].
  intros Hlast. exfalso. revert s Hlast.
  induction rest as [| s' rest IH]; intros s Hlast; [discriminate Hlast |].
  apply (IH s'). exact Hlast.
Qed.

(** The check with the reference and both prices at hand. *)
Lemma _detect_price_spike_cases (config : Config) (utcnow : Z)
    (market : Market) (history : list Database.MarketSnapshot)
    (p q : R) (r : Database.MarketSnapshot) :
  last_price market = Some p ->
  Spec.reference
    (utcnow - price_spike_window_minutes config * 60 * 1000000) history = Some r ->
  Database.last_price r = Some q ->
  exists ev,
    spike_type ev = PRICE /\
    current_value ev = (p / 100)%R /\
    previous_value ev = (q / 100)%R /\
    average_value ev = (q / 100)%R /\
    extra_info ev =
      [("window_minutes"%string, EInt (price_spike_window_minutes config));
       ("direction"%string,
        EStr (if Rlt_dec (q / 100) (p / 100) then "up" else "down"))] /\
    _detect_price_spike config utcnow market history =
      if Rle_dec (price_spike_threshold config) (Rabs (p / 100 - q / 100))
      then Ok (Some ev) else Ok None.
Proof.
  intros Hp Href Hq. unfold _detect_price_spike.
  rewrite Hp, find_reference_reference.
  unfold timedelta_minutes, timedelta_seconds.
  rewrite <- Z.mul_assoc in Href. rewrite <- Z.mul_assoc.
  rewrite Href, Hq.
  eexists {| spike_type := PRICE |}.
  repeat (split; [reflexivity |]). reflexivity.
Qed.

(** The price check never raises, and what it returns is a Price event. *)
Lemma _detect_price_spike_total (config : Config) (utcnow : Z)
    (market : Market) (history : list Database.MarketSnapshot) :
  exists r, _detect_price_spike config utcnow market history = Ok r /\
            forall e, r = Some e -> spike_type e = PRICE.
Proof.
  unfold _detect_price_spike.
  destruct (last_price market) as [p |];
    [| exists None; split; [reflexivity | discriminate]].
  destruct (find_reference _ history None) as [r |];
    [| exists None; split; [reflexivity | discriminate]].
  destruct (Database.last_price r) as [q |];
    [| exists None; split; [reflexivity | discriminate]].
  destruct (Rle_dec _ _);
    eexists; (split; [reflexivity |]); intros e [= <-]; reflexivity.
Qed.

End PriceCheck.

(** ** detector.py in binary64: the price check *)

Section PriceCheckBinary64.
Import PrimFloat.
Import Binary64.
#[local] Set Warnings "-inexact-float".
#[local] Open Scope float_scope.








End PriceCheckBinary64.

(** ** detector.py: the spread-compression check *)

Section SpreadCheck.
Import Detector.

(** The loop collects the spreads of the snapshots that have both sides and
    a strictly positive spread, in the order of the history. *)
Lemma historical_spreads_qualifying (history : list Database.MarketSnapshot) :
  historical_spreads history = Spec.qualifying_spreads history.
Proof.
  unfold Spec.qualifying_spreads.
  induction history as [| s rest IH]; [reflexivity |].
  simpl. unfold Spec.qualifying_spread. rewrite IH.
  destruct (Database.yes_bid s) as [bid |]; [| reflexivity].
  destruct (Database.yes_ask s) as [ask |]; [| reflexivity].
  destruct (Rlt_dec 0 ((ask - bid) / 100)); reflexivity.
Qed.

Lemma qualifying_spreads_pos (history : list Database.MarketSnapshot) :
  Forall (fun x => 0 < x)%R (Spec.qualifying_spreads history).
Proof.
  unfold Spec.qualifying_spreads.
  induction history as [| s rest IH]; [constructor |].
  simpl. unfold Spec.qualifying_spread at 1.
  destruct (Database.yes_bid s) as [bid |]; [| exact IH].
  destruct (Database.yes_ask s) as [ask |]; [| exact IH].
  destruct (Rlt_dec 0 ((ask - bid) / 100)) as [Hpos | _]; [| exact IH].
  constructor; assumption.
Qed.

(** The check past its guards on the market: both sides present. *)
Lemma _detect_spread_compression_cases (config : Config) (utcnow : Z)
    (market : Market) (history : list Database.MarketSnapshot) (bid ask : R) :
  yes_bid market = Some bid ->
  yes_ask market = Some ask ->
  let current_spread := ((ask - bid) / 100)%R in
  let spreads := Spec.qualifying_spreads history in
  let avg := Spec.sample_mean spreads in
  exists ev,
    spike_type ev = SPREAD_COMPRESSION /\
    current_value ev = current_spread /\
    previous_value ev = hd 0%R spreads /\
    average_value ev = avg /\
    _detect_spread_compression config utcnow market history =
      if Rle_dec current_spread 0 then Ok None
      else if (length spreads <? 3)%nat then Ok None
      else if Rle_dec (current_spread / avg)
                      (1 - spread_compression_threshold config)
           then Ok (Some ev) else Ok None.
Proof.
  intros Hbid Hask current_spread spreads avg.
  unfold _detect_spread_compression. rewrite Hbid, Hask.
  rewrite historical_spreads_qualifying. fold current_spread spreads.
  eexists {| spike_type := SPREAD_COMPRESSION |}.
  split; [reflexivity |]. split; [reflexivity |].
  split; [reflexivity |]. split; [reflexivity |].
  destruct (Rle_dec current_spread 0); [reflexivity |].
  destruct (Nat.ltb_spec (length spreads) 3) as [Hfew | Hmany]; [reflexivity |].
  assert (Hne : spreads <> []).
  { intros Hnil. rewrite Hnil in Hmany. simpl in Hmany. lia. }
  rewrite (mean_ok spreads Hne). cbn [bind]. fold avg.
  pose proof (sample_mean_pos spreads Hne (qualifying_spreads_pos history)) as Hpos.
  fold avg in Hpos.
  unfold truediv. destruct (Req_dec_T avg 0) as [Hz | _]; [lra |].
  cbn [bind]. reflexivity.
Qed.

(** The spread check never raises; what it returns is a SpreadCompression
    event whose current and average spreads are strictly positive. *)
Lemma _detect_spread_compression_total (config : Config) (utcnow : Z)
    (market : Market) (history : list Database.MarketSnapshot) :
  exists r, _detect_spread_compression config utcnow market history = Ok r /\
            forall e, r = Some e ->
                      spike_type e = SPREAD_COMPRESSION /\
                      (0 < current_value e)%R /\ (0 < average_value e)%R.
Proof.
  destruct (yes_bid market) as [bid |] eqn:Hbid;
    [| exists None; unfold _detect_spread_compression; rewrite Hbid;
       split; [reflexivity | discriminate]].
  destruct (yes_ask market) as [ask |] eqn:Hask;
    [| exists None; unfold _detect_spread_compression; rewrite Hbid, Hask;
       split; [reflexivity | discriminate]].
  destruct (_detect_spread_compression_cases config utcnow market history
              bid ask Hbid Hask)
    as [ev [Htype [Hcur [_ [Havg Hrun]]]]].
  rewrite Hrun.
  destruct (Rle_dec ((ask - bid) / 100) 0) as [| Hcurpos];
    [exists None; split; [reflexivity | discriminate] |].
  destruct (Nat.ltb_spec (length (Spec.qualifying_spreads history)) 3)
    as [| Hmany]; [exists None; split; [reflexivity | discriminate] |].
  destruct (Rle_dec _ _);
    [| exists None; split; [reflexivity | discriminate]].
  exists (Some ev). split; [reflexivity |]. intros e [= <-].
  split; [exact Htype |]. rewrite Hcur, Havg. split; [lra |].
  apply sample_mean_pos; [| apply qualifying_spreads_pos].
  intros Hnil. rewrite Hnil in Hmany. simpl in Hmany. lia.
Qed.

(** The example history has the spreads 0.05, 0.06 and 0.07. *)
Lemma spread_history_spreads :
  Spec.qualifying_spreads Spec.spread_history = [5 / 100; 6 / 100; 7 / 100]%R.
Proof.
  unfold Spec.qualifying_spreads, Spec.spread_history. simpl.
  unfold Spec.qualifying_spread. simpl.
  repeat match goal with
         | |- context [Rlt_dec ?a ?b] =>
             destruct (Rlt_dec a b) as [_ | Hn]; [| exfalso; apply Hn; lra]
         end.
  repeat f_equal; lra.
Qed.

End SpreadCheck.

(** ** detector.py in binary64: the spread check *)

Section SpreadCheckBinary64.
Import PrimFloat.
Import Binary64.
#[local] Set Warnings "-inexact-float".
#[local] Open Scope float_scope.







End SpreadCheckBinary64.

(** ** detector.py: [detect_spikes] and the events it returns *)

Section DetectSpikes.
Import Detector.

Lemma in_append_if (events : list SpikeEvent) (r : option SpikeEvent)
    (e : SpikeEvent) :
  In e (append_if events r) <-> In e events \/ r = Some e.
Proof.
  destruct r as [ev |]; simpl.
  - rewrite in_app_iff. simpl. split.
    + intros [H | [-> | []]]; auto.
    + intros [H | [= ->]]; auto.
  - split; [auto | intros [H | H]; [exact H | discriminate H]].
Qed.

(** [detect_spikes] never raises: on two snapshots or more it returns what
    the three checks return on the sorted history, in their order. *)
Lemma detect_spikes_checks (config : Config) (utcnow : Z) (market : Market)
    (history : list Database.MarketSnapshot) :
  (2 <= length history)%nat ->
  exists v p s,
    _detect_volume_spike config utcnow market (sorted_newest_first history)
      = Ok v /\
    (forall e, v = Some e -> spike_type e = VOLUME) /\
    _detect_price_spike config utcnow market (sorted_newest_first history)
      = Ok p /\
    (forall e, p = Some e -> spike_type e = PRICE) /\
    _detect_spread_compression config utcnow market (sorted_newest_first history)
      = Ok s /\
    (forall e, s = Some e ->
               spike_type e = SPREAD_COMPRESSION /\
               (0 < current_value e)%R /\ (0 < average_value e)%R) /\
    detect_spikes config utcnow market history =
      Ok (append_if (append_if (append_if [] v) p) s).
Proof.
  intros Hlen.
  destruct (_detect_volume_spike_total config utcnow market
              (sorted_newest_first history)) as [v [Hv Hvt]].
  destruct (_detect_price_spike_total config utcnow market
              (sorted_newest_first history)) as [p [Hp Hpt]].
  destruct (_detect_spread_compression_total config utcnow market
              (sorted_newest_first history)) as [s [Hs Hst]].
  exists v, p, s. repeat (split; [assumption |]).
  unfold detect_spikes.
  destruct (Nat.ltb_spec (length history) 2) as [Hshort | _]; [lia |].
  rewrite Hv, Hp, Hs. reflexivity.
Qed.

Lemma detect_spikes_short (config : Config) (utcnow : Z) (market : Market)
    (history : list Database.MarketSnapshot) :
  (length history < 2)%nat ->
  detect_spikes config utcnow market history = Ok [].
Proof.
  intros Hlen. unfold detect_spikes.
  destruct (Nat.ltb_spec (length history) 2); [reflexivity | lia].
Qed.

(** C9.  [detect_spikes] returns, and every SpreadCompression event among
    the events it returns has a strictly positive average and a strictly
    positive current value, so that [format_message] divides by a nonzero
    average and returns its lines, the compression line among them. *)
Theorem spread_events_format (config : Config) (utcnow : Z) (market : Market)
    (history : list Database.MarketSnapshot) :
  exists events,
    detect_spikes config utcnow market history = Ok events /\
    forall e,
      In e events -> spike_type e = SPREAD_COMPRESSION ->
      (0 < average_value e)%R /\ (0 < current_value e)%R /\
      exists lines,
        format_message e = Ok lines /\
        In (Num "Compression"
              ((1 - current_value e / average_value e) * 100)) lines.
Proof.
  destruct (Nat.lt_ge_cases (length history) 2) as [Hshort | Hlong].
  - exists []. split; [now apply detect_spikes_short | intros e []].
  - destruct (detect_spikes_checks config utcnow market history Hlong)
      as [v [p [s [_ [Hvt [_ [Hpt [_ [Hst Hrun]]]]]]]]].
    eexists. split; [exact Hrun |].
    intros e Hin Htype.
    rewrite !in_append_if in Hin.
    destruct Hin as [[[[] | Hv] | Hp] | Hs].
    + rewrite (Hvt e Hv) in Htype. discriminate Htype.
    + rewrite (Hpt e Hp) in Htype. discriminate Htype.
    + destruct (Hst e Hs) as [_ [Hcur Havg]].
      split; [exact Havg |]. split; [exact Hcur |].
      unfold format_message, truediv. rewrite Htype.
      destruct (Req_dec_T (average_value e) 0) as [Hz | _]; [lra |].
      eexists. split; [reflexivity |]. simpl. auto.
Qed.

(** The spread example: [detect_spikes] returns a SpreadCompression event. *)
Lemma spread_example_event :
  exists events e,
    detect_spikes default_config 0 Spec.spread_market Spec.spread_history
      = Ok events /\
    In e events /\ spike_type e = SPREAD_COMPRESSION.
Proof.
  destruct (detect_spikes_checks default_config 0%Z Spec.spread_market
              Spec.spread_history) as [v [p [s [_ [_ [_ [_ [Hs [Hst Hrun]]]]]]]]].
  { simpl. lia. }
  change (sorted_newest_first Spec.spread_history) with Spec.spread_history in Hs.
  destruct (_detect_spread_compression_cases default_config 0%Z
              Spec.spread_market Spec.spread_history 48%R 50%R eq_refl eq_refl)
    as [ev [_ [_ [_ [_ Hcases]]]]].
  rewrite spread_history_spreads in Hcases.
  assert (Hmean : Spec.sample_mean [5 / 100; 6 / 100; 7 / 100]%R = (6 / 100)%R).
  { unfold Spec.sample_mean. simpl. lra. }
  rewrite Hmean in Hcases. simpl length in Hcases.
  change (3 <? 3)%nat with false in Hcases. cbv iota in Hcases.
  destruct (Rle_dec ((50 - 48) / 100) 0) as [Hn |]; [exfalso; lra |].
  destruct (Rle_dec _ _) as [_ | Hn] in Hcases;
    [| exfalso; apply Hn; simpl; lra].
  rewrite Hcases in Hs. injection Hs as <-.
  eexists. exists ev. split; [exact Hrun |].
  split; [apply in_append_if; right; reflexivity |].
  apply (Hst ev eq_refl).
Qed.

(** [spread_events_format] on the spread example. *)
Lemma spread_events_format_witness :
  exists events,
    detect_spikes default_config 0 Spec.spread_market Spec.spread_history
      = Ok events /\
    exists e,
      In e events /\ spike_type e = SPREAD_COMPRESSION /\
      (0 < average_value e)%R /\ (0 < current_value e)%R /\
      exists lines, format_message e = Ok lines.
Proof.
  destruct (spread_events_format default_config 0%Z Spec.spread_market
              Spec.spread_history) as [events [Hrun Hall]].
  exists events. split; [exact Hrun |].
  destruct spread_example_event as [events' [e [Hrun' [Hin Htype]]]].
  rewrite Hrun in Hrun'. injection Hrun' as <-.
  exists e. split; [exact Hin |]. split; [exact Htype |].
  destruct (Hall e Hin Htype) as [Havg [Hcur [lines [Hfmt _]]]].
  split; [exact Havg |]. split; [exact Hcur |]. exists lines. exact Hfmt.
Defined.

End DetectSpikes.

(** ** detector.py: the order of the history *)

Section HistoryOrder.
Import Detector.

(** The history with the lower price first: the price check compares with
    130 cents and returns an event. *)
Lemma detect_spikes_tie_low_first :
  exists ev,
    detect_spikes default_config Spec.price_now Spec.price_market
      [Spec.tie_low; Spec.tie_high] = Ok [ev].
Proof.
  destruct (_detect_price_spike_cases default_config Spec.price_now
              Spec.price_market [Spec.tie_low; Spec.tie_high]
              150%R 130%R Spec.tie_low eq_refl eq_refl eq_refl)
    as [ev [_ [_ [_ [_ [_ Hprice]]]]]].
  exists ev. unfold detect_spikes. simpl length. cbv iota.
  change (sorted_newest_first [Spec.tie_low; Spec.tie_high])
    with [Spec.tie_low; Spec.tie_high].
  rewrite _detect_volume_spike_short by (simpl; lia).
  rewrite Hprice.
  destruct (Rle_dec _ _) as [_ | Hn].
  - reflexivity.
  - exfalso. apply Hn. simpl. rewrite Rabs_pos_eq; lra.
Qed.

(** The same two snapshots with the higher price first: the price check
    compares with 150 cents and returns nothing. *)
Lemma detect_spikes_tie_high_first :
  detect_spikes default_config Spec.price_now Spec.price_market
    [Spec.tie_high; Spec.tie_low] = Ok [].
Proof.
  destruct (_detect_price_spike_cases default_config Spec.price_now
              Spec.price_market [Spec.tie_high; Spec.tie_low]
              150%R 150%R Spec.tie_high eq_refl eq_refl eq_refl)
    as [ev [_ [_ [_ [_ [_ Hprice]]]]]].
  unfold detect_spikes. simpl length. cbv iota.
  change (sorted_newest_first [Spec.tie_high; Spec.tie_low])
    with [Spec.tie_high; Spec.tie_low].
  rewrite _detect_volume_spike_short by (simpl; lia).
  rewrite Hprice.
  destruct (Rle_dec _ _) as [Hfire | _].
  - exfalso. simpl in Hfire.
    replace (150 / 100 - 150 / 100)%R with 0%R in Hfire by lra.
    rewrite Rabs_R0 in Hfire. lra.
  - reflexivity.
Qed.

(** C5 as stated fails: two snapshots taken at the same instant are newest
    first in either order, and the detector, whose sort is stable, returns a
    Price event for one order and nothing for the other. *)
Lemma detect_spikes_order_of_ties :
  Permutation [Spec.tie_low; Spec.tie_high] [Spec.tie_high; Spec.tie_low] /\
  Spec.newest_first [Spec.tie_low; Spec.tie_high] /\
  Spec.newest_first [Spec.tie_high; Spec.tie_low] /\
  detect_spikes default_config Spec.price_now Spec.price_market
    [Spec.tie_low; Spec.tie_high] <>
  detect_spikes default_config Spec.price_now Spec.price_market
    [Spec.tie_high; Spec.tie_low].
Proof.
  split; [apply perm_swap |].
  split; [repeat constructor; simpl; lia |].
  split; [repeat constructor; simpl; lia |].
  destruct detect_spikes_tie_low_first as [ev Hlow].
  rewrite Hlow, detect_spikes_tie_high_first. discriminate.
Qed.

(** C5, amended.  The detector's output on a history is its output on the
    same history sorted newest first by the detector's own sort; and for
    every history whose timestamps are pairwise distinct, the output is the
    same for every permutation of the history, in particular for the one
    that is sorted newest first. *)
Theorem detect_spikes_order_independent :
  (forall config utcnow market history,
      detect_spikes config utcnow market history =
      detect_spikes config utcnow market (sorted_newest_first history)) /\
  (forall config utcnow market h1 h2,
      NoDup (map Database.timestamp h1) ->
      Permutation h1 h2 ->
      detect_spikes config utcnow market h1 =
      detect_spikes config utcnow market h2) /\
  (forall config utcnow market history presorted,
      NoDup (map Database.timestamp history) ->
      Permutation presorted history ->
      Spec.newest_first presorted ->
      detect_spikes config utcnow market history =
      detect_spikes config utcnow market presorted /\
      sorted_newest_first history = presorted).
Proof.
  assert (Hperm : forall config utcnow market h1 h2,
             NoDup (map Database.timestamp h1) ->
             Permutation h1 h2 ->
             detect_spikes config utcnow market h1 =
             detect_spikes config utcnow market h2).
  { intros config utcnow market h1 h2 Hnd Hp. unfold detect_spikes.
    rewrite (Permutation_length Hp), (sorted_newest_first_unique h1 h2 Hnd Hp).
    reflexivity. }
  split; [| split].
  - intros config utcnow market history. unfold detect_spikes.
    unfold sorted_newest_first at 4. rewrite stable_sort_length.
    fold (sorted_newest_first history).
    rewrite (sorted_newest_first_of_sorted (sorted_newest_first history))
      by apply sorted_newest_first_sorted.
    reflexivity.
  - exact Hperm.
  - intros config utcnow market history presorted Hnd Hp Hsorted.
    split; [apply Hperm; [exact Hnd | now apply Permutation_sym] |].
    rewrite (sorted_newest_first_unique history presorted Hnd
               (Permutation_sym Hp)).
    now apply sorted_newest_first_of_sorted.
Qed.

(** [detect_spikes_order_independent] on the price example and its
    reversal. *)
Lemma detect_spikes_order_independent_witness :
  detect_spikes default_config Spec.price_now Spec.price_market
    Spec.price_history =
  detect_spikes default_config Spec.price_now Spec.price_market
    (rev Spec.price_history).
Proof.
  apply (proj1 (proj2 detect_spikes_order_independent)).
  - simpl. repeat constructor; simpl; intuition discriminate.
  - apply perm_swap.
Defined.

End HistoryOrder.

(** ** detector.py: the volume check on the example of the specification *)

Section VolumeExample.
Import Detector.

(** The statistics of every history whose volumes are 1000, 950, 920 and
    850, newest first. *)
Lemma volume_example_statistics (history : list Database.MarketSnapshot) :
  map Database.volume history = [1000; 950; 920; 850]%Z ->
  Spec.successive_deltas history = [50; 30; 70]%Z /\
  Spec.surviving_deltas history = [50; 30; 70]%R /\
  Spec.sample_mean (Spec.surviving_deltas history) = 50%R /\
  Spec.sample_stdev (Spec.surviving_deltas history) = 20%R.
Proof.
  intros Hvol.
  destruct history as [| a [| b [| c [| d [| ? ?]]]]]; try discriminate Hvol.
  injection Hvol as Ha Hb Hc Hd.
  assert (Hdeltas : Spec.successive_deltas [a; b; c; d] = [50; 30; 70]%Z).
  { rewrite !successive_deltas_cons, Ha, Hb, Hc, Hd. reflexivity. }
  assert (Hsurv : Spec.surviving_deltas [a; b; c; d] = [50; 30; 70]%R).
  { unfold Spec.surviving_deltas. rewrite Hdeltas. reflexivity. }
  assert (Hmean : Spec.sample_mean [50; 30; 70]%R = 50%R).
  { unfold Spec.sample_mean. simpl. lra. }
  split; [exact Hdeltas |]. split; [exact Hsurv |].
  rewrite Hsurv. split; [exact Hmean |].
  unfold Spec.sample_stdev. rewrite Hmean. simpl.
  apply sqrt_lem_1; lra.
Qed.

(** What the volume check returns there, at the threshold 2 and the current
    volume 1200. *)
Lemma volume_example_event (config : Config) (utcnow : Z) (market : Market)
    (history : list Database.MarketSnapshot) :
  volume_std_threshold config = 2%R ->
  volume market = 1200%Z ->
  map Database.volume history = [1000; 950; 920; 850]%Z ->
  exists e,
    _detect_volume_spike config utcnow market history = Ok (Some e) /\
    spike_type e = VOLUME /\
    current_value e = 1200%R /\
    previous_value e = 1000%R /\
    average_value e = 50%R /\
    extra_info e = [("z_score"%string, EFloat (15 / 2));
                    ("std_rate"%string, EFloat 20)].
Proof.
  intros Hthr Hmarket Hvol.
  destruct (volume_example_statistics history Hvol)
    as [_ [Hsurv [Hmean Hstd]]].
  destruct history as [| newest rest]; [discriminate Hvol |].
  assert (Hnewest : Database.volume newest = 1000%Z)
    by (injection Hvol as Hn _; exact Hn).
  assert (Hlen : (3 <= length (newest :: rest))%nat).
  { apply (f_equal (@length Z)) in Hvol. rewrite length_map in Hvol.
    rewrite Hvol. simpl. lia. }
  destruct (_detect_volume_spike_cases config utcnow market newest rest Hlen)
    as [ev [Htype [Hcur [Hprev [Havg [Hextra Hrun]]]]]].
  rewrite Hmean, Hstd, Hmarket, Hnewest in *.
  rewrite Hsurv in Hrun. simpl length in Hrun.
  change (3 <? 2)%nat with false in Hrun.
  change (1200 - 1000 <=? 0)%Z with false in Hrun. cbv iota in Hrun.
  change (1200 - 1000)%Z with 200%Z in Hrun, Hextra.
  assert (Hz : ((200 - 50) / 20 = 15 / 2)%R) by lra.
  rewrite Hz in Hrun, Hextra. rewrite Hthr in Hrun.
  destruct (Rlt_dec 0 20) as [_ | Hn] in Hrun; [| exfalso; lra].
  destruct (Rle_dec 2 (15 / 2)) as [_ | Hn] in Hrun; [| exfalso; lra].
  exists ev. repeat (split; [assumption |]). exact Hextra.
Qed.

(** C2 as stated fails: on the example the code computes a standard
    deviation of 20 and a z-score of 7.5, which are not 20.82 and 7.20 to
    two decimal places (nor to one). *)
Lemma volume_example_stdev_is_20 :
  exists e,
    _detect_volume_spike default_config 0 Spec.example_market
      Spec.example_history = Ok (Some e) /\
    extra_info e = [("z_score"%string, EFloat (15 / 2));
                    ("std_rate"%string, EFloat 20)] /\
    Stats.stdev (Spec.surviving_deltas Spec.example_history) = Ok 20%R /\
    ~ (Rabs (20 - 2082 / 100) <= 5 / 100)%R /\
    ~ (Rabs (15 / 2 - 720 / 100) <= 5 / 100)%R.
Proof.
  destruct (volume_example_event default_config 0%Z Spec.example_market
              Spec.example_history eq_refl eq_refl eq_refl)
    as [e [Hrun [_ [_ [_ [_ Hextra]]]]]].
  destruct (volume_example_statistics Spec.example_history eq_refl)
    as [_ [Hsurv [_ Hstd]]].
  exists e. split; [exact Hrun |]. split; [exact Hextra |].
  split; [| split].
  - rewrite stdev_ok by (rewrite Hsurv; simpl; lia). now rewrite Hstd.
  - rewrite Rabs_left by lra. lra.
  - rewrite Rabs_pos_eq by lra. lra.
Qed.

(** C2, amended.  For every history whose volumes are 1000, 950, 920 and
    850, newest first, a current volume of 1200 and the threshold 2, the
    volume check computes the deltas 50, 30 and 70, the mean 50, the sample
    standard deviation 20, the current rate 200 and the z-score 7.5, and
    returns a Volume event whose average value is 50; [detect_spikes], on
    such a history in newest-first order, returns that event and no other
    Volume event. *)
Theorem volume_spike_example (config : Config) (utcnow : Z) (market : Market)
    (history : list Database.MarketSnapshot) :
  volume_std_threshold config = 2%R ->
  volume market = 1200%Z ->
  map Database.volume history = [1000; 950; 920; 850]%Z ->
  Spec.successive_deltas history = [50; 30; 70]%Z /\
  rates_of_change history = [50; 30; 70]%Z /\
  Spec.sample_mean (Spec.surviving_deltas history) = 50%R /\
  Spec.sample_stdev (Spec.surviving_deltas history) = 20%R /\
  (exists newest rest,
      history = newest :: rest /\
      (volume market - Database.volume newest = 200)%Z) /\
  exists e,
    _detect_volume_spike config utcnow market history = Ok (Some e) /\
    spike_type e = VOLUME /\
    average_value e = 50%R /\
    extra_info e = [("z_score"%string, EFloat (15 / 2));
                    ("std_rate"%string, EFloat 20)] /\
    (Spec.newest_first history ->
     exists events,
       detect_spikes config utcnow market history = Ok events /\
       filter Spec.is_volume events = [e]).
Proof.
  intros Hthr Hmarket Hvol.
  destruct (volume_example_statistics history Hvol)
    as [Hdeltas [_ [Hmean Hstd]]].
  destruct (volume_example_event config utcnow market history Hthr Hmarket Hvol)
    as [e [Hrun [Htype [_ [_ [Havg Hextra]]]]]].
  split; [exact Hdeltas |].
  split; [rewrite rates_of_change_deltas, Hdeltas; reflexivity |].
  split; [exact Hmean |]. split; [exact Hstd |]. split.
  { destruct history as [| newest rest]; [discriminate Hvol |].
    exists newest, rest. split; [reflexivity |].
    injection Hvol as Hn _. rewrite Hmarket, Hn. reflexivity. }
  exists e. repeat (split; [assumption |]).
  intros Hsorted.
  destruct (detect_spikes_checks config utcnow market history)
    as [v [p [s [Hv [_ [_ [Hpt [_ [Hst Hdetect]]]]]]]]].
  { apply (f_equal (@length Z)) in Hvol. rewrite length_map in Hvol.
    rewrite Hvol. simpl. lia. }
  rewrite (sorted_newest_first_of_sorted history Hsorted), Hrun in Hv.
  injection Hv as <-.
  eexists. split; [exact Hdetect |].
  unfold Spec.is_volume.
  destruct p as [pe |], s as [se |]; simpl;
    rewrite ?Htype, ?(Hpt pe eq_refl), ?(proj1 (Hst se eq_refl)); reflexivity.
Qed.

(** [volume_spike_example] on the example history at the default
    configuration. *)
Lemma volume_spike_example_witness :
  exists e,
    _detect_volume_spike default_config 0 Spec.example_market
      Spec.example_history = Ok (Some e) /\
    average_value e = 50%R /\
    exists events,
      detect_spikes default_config 0 Spec.example_market Spec.example_history
        = Ok events /\
      filter Spec.is_volume events = [e].
Proof.
  destruct (volume_spike_example default_config 0%Z Spec.example_market
              Spec.example_history eq_refl eq_refl eq_refl)
    as [_ [_ [_ [_ [_ [e [Hrun [_ [Havg [_ Hdetect]]]]]]]]]].
  exists e. split; [exact Hrun |]. split; [exact Havg |].
  apply Hdetect. unfold Spec.newest_first, Spec.example_history.
  repeat constructor; simpl; lia.
Defined.

End VolumeExample.

(** ** database.py: [prune_old_data] *)

Section ListFacts.
Context {A : Type}.

Lemma filter_swap (f g : A -> bool) (l : list A) :
  filter f (filter g l) = filter g (filter f l).
Proof.
  induction l as [| x l IH]; [reflexivity |]. simpl.
  destruct (f x) eqn:Hf, (g x) eqn:Hg; simpl; rewrite ?Hf, ?Hg, IH; reflexivity.
Qed.

Lemma filter_absorb (f g : A -> bool) (l : list A) :
  (forall a, In a l -> f a = true -> g a = true) ->
  filter f (filter g l) = filter f l.
Proof.
  induction l as [| x l IH]; intros Himpl; [reflexivity |]. simpl.
  assert (IH' : filter f (filter g l) = filter f l)
    by (apply IH; intros a Ha; apply Himpl; now right).
  destruct (g x) eqn:Hg; simpl.
  - now rewrite IH'.
  - destruct (f x) eqn:Hf; [| exact IH'].
    rewrite (Himpl x (or_introl eq_refl) Hf) in Hg. discriminate Hg.
Qed.

Lemma filter_all (f : A -> bool) (l : list A) :
  (forall a, In a l -> f a = true) -> filter f l = l.
Proof.
  induction l as [| x l IH]; intros Hall; [reflexivity |]. simpl.
  rewrite (Hall x (or_introl eq_refl)), IH; [reflexivity |].
  intros a Ha. apply Hall. now right.
Qed.

Lemma filter_none (f : A -> bool) (l : list A) :
  (forall a, In a l -> f a = false) -> filter f l = [].
Proof.
  induction l as [| x l IH]; intros Hnone; [reflexivity |]. simpl.
  rewrite (Hnone x (or_introl eq_refl)). apply IH.
  intros a Ha. apply Hnone. now right.
Qed.

Lemma filter_perm (f : A -> bool) (l1 l2 : list A) :
  Permutation l1 l2 -> Permutation (filter f l1) (filter f l2).
Proof.
  induction 1 as [| x l1 l2 _ IH | x y l | l1 l2 l3 _ IH1 _ IH2]; simpl.
  - reflexivity.
  - destruct (f x); [now constructor | exact IH].
  - destruct (f x), (f y); try reflexivity. apply perm_swap.
  - now transitivity (filter f l2).
Qed.

Lemma filter_partition_length (f : A -> bool) (l : list A) :
  (length (filter f l) + length (filter (fun a => negb (f a)) l))%nat = length l.
Proof.
  induction l as [| x l IH]; [reflexivity |]. simpl.
  destruct (f x); simpl; lia.
Qed.

Lemma NoDup_map_filter {B : Type} (k : A -> B) (f : A -> bool) (l : list A) :
  NoDup (map k l) -> NoDup (map k (filter f l)).
Proof.
  induction l as [| x l IH]; intros Hnd; [constructor |]. simpl in *.
  inversion Hnd as [| ? ? Hnotin Hnd']; subst.
  destruct (f x); [| now apply IH].
  simpl. constructor; [| now apply IH].
  intros Hin. apply Hnotin. apply in_map_iff in Hin.
  destruct Hin as [y [Hy Hin]]. apply filter_In in Hin.
  apply in_map_iff. exists y. tauto.
Qed.

(** In a sorted list every element of a prefix is related to every element
    of the rest. *)
Lemma StronglySorted_app_cross (R : A -> A -> Prop) (l1 l2 : list A) :
  StronglySorted R (l1 ++ l2) ->
  forall a b, In a l1 -> In b l2 -> R a b.
Proof.
  induction l1 as [| x l1 IH]; intros Hs a b Ha Hb; [destruct Ha |].
  simpl in Hs. inversion Hs as [| ? ? Hs' Hx]; subst.
  destruct Ha as [<- | Ha].
  - rewrite Forall_forall in Hx. apply Hx, in_or_app. now right.
  - now apply IH.
Qed.

End ListFacts.

Section Pruning.
Import Database.

(** Membership of a row's id in a list of ids. *)
Lemma existsb_id (r : row) (ids : list Z) :
  existsb (Z.eqb (id r)) ids = true <-> In (id r) ids.
Proof.
  rewrite existsb_exists. split.
  - intros [x [Hx Heq]]. apply Z.eqb_eq in Heq. now subst.
  - intros Hin. exists (id r). split; [exact Hin | apply Z.eqb_refl].
Qed.

(** In rows with unique ids, the ids of a prefix select the prefix. *)
Lemma prefix_ids_split (l1 l2 : list row) :
  NoDup (map id (l1 ++ l2)) ->
  (forall r, In r l1 -> existsb (Z.eqb (id r)) (map id l1) = true) /\
  (forall r, In r l2 -> existsb (Z.eqb (id r)) (map id l1) = false).
Proof.
  intros Hnd. split.
  - intros r Hr. apply existsb_id. now apply in_map.
  - intros r Hr.
    destruct (existsb (Z.eqb (id r)) (map id l1)) eqn:Hex; [| reflexivity].
    exfalso. apply existsb_id in Hex. rewrite map_app in Hnd.
    revert Hex. clear -Hnd Hr.
    induction l1 as [| y l1 IH]; simpl in *; [tauto |].
    inversion Hnd as [| ? ? Hnotin Hnd']; subst.
    intros [Hy | Hin]; [| now apply IH].
    apply Hnotin. rewrite Hy. apply in_or_app. right. now apply in_map.
Qed.

Lemma delete_prefix_ids (l1 l2 : list row) :
  NoDup (map id (l1 ++ l2)) ->
  delete_where_id_in (map id l1) (l1 ++ l2) = l2.
Proof.
  intros Hnd. destruct (prefix_ids_split l1 l2 Hnd) as [Hin Hout].
  unfold delete_where_id_in. rewrite filter_app.
  rewrite filter_none, filter_all; [reflexivity | |].
  - intros r Hr. now rewrite (Hout r Hr).
  - intros r Hr. now rewrite (Hin r Hr).
Qed.

Lemma select_prefix_ids (l1 l2 : list row) :
  NoDup (map id (l1 ++ l2)) ->
  filter (fun r => existsb (Z.eqb (id r)) (map id l1)) (l1 ++ l2) = l1.
Proof.
  intros Hnd. destruct (prefix_ids_split l1 l2 Hnd) as [Hin Hout].
  rewrite filter_app, filter_all, filter_none by assumption.
  apply app_nil_r.
Qed.

Lemma where_ticker_in (t : string) (tbl : list row) (r : row) :
  In r (where_ticker t tbl) <-> In r tbl /\ row_ticker r = t.
Proof.
  unfold where_ticker. rewrite filter_In.
  now rewrite String.eqb_eq.
Qed.

Lemma order_by_timestamp_asc_perm (rows : list row) :
  Permutation (order_by_timestamp_asc rows) rows.
Proof. apply stable_sort_perm. Qed.

Lemma order_by_timestamp_asc_sorted (rows : list row) :
  StronglySorted (fun a b => (row_timestamp a <= row_timestamp b)%Z)
    (order_by_timestamp_asc rows).
Proof.
  eapply StronglySorted_weaken;
    [| apply (stable_sort_sorted
                (fun y x => (row_timestamp y <? row_timestamp x)%Z))].
  - intros a b Hab. simpl in Hab. apply Z.ltb_ge in Hab. lia.
  - intros a b Hab. apply Z.ltb_lt in Hab. apply Z.ltb_ge. lia.
  - intros a b c Hab Hbc. apply Z.ltb_ge in Hab, Hbc. apply Z.ltb_ge. lia.
Qed.

Lemma rows_of_ticker_unique_ids (t : string) (tbl : list row) :
  NoDup (map id tbl) ->
  NoDup (map id (order_by_timestamp_asc (where_ticker t tbl))).
Proof.
  intros Hnd.
  eapply Permutation_NoDup;
    [apply Permutation_map, Permutation_sym, order_by_timestamp_asc_perm |].
  now apply NoDup_map_filter.
Qed.

Lemma oldest_newest_rows (t : string) (n : nat) (tbl : list row) :
  Spec.oldest_rows t n tbl ++ Spec.newest_rows t n tbl =
  order_by_timestamp_asc (where_ticker t tbl).
Proof. apply firstn_skipn. Qed.

Lemma oldest_rows_in (t : string) (n : nat) (tbl : list row) (r : row) :
  In r (Spec.oldest_rows t n tbl) -> In r tbl /\ row_ticker r = t.
Proof.
  intros Hin. apply where_ticker_in.
  apply (Permutation_in _ (order_by_timestamp_asc_perm _)).
  rewrite <- (oldest_newest_rows t n tbl). apply in_or_app. now left.
Qed.

(** One [DELETE]: the rows of the other tickers stay, the rows of the ticker
    that stay are its newest ones, and the table shrinks by the number of
    rows selected. *)
Lemma delete_oldest (t : string) (n : nat) (tbl : list row) :
  NoDup (map id tbl) ->
  let tbl' := delete_where_id_in (map id (Spec.oldest_rows t n tbl)) tbl in
  NoDup (map id tbl') /\
  (forall t', t' <> t -> where_ticker t' tbl' = where_ticker t' tbl) /\
  Permutation (where_ticker t tbl') (Spec.newest_rows t n tbl) /\
  (length tbl' + length (Spec.oldest_rows t n tbl))%nat = length tbl.
Proof.
  intros Hnd tbl'.
  pose proof (rows_of_ticker_unique_ids t tbl Hnd) as Hsorted.
  rewrite <- (oldest_newest_rows t n tbl) in Hsorted.
  assert (Hids : forall r, In r tbl ->
            existsb (Z.eqb (id r)) (map id (Spec.oldest_rows t n tbl)) = true ->
            row_ticker r = t).
  { intros r Hr Hex. apply existsb_id, in_map_iff in Hex.
    destruct Hex as [r2 [Heq Hr2]].
    destruct (oldest_rows_in t n tbl r2 Hr2) as [Hin2 Ht2].
    now rewrite (NoDup_map_injective id tbl r r2 Hnd Hr Hin2 (eq_sym Heq)). }
  split; [now apply NoDup_map_filter |]. split; [| split].
  - intros t' Hne. unfold tbl', delete_where_id_in, where_ticker.
    apply filter_absorb. intros r Hr Ht'. apply String.eqb_eq in Ht'.
    apply negb_true_iff.
    destruct (existsb _ _) eqn:Hex; [| reflexivity].
    exfalso. apply Hne. rewrite <- Ht'. now apply Hids.
  - assert (Hswap : where_ticker t tbl' =
                    delete_where_id_in (map id (Spec.oldest_rows t n tbl))
                      (where_ticker t tbl))
      by apply filter_swap.
    rewrite Hswap.
    transitivity (delete_where_id_in (map id (Spec.oldest_rows t n tbl))
                    (Spec.oldest_rows t n tbl ++ Spec.newest_rows t n tbl)).
    + apply filter_perm. rewrite oldest_newest_rows.
      apply Permutation_sym, order_by_timestamp_asc_perm.
    + now rewrite (delete_prefix_ids _ _ Hsorted).
  - unfold tbl', delete_where_id_in.
    rewrite <- (filter_partition_length
                  (fun r => existsb (Z.eqb (id r))
                              (map id (Spec.oldest_rows t n tbl))) tbl).
    rewrite Nat.add_comm. f_equal.
    rewrite <- (filter_absorb _ (fun r => String.eqb (row_ticker r) t))
      by (intros r Hr Hex; apply String.eqb_eq; now apply Hids).
    fold (where_ticker t tbl).
    symmetry.
    transitivity
      (length (filter (fun r => existsb (Z.eqb (id r))
                                  (map id (Spec.oldest_rows t n tbl)))
                 (Spec.oldest_rows t n tbl ++ Spec.newest_rows t n tbl))).
    + apply Permutation_length, filter_perm. rewrite oldest_newest_rows.
      apply Permutation_sym, order_by_timestamp_asc_perm.
    + now rewrite (select_prefix_ids _ _ Hsorted).
Qed.

End Pruning.

(** *** The loop of [prune_old_data] *)

Section PruneOldData.
Import Database.

Lemma newest_rows_ext (t : string) (n : nat) (tbl1 tbl2 : list row) :
  where_ticker t tbl1 = where_ticker t tbl2 ->
  Spec.newest_rows t n tbl1 = Spec.newest_rows t n tbl2.
Proof. unfold Spec.newest_rows. now intros ->. Qed.

Lemma count_rows_ext (t : string) (tbl1 tbl2 : list row) :
  where_ticker t tbl1 = where_ticker t tbl2 ->
  count_rows t tbl1 = count_rows t tbl2.
Proof. unfold count_rows. now intros ->. Qed.

(** One pass through the loop body, for a ticker that has more rows than
    the cap. *)
Lemma prune_step_delete (cap : Z) (tbl : list row) (total : Z)
    (t : string) (c : Z) :
  (cap < c)%Z ->
  prune_step cap (tbl, total) (t, c) =
    (delete_where_id_in
       (map id (Spec.oldest_rows t (Z.to_nat (c - cap)) tbl)) tbl,
     (total + (c - cap))%Z).
Proof.
  intros Hlt. unfold prune_step, select_oldest_ids, limit. simpl.
  destruct (Z.ltb_spec (c - cap) 0); [lia | reflexivity].
Qed.

(** The loop of [prune_old_data], on tickers that each have more rows than
    the cap, with the counts taken before the loop. *)
Lemma prune_loop (cap : Z) (todo : list (string * Z)) :
  (0 <= cap)%Z ->
  NoDup (map fst todo) ->
  forall (tbl : list row) (total : Z),
  NoDup (map id tbl) ->
  (forall t c, In (t, c) todo -> c = count_rows t tbl /\ (cap < c)%Z) ->
  let result := fold_left (prune_step cap) todo (tbl, total) in
  NoDup (map id (fst result)) /\
  (forall t, ~ In t (map fst todo) ->
             where_ticker t (fst result) = where_ticker t tbl) /\
  (forall t c, In (t, c) todo ->
               Permutation (where_ticker t (fst result))
                 (Spec.newest_rows t (Z.to_nat (c - cap)) tbl)) /\
  (Z.of_nat (length (fst result)) + (snd result - total))%Z
    = Z.of_nat (length tbl).
Proof.
  intros Hcap. induction todo as [| [t c] rest IH];
    intros Htickers tbl total Hnd Hcounts; simpl.
  - split; [exact Hnd |]. split; [reflexivity |].
    split; [intros t c [] | lia].
  - destruct (Hcounts t c (or_introl eq_refl)) as [Hc Hlt].
    rewrite (prune_step_delete cap tbl total t c Hlt).
    set (n := Z.to_nat (c - cap)).
    destruct (delete_oldest t n tbl Hnd) as [Hnd1 [Hothers [Hkept Hlen]]].
    set (tbl1 := delete_where_id_in (map id (Spec.oldest_rows t n tbl)) tbl)
      in *.
    simpl in Htickers. apply NoDup_cons_iff in Htickers.
    destruct Htickers as [Hfresh Hrest].
    assert (Hne : forall t2 c2, In (t2, c2) rest -> t2 <> t).
    { intros t2 c2 Hin ->. apply Hfresh.
      change t with (fst (t, c2)). now apply in_map. }
    destruct (IH Hrest tbl1 (total + (c - cap))%Z Hnd1)
      as [Hnd2 [Huntouched [Hpruned Htotal]]].
    { intros t2 c2 Hin.
      destruct (Hcounts t2 c2 (or_intror Hin)) as [Hc2 Hlt2].
      split; [| exact Hlt2].
      rewrite Hc2. symmetry. apply count_rows_ext, Hothers.
      exact (Hne t2 c2 Hin). }
    split; [exact Hnd2 |]. split; [| split].
    + intros t' Hnotin. rewrite Huntouched by tauto.
      apply Hothers. intros ->. apply Hnotin. now left.
    + intros t' c' [[= <- <-] | Hin].
      * rewrite (Huntouched t Hfresh). exact Hkept.
      * rewrite (Hpruned t' c' Hin).
        rewrite (newest_rows_ext t' _ tbl1 tbl); [reflexivity |].
        apply Hothers. exact (Hne t' c' Hin).
    + assert (Hold : length (Spec.oldest_rows t n tbl) = n).
      { unfold Spec.oldest_rows. apply firstn_length_le.
        rewrite (Permutation_length (order_by_timestamp_asc_perm _)).
        unfold count_rows in Hc. lia. }
      lia.
Qed.

Lemma map_fst_filter_graph {K V : Type} (f : K -> V) (P : K * V -> bool)
    (l : list K) :
  map fst (filter P (map (fun k => (k, f k)) l)) =
  filter (fun k => P (k, f k)) l.
Proof.
  induction l as [| k l IH]; [reflexivity |]. simpl.
  destruct (P (k, f k)); simpl; now rewrite IH.
Qed.

(** The tickers selected by [GROUP BY ... HAVING cnt > ?]: each once, with
    its count, and exactly those whose count exceeds the cap. *)
Lemma tickers_to_prune_spec (cap : Z) (tbl : list row) :
  (0 <= cap)%Z ->
  NoDup (map fst (tickers_to_prune cap tbl)) /\
  (forall t c, In (t, c) (tickers_to_prune cap tbl) <->
               c = count_rows t tbl /\ (cap < c)%Z).
Proof.
  intros Hcap. unfold tickers_to_prune, group_by_ticker_count. split.
  - rewrite map_fst_filter_graph. apply NoDup_filter, NoDup_nodup.
  - intros t c. rewrite filter_In, in_map_iff. simpl. split.
    + intros [[t' [[= -> <-] _]] Hlt]. split; [reflexivity |].
      now apply Z.ltb_lt.
    + intros [-> Hlt]. split; [| now apply Z.ltb_lt].
      exists t. split; [reflexivity |]. apply nodup_In.
      unfold count_rows in Hlt.
      destruct (where_ticker t tbl) as [| r rows] eqn:Hrows;
        [simpl in Hlt; lia |].
      assert (Hr : In r (where_ticker t tbl)) by (rewrite Hrows; now left).
      apply where_ticker_in in Hr. destruct Hr as [Hr <-].
      now apply in_map.
Qed.

(** C6.  For every table whose rows have distinct keys and every cap that
    is not negative, after [prune_old_data] every ticker has at most [cap]
    rows; a ticker that had more has exactly [cap], the rows that went are as
    many as it had above the cap and none of them is newer than a row that
    stayed; a ticker that had at most [cap] rows keeps them all; and the
    returned number is the number of rows deleted. *)
Theorem prune_old_data_keeps_newest (cap : Z) (tbl : list row) :
  (0 <= cap)%Z ->
  NoDup (map id tbl) ->
  let tbl' := fst (prune_old_data cap tbl) in
  let deleted := snd (prune_old_data cap tbl) in
  (forall t, (count_rows t tbl' <= cap)%Z) /\
  (forall t, (cap < count_rows t tbl)%Z ->
     count_rows t tbl' = cap /\
     exists gone,
       Permutation (where_ticker t tbl) (gone ++ where_ticker t tbl') /\
       Z.of_nat (length gone) = (count_rows t tbl - cap)%Z /\
       (forall d k, In d gone -> In k (where_ticker t tbl') ->
                    (row_timestamp d <= row_timestamp k)%Z) /\
       (forall d, In d gone -> ~ In d tbl')) /\
  (forall t, (count_rows t tbl <= cap)%Z ->
             where_ticker t tbl' = where_ticker t tbl) /\
  deleted = (Z.of_nat (length tbl) - Z.of_nat (length tbl'))%Z.
Proof.
  intros Hcap Hnd tbl' deleted.
  destruct (tickers_to_prune_spec cap tbl Hcap) as [Htickers Htodo].
  destruct (prune_loop cap (tickers_to_prune cap tbl) Hcap Htickers tbl 0%Z Hnd)
    as [Hnd' [Huntouched [Hpruned Htotal]]].
  { intros t c Hin. now apply Htodo. }
  fold (prune_old_data cap tbl) in Hnd', Huntouched, Hpruned, Htotal.
  fold tbl' in Hnd', Huntouched, Hpruned. fold tbl' deleted in Htotal.
  assert (Hsmall : forall t, (count_rows t tbl <= cap)%Z ->
                             where_ticker t tbl' = where_ticker t tbl).
  { intros t Hle. apply Huntouched. intros Hin.
    apply in_map_iff in Hin. destruct Hin as [[t' c] [Heq Hin]].
    simpl in Heq. subst t'. apply Htodo in Hin. lia. }
  assert (Hlarge : forall t, (cap < count_rows t tbl)%Z ->
            Permutation (where_ticker t tbl')
              (Spec.newest_rows t (Z.to_nat (count_rows t tbl - cap)) tbl)).
  { intros t Hlt. apply Hpruned, Htodo. now split. }
  assert (Hcount : forall t, (cap < count_rows t tbl)%Z ->
                             count_rows t tbl' = cap).
  { intros t Hlt. unfold count_rows at 1.
    rewrite (Permutation_length (Hlarge t Hlt)).
    unfold Spec.newest_rows. rewrite length_skipn.
    rewrite (Permutation_length (order_by_timestamp_asc_perm _)).
    unfold count_rows in *. lia. }
  split; [| split; [| split]].
  - intros t. destruct (Z.lt_ge_cases cap (count_rows t tbl)) as [Hlt | Hge].
    + rewrite (Hcount t Hlt). lia.
    + rewrite (count_rows_ext t tbl' tbl) by (apply Hsmall; lia). lia.
  - intros t Hlt. split; [now apply Hcount |].
    set (n := Z.to_nat (count_rows t tbl - cap)).
    pose proof (Hlarge t Hlt) as Hkept. fold n in Hkept.
    exists (Spec.oldest_rows t n tbl).
    pose proof (rows_of_ticker_unique_ids t tbl Hnd) as Hids.
    pose proof (order_by_timestamp_asc_sorted (where_ticker t tbl)) as Hsorted.
    rewrite <- (oldest_newest_rows t n tbl) in Hids, Hsorted.
    split; [| split; [| split]].
    + rewrite Hkept, oldest_newest_rows.
      apply Permutation_sym, order_by_timestamp_asc_perm.
    + unfold Spec.oldest_rows. rewrite firstn_length_le.
      * unfold n. lia.
      * rewrite (Permutation_length (order_by_timestamp_asc_perm _)).
        unfold n, count_rows in *. lia.
    + intros d k Hd Hk.
      apply (StronglySorted_app_cross _ _ _ Hsorted d k Hd).
      now apply (Permutation_in _ Hkept).
    + intros d Hd Hin.
      destruct (prefix_ids_split _ _ Hids) as [Hinside Houtside].
      assert (Hk : In d (Spec.newest_rows t n tbl)).
      { apply (Permutation_in _ Hkept). apply where_ticker_in.
        split; [exact Hin |]. now apply (oldest_rows_in t n tbl d). }
      specialize (Houtside d Hk). rewrite (Hinside d Hd) in Houtside.
      discriminate Houtside.
  - exact Hsmall.
  - lia.
Qed.

(** The example table pruned to two rows per ticker: the oldest row of the
    first ticker goes. *)
Lemma prune_old_data_example :
  prune_old_data 2 Spec.stored_rows =
    ([Spec.stored 1 "A" 30; Spec.stored 3 "A" 20; Spec.stored 4 "B" 5], 1%Z).
Proof. reflexivity. Qed.

(** [prune_old_data_keeps_newest] on the example table and the cap 2. *)
Lemma prune_old_data_keeps_newest_witness :
  let tbl' := fst (prune_old_data 2 Spec.stored_rows) in
  (forall t, (count_rows t tbl' <= 2)%Z) /\
  (forall t, (count_rows t Spec.stored_rows <= 2)%Z ->
             where_ticker t tbl' = where_ticker t Spec.stored_rows) /\
  snd (prune_old_data 2 Spec.stored_rows) =
    (Z.of_nat (length Spec.stored_rows) - Z.of_nat (length tbl'))%Z.
Proof.
  destruct (prune_old_data_keeps_newest 2 Spec.stored_rows)
    as [Hcap [_ [Hsmall Hdeleted]]].
  - lia.
  - unfold Spec.stored_rows. simpl.
    repeat constructor; simpl; intuition discriminate.
  - split; [exact Hcap |]. split; [exact Hsmall | exact Hdeleted].
Defined.

End PruneOldData.

(** * Further properties *)

(** ** database.py: [get_history] *)

Section GetHistory.
Import Database.

Lemma StronglySorted_firstn {A : Type} (R : A -> A -> Prop) (n : nat)
    (l : list A) :
  StronglySorted R l -> StronglySorted R (firstn n l).
Proof.
  intros Hs. revert n. induction Hs as [| x l Hl IH Hx]; intros n.
  - rewrite firstn_nil. constructor.
  - destruct n as [| n]; simpl; constructor; [apply IH |].
    rewrite Forall_forall in *. intros y Hy. apply Hx.
    rewrite <- (firstn_skipn n l). apply in_or_app. now left.
Qed.

Lemma StronglySorted_map {A B : Type} (f : A -> B) (R : B -> B -> Prop)
    (l : list A) :
  StronglySorted (fun a b => R (f a) (f b)) l -> StronglySorted R (map f l).
Proof.
  induction 1 as [| x l Hl IH Hx]; simpl; constructor; [exact IH |].
  rewrite Forall_forall in *. intros y Hy. apply in_map_iff in Hy.
  destruct Hy as [a [<- Ha]]. now apply Hx.
Qed.

Lemma limit_prefix {A : Type} (n : Z) (l : list A) :
  exists k, limit n l = firstn k l /\
            ((0 <= n)%Z -> k = Z.to_nat n) /\
            ((n < 0)%Z -> k = length l).
Proof.
  unfold limit. destruct (Z.ltb_spec n 0) as [Hneg | Hpos].
  - exists (length l). split; [now rewrite firstn_all |]. split; [lia | auto].
  - exists (Z.to_nat n). split; [reflexivity |]. split; [auto | lia].
Qed.

(** [ORDER BY timestamp DESC] *)
Lemma order_by_timestamp_desc_perm (rows : list row) :
  Permutation
    (stable_sort (fun y x => (row_timestamp x <? row_timestamp y)%Z) rows) rows.
Proof. apply stable_sort_perm. Qed.

Lemma order_by_timestamp_desc_sorted (rows : list row) :
  StronglySorted (fun a b => (row_timestamp b <= row_timestamp a)%Z)
    (stable_sort (fun y x => (row_timestamp x <? row_timestamp y)%Z) rows).
Proof.
  eapply StronglySorted_weaken;
    [| apply (stable_sort_sorted
                (fun y x => (row_timestamp x <? row_timestamp y)%Z))].
  - intros a b Hab. simpl in Hab. apply Z.ltb_ge in Hab. lia.
  - intros a b Hab. apply Z.ltb_lt in Hab. apply Z.ltb_ge. lia.
  - intros a b c Hab Hbc. apply Z.ltb_ge in Hab, Hbc. apply Z.ltb_ge. lia.
Qed.

(** The rows behind a history. *)
Lemma get_history_rows (t : string) (lim : Z) (tbl : list row) :
  exists k,
    get_history t lim tbl =
      map snap (firstn k (stable_sort
                            (fun y x => (row_timestamp x <? row_timestamp y)%Z)
                            (where_ticker t tbl))) /\
    ((0 <= lim)%Z -> k = Z.to_nat lim) /\
    ((lim < 0)%Z -> k = length (where_ticker t tbl)).
Proof.
  unfold get_history.
  destruct (limit_prefix lim
              (stable_sort (fun y x => (row_timestamp x <? row_timestamp y)%Z)
                 (where_ticker t tbl))) as [k [Hk [Hpos Hneg]]].
  exists k. rewrite Hk. split; [reflexivity |]. split; [exact Hpos |].
  intros Hlt. rewrite (Hneg Hlt). apply stable_sort_length.
Qed.

Lemma get_history_newest_first (t : string) (lim : Z) (tbl : list row) :
  Spec.newest_first (get_history t lim tbl).
Proof.
  destruct (get_history_rows t lim tbl) as [k [-> _]].
  unfold Spec.newest_first. apply StronglySorted_map, StronglySorted_firstn.
  apply order_by_timestamp_desc_sorted.
Qed.

(** X1.  [get_history] returns snapshots of the ticker asked for only,
    newest first; with a limit that is not negative it returns as many as the
    limit allows and the ticker has, with a negative limit all of them; and
    no stored row of the ticker whose snapshot is left out is newer than a
    snapshot returned. *)
Theorem get_history_newest_prefix (t : string) (lim : Z) (tbl : list row) :
  Spec.newest_first (get_history t lim tbl) /\
  Forall (fun s => ticker s = t) (get_history t lim tbl) /\
  ((0 <= lim)%Z ->
   length (get_history t lim tbl) =
     Nat.min (Z.to_nat lim) (length (where_ticker t tbl))) /\
  ((lim < 0)%Z ->
   length (get_history t lim tbl) = length (where_ticker t tbl)) /\
  (forall r s,
      In r (where_ticker t tbl) ->
      ~ In (snap r) (get_history t lim tbl) ->
      In s (get_history t lim tbl) ->
      (timestamp (snap r) <= timestamp s)%Z).
Proof.
  split; [apply get_history_newest_first |].
  destruct (get_history_rows t lim tbl) as [k [Hrows [Hpos Hneg]]].
  rewrite Hrows.
  set (sorted := stable_sort
                   (fun y x => (row_timestamp x <? row_timestamp y)%Z)
                   (where_ticker t tbl)) in *.
  assert (Hlen : length sorted = length (where_ticker t tbl))
    by apply stable_sort_length.
  split; [| split; [| split]].
  - apply Forall_forall. intros s Hs. apply in_map_iff in Hs.
    destruct Hs as [r [<- Hr]].
    assert (Hin : In r sorted).
    { rewrite <- (firstn_skipn k sorted). apply in_or_app. now left. }
    apply (Permutation_in _ (order_by_timestamp_desc_perm _)) in Hin.
    now apply where_ticker_in in Hin.
  - intros H0. rewrite length_map, length_firstn, Hlen, (Hpos H0). reflexivity.
  - intros Hlt. rewrite length_map, length_firstn, Hlen, (Hneg Hlt). lia.
  - intros r s Hr Hout Hs. apply in_map_iff in Hs.
    destruct Hs as [r' [<- Hr']].
    assert (Hrest : In r (skipn k sorted)).
    { apply (Permutation_in _ (Permutation_sym (order_by_timestamp_desc_perm _)))
        in Hr.
      fold sorted in Hr. rewrite <- (firstn_skipn k sorted) in Hr.
      apply in_app_or in Hr. destruct Hr as [Hr | Hr]; [| exact Hr].
      exfalso. apply Hout. now apply in_map. }
    pose proof (order_by_timestamp_desc_sorted (where_ticker t tbl)) as Hsorted.
    fold sorted in Hsorted. rewrite <- (firstn_skipn k sorted) in Hsorted.
    exact (StronglySorted_app_cross _ _ _ Hsorted r' r Hr' Hrest).
Qed.

(** X2.  The detector's own sort leaves a history read from the store as it
    is; on a stored history of two snapshots or more [detect_spikes] returns
    what its three checks return on exactly the list that [get_history]
    returned, in the order volume, price, spread. *)
Theorem detect_spikes_on_stored_history (config : Config) (utcnow : Z)
    (market : Detector.Market) (t : string) (lim : Z) (tbl : list row) :
  let history := get_history t lim tbl in
  Detector.sorted_newest_first history = history /\
  ((length history < 2)%nat ->
   Detector.detect_spikes config utcnow market history = Ok []) /\
  ((2 <= length history)%nat ->
   exists v p s,
     Detector._detect_volume_spike config utcnow market history = Ok v /\
     Detector._detect_price_spike config utcnow market history = Ok p /\
     Detector._detect_spread_compression config utcnow market history = Ok s /\
     Detector.detect_spikes config utcnow market history =
       Ok (Detector.append_if
             (Detector.append_if (Detector.append_if [] v) p) s)).
Proof.
  intros history.
  assert (Hsame : Detector.sorted_newest_first history = history)
    by apply sorted_newest_first_of_sorted, get_history_newest_first.
  split; [exact Hsame |]. split; [apply detect_spikes_short |].
  intros Hlen.
  destruct (detect_spikes_checks config utcnow market history Hlen)
    as [v [p [s [Hv [_ [Hp [_ [Hs [_ Hrun]]]]]]]]].
  rewrite Hsame in Hv, Hp, Hs. exists v, p, s. auto.
Qed.

(** [get_history_newest_prefix] on the example table, for the ticker with
    three rows and the limit 2. *)
Lemma get_history_newest_prefix_witness :
  length (get_history "A" 2 Spec.stored_rows) =
    Nat.min (Z.to_nat 2) (length (where_ticker "A" Spec.stored_rows)).
Proof.
  apply (proj1 (proj2 (proj2 (get_history_newest_prefix "A" 2 Spec.stored_rows)))).
  lia.
Defined.

(** [detect_spikes_on_stored_history] on the same history. *)
Lemma detect_spikes_on_stored_history_witness :
  exists events,
    Detector.detect_spikes default_config 0 Spec.example_market
      (get_history "A" 2 Spec.stored_rows) = Ok events.
Proof.
  destruct (proj2 (proj2 (detect_spikes_on_stored_history default_config 0%Z
                            Spec.example_market "A" 2 Spec.stored_rows)))
    as [v [p [s [_ [_ [_ Hrun]]]]]].
  - simpl. lia.
  - eexists. exact Hrun.
Defined.

End GetHistory.

(** ** database.py: saving snapshots *)

Section SaveSnapshots.
Import Database.

Lemma max_rowid_bound (rows : list row) (r : row) :
  In r rows -> (id r <= Store.max_rowid rows)%Z.
Proof.
  induction rows as [| x rows IH]; simpl; [intros [] |].
  intros [-> | Hin]; [lia |]. specialize (IH Hin). lia.
Qed.

Lemma NoDup_snoc {A : Type} (l : list A) (x : A) :
  NoDup l -> ~ In x l -> NoDup (l ++ [x]).
Proof.
  intros Hnd Hx. apply (Permutation_NoDup (Permutation_cons_append l x)).
  now constructor.
Qed.

(** One [INSERT]: the new row goes last, under a key above every key in the
    table and above the counter. *)
Lemma insert_snapshot_rows (d : Store.db) (s : MarketSnapshot) :
  exists new_id,
    Store.market_snapshots (Store.insert_snapshot d s) =
      Store.market_snapshots d ++ [{| id := new_id; snap := s |}] /\
    Store.sqlite_sequence (Store.insert_snapshot d s) = new_id /\
    (Store.sqlite_sequence d < new_id)%Z /\
    (forall r, In r (Store.market_snapshots d) -> (id r < new_id)%Z) /\
    Store.market_metadata (Store.insert_snapshot d s) = Store.market_metadata d.
Proof.
  eexists. split; [reflexivity |]. split; [reflexivity |].
  split; [lia |]. split; [| reflexivity].
  intros r Hr. pose proof (max_rowid_bound _ r Hr). lia.
Qed.

Lemma insert_snapshot_unique_ids (d : Store.db) (s : MarketSnapshot) :
  NoDup (map id (Store.market_snapshots d)) ->
  NoDup (map id (Store.market_snapshots (Store.insert_snapshot d s))).
Proof.
  intros Hnd.
  destruct (insert_snapshot_rows d s) as [new_id [-> [_ [_ [Hfresh _]]]]].
  rewrite map_app. simpl. apply NoDup_snoc; [exact Hnd |].
  intros Hin. apply in_map_iff in Hin. destruct Hin as [r [Hid Hr]].
  specialize (Hfresh r Hr). lia.
Qed.

(** The rows that a batch adds. *)
Lemma save_snapshots_batch_rows (snapshots : list MarketSnapshot)
    (d : Store.db) :
  exists new_rows,
    Store.market_snapshots (Store.save_snapshots_batch snapshots d) =
      Store.market_snapshots d ++ new_rows /\
    map snap new_rows = snapshots /\
    (forall r, In r new_rows ->
               (Store.sqlite_sequence d < id r)%Z /\
               (forall old, In old (Store.market_snapshots d) ->
                            (id old < id r)%Z)) /\
    (NoDup (map id (Store.market_snapshots d)) ->
     NoDup (map id (Store.market_snapshots
                      (Store.save_snapshots_batch snapshots d)))) /\
    Store.market_metadata (Store.save_snapshots_batch snapshots d) =
      Store.market_metadata d.
Proof.
  revert d. induction snapshots as [| s snapshots IH]; intros d.
  - exists []. simpl. rewrite app_nil_r.
    split; [reflexivity |]. split; [reflexivity |].
    split; [intros r0 [] |]. split; [auto | reflexivity].
  - destruct (insert_snapshot_rows d s)
      as [new_id [Hrows [Hseq [Hcounter [Hfresh Hmeta]]]]].
    destruct (IH (Store.insert_snapshot d s))
      as [new_rows [Hrows' [Hsnaps [Hkeys [Hnd Hmeta']]]]].
    exists ({| id := new_id; snap := s |} :: new_rows).
    change (Store.save_snapshots_batch (s :: snapshots) d)
      with (Store.save_snapshots_batch snapshots (Store.insert_snapshot d s)).
    split; [| split; [| split; [| split]]].
    + rewrite Hrows', Hrows, <- app_assoc. reflexivity.
    + simpl. now rewrite Hsnaps.
    + intros r [<- | Hr]; simpl.
      * split; [exact Hcounter | exact Hfresh].
      * destruct (Hkeys r Hr) as [Hc Hold]. rewrite Hseq in Hc.
        split; [lia |]. intros old Hin. apply Hold. rewrite Hrows.
        apply in_or_app. now left.
    + intros Hunique. apply Hnd. now apply insert_snapshot_unique_ids.
    + now rewrite Hmeta'.
Qed.

(** X3.  [save_snapshots_batch] appends one row per snapshot, in the order
    of the batch and with the snapshots as given, after the rows already
    stored, which it leaves as they are; the keys of the new rows are above
    every key stored before and above the counter, so that keys that were
    distinct stay distinct; the metadata table is not touched. *)
Theorem save_snapshots_batch_appends (snapshots : list MarketSnapshot)
    (d : Store.db) :
  exists new_rows,
    Store.market_snapshots (Store.save_snapshots_batch snapshots d) =
      Store.market_snapshots d ++ new_rows /\
    map snap new_rows = snapshots /\
    (forall r, In r new_rows ->
               (Store.sqlite_sequence d < id r)%Z /\
               (forall old, In old (Store.market_snapshots d) ->
                            (id old < id r)%Z)) /\
    (NoDup (map id (Store.market_snapshots d)) ->
     NoDup (map id (Store.market_snapshots
                      (Store.save_snapshots_batch snapshots d)))) /\
    Store.market_metadata (Store.save_snapshots_batch snapshots d) =
      Store.market_metadata d.
Proof. apply save_snapshots_batch_rows. Qed.

(** [save_snapshots_batch_appends] on a batch of two snapshots saved to the
    example table. *)
Lemma save_snapshots_batch_appends_witness :
  let d := {| Store.market_snapshots := Spec.stored_rows;
              Store.sqlite_sequence := 4;
              Store.market_metadata := [] |} in
  let batch := [snap (Spec.stored 0 "A" 40); snap (Spec.stored 0 "B" 40)] in
  NoDup (map id (Store.market_snapshots (Store.save_snapshots_batch batch d))).
Proof.
  intros d batch.
  destruct (save_snapshots_batch_appends batch d)
    as [new_rows [_ [_ [_ [Hunique _]]]]].
  apply Hunique. unfold d, Spec.stored_rows. simpl.
  repeat constructor; simpl; intuition discriminate.
Defined.

(** A row that is newer than every row of the list goes first in
    [ORDER BY timestamp DESC], and the others keep their order. *)
Lemma order_desc_newest_last (rows : list row) (r : row) :
  (forall x, In x rows -> (row_timestamp x < row_timestamp r)%Z) ->
  stable_sort (fun y x => (row_timestamp x <? row_timestamp y)%Z) (rows ++ [r]) =
  r :: stable_sort (fun y x => (row_timestamp x <? row_timestamp y)%Z) rows.
Proof.
  induction rows as [| x rows IH]; intros Hnewer; [reflexivity |].
  simpl. rewrite IH by (intros y Hy; apply Hnewer; now right).
  simpl. assert (Hx : (row_timestamp x <? row_timestamp r)%Z = true).
  { apply Z.ltb_lt, Hnewer. now left. }
  now rewrite Hx.
Qed.

Lemma where_ticker_snoc (t : string) (rows : list row) (r : row) :
  where_ticker t (rows ++ [r]) =
  where_ticker t rows ++ (if String.eqb (row_ticker r) t then [r] else []).
Proof. unfold where_ticker. now rewrite filter_app. Qed.

(** X4.  After [save_snapshot], the histories of the other tickers read as
    before; and if the snapshot is newer than every stored snapshot of its
    ticker, a history of that ticker with a limit of at least 1 starts with
    the snapshot as it was saved and goes on with what a history with the
    limit one lower read before. *)
Theorem save_snapshot_then_get_history (s : MarketSnapshot) (d : Store.db)
    (lim : Z) :
  (forall t, t <> ticker s ->
             Store.get_history t lim (Store.save_snapshot s d) =
             Store.get_history t lim d) /\
  ((forall r, In r (Store.market_snapshots d) -> row_ticker r = ticker s ->
              (row_timestamp r < timestamp s)%Z) ->
   (1 <= lim)%Z ->
   Store.get_history (ticker s) lim (Store.save_snapshot s d) =
   s :: Store.get_history (ticker s) (lim - 1) d).
Proof.
  destruct (insert_snapshot_rows d s) as [new_id [Hrows _]].
  unfold Store.get_history, Store.save_snapshot, get_history.
  rewrite Hrows. split.
  - intros t Hne. rewrite where_ticker_snoc.
    change (row_ticker {| id := new_id; snap := s |}) with (ticker s).
    destruct (String.eqb_spec (ticker s) t) as [Heq | _];
      [now symmetry in Heq |].
    now rewrite app_nil_r.
  - intros Hnewer Hlim. rewrite where_ticker_snoc.
    change (row_ticker {| id := new_id; snap := s |}) with (ticker s).
    rewrite String.eqb_refl.
    rewrite order_desc_newest_last.
    + unfold limit.
      destruct (Z.ltb_spec lim 0), (Z.ltb_spec (lim - 1) 0); try lia.
      replace (Z.to_nat lim) with (S (Z.to_nat (lim - 1))) by lia.
      reflexivity.
    + intros x Hx. apply where_ticker_in in Hx. destruct Hx as [Hx Ht].
      now apply Hnewer.
Qed.

(** [save_snapshot_then_get_history] on the example table and a snapshot
    of its first ticker taken later than all the stored ones. *)
Lemma save_snapshot_then_get_history_witness :
  let d := {| Store.market_snapshots := Spec.stored_rows;
              Store.sqlite_sequence := 4;
              Store.market_metadata := [] |} in
  let s := snap (Spec.stored 0 "A" 40) in
  Store.get_history "A" 2 (Store.save_snapshot s d) =
  s :: Store.get_history "A" 1 d.
Proof.
  intros d s.
  apply (proj2 (save_snapshot_then_get_history s d 2)); [| lia].
  intros r Hr Ht. simpl in Hr.
  destruct Hr as [<- | [<- | [<- | [<- | []]]]];
    unfold row_timestamp; simpl; lia.
Defined.

End SaveSnapshots.

(** ** database.py: [get_all_market_histories] *)

Section AllHistories.
Import Database.

Lemma get_history_absent (t : string) (lim : Z) (tbl : list row) :
  ~ In t (map row_ticker tbl) -> get_history t lim tbl = [].
Proof.
  intros Habsent. unfold get_history.
  assert (Hnone : where_ticker t tbl = []).
  { apply filter_none. intros r Hr.
    destruct (String.eqb_spec (row_ticker r) t) as [Heq | _]; [| reflexivity].
    exfalso. apply Habsent. rewrite <- Heq. now apply in_map. }
  rewrite Hnone. simpl. unfold limit.
  destruct (lim <? 0)%Z; [reflexivity | now rewrite firstn_nil].
Qed.

Lemma fold_insert_lookup {V : Type} (f : string -> V) (keys : list string)
    (m : gmap string V) (k : string) :
  fold_left (fun acc t => <[t := f t]> acc) keys m !! k =
    if in_dec String.string_dec k keys then Some (f k) else m !! k.
Proof.
  revert m. induction keys as [| t keys IH]; intros m; [reflexivity |].
  simpl fold_left. rewrite IH.
  destruct (in_dec String.string_dec k keys) as [Hin | Hout];
    destruct (in_dec String.string_dec k (t :: keys)) as [Hin' | Hout'];
    try reflexivity.
  - exfalso. apply Hout'. now right.
  - destruct Hin' as [-> | Hin']; [| contradiction].
    apply lookup_insert_eq.
  - apply lookup_insert_ne. intros ->. apply Hout'. now left.
Qed.

(** The dict of histories, entry by entry. *)
Lemma get_all_market_histories_lookup (lim : Z) (d : Store.db) (t : string) :
  (Store.get_all_market_histories lim d !! t <> None <->
   In t (map row_ticker (Store.market_snapshots d))) /\
  Store.history_of (Store.get_all_market_histories lim d) t =
    Store.get_history t lim d.
Proof.
  unfold Store.history_of, Store.get_all_market_histories.
  rewrite (fold_insert_lookup (fun t => Store.get_history t lim d)).
  destruct (in_dec String.string_dec t _) as [Hin | Hout].
  - apply nodup_In in Hin. split; [| reflexivity].
    split; [intros _; exact Hin | discriminate].
  - rewrite nodup_In in Hout. rewrite lookup_empty. split.
    + split; [intros H; now contradiction H | intros H; contradiction].
    + symmetry. now apply get_history_absent.
Qed.

(** X5.  The dict that [get_all_market_histories] builds has an entry for
    exactly the tickers that have rows, and reading it with
    [histories.get(ticker, [])] gives, for every ticker, stored or not, what
    [get_history] gives for that ticker and the same limit. *)
Theorem get_all_market_histories_agrees (lim : Z) (d : Store.db) (t : string) :
  (Store.get_all_market_histories lim d !! t <> None <->
   In t (map row_ticker (Store.market_snapshots d))) /\
  Store.history_of (Store.get_all_market_histories lim d) t =
    Store.get_history t lim d.
Proof. apply get_all_market_histories_lookup. Qed.

End AllHistories.

(** ** database.py: the metadata table *)

Section Metadata.

Lemma find_app_none {A : Type} (f : A -> bool) (l1 l2 : list A) :
  find f l1 = None -> find f (l1 ++ l2) = find f l2.
Proof.
  induction l1 as [| x l1 IH]; simpl; [reflexivity |].
  destruct (f x); [discriminate | exact IH].
Qed.

Lemma find_app_some {A : Type} (f : A -> bool) (l1 l2 : list A) (x : A) :
  find f l1 = Some x -> find f (l1 ++ l2) = Some x.
Proof.
  induction l1 as [| y l1 IH]; simpl; [discriminate |].
  destruct (f y); [auto | exact IH].
Qed.

Lemma find_filter_other (t t' : string) (l : list Store.metadata) :
  t' <> t ->
  find (fun m => String.eqb (Store.meta_ticker m) t')
       (filter (fun m => negb (String.eqb (Store.meta_ticker m) t)) l) =
  find (fun m => String.eqb (Store.meta_ticker m) t') l.
Proof.
  intros Hne. induction l as [| m l IH]; [reflexivity |]. simpl.
  destruct (String.eqb_spec (Store.meta_ticker m) t) as [Ht | Ht]; simpl.
  - destruct (String.eqb_spec (Store.meta_ticker m) t') as [Ht' | _];
      [congruence | exact IH].
  - destruct (String.eqb (Store.meta_ticker m) t'); [reflexivity | exact IH].
Qed.

Lemma find_filter_self (t : string) (l : list Store.metadata) :
  find (fun m => String.eqb (Store.meta_ticker m) t)
       (filter (fun m => negb (String.eqb (Store.meta_ticker m) t)) l) = None.
Proof.
  induction l as [| m l IH]; [reflexivity |]. simpl.
  destruct (String.eqb (Store.meta_ticker m) t) eqn:Ht; simpl;
    [exact IH | now rewrite Ht].
Qed.

(** One [INSERT OR REPLACE] into the metadata table. *)
Lemma update_market_metadata_row (ticker title subtitle url : string)
    (utcnow : Z) (d : Store.db) :
  let d' := Store.update_market_metadata ticker title subtitle url utcnow d in
  length (filter (fun m => String.eqb (Store.meta_ticker m) ticker)
            (Store.market_metadata d')) = 1%nat /\
  Store.get_market_metadata ticker d' =
    Some {| Store.info_ticker := ticker; Store.info_title := title;
            Store.info_subtitle := subtitle; Store.info_url := url |} /\
  (forall t, t <> ticker ->
             Store.get_market_metadata t d' = Store.get_market_metadata t d) /\
  (NoDup (map Store.meta_ticker (Store.market_metadata d)) ->
   NoDup (map Store.meta_ticker (Store.market_metadata d'))) /\
  Store.market_snapshots d' = Store.market_snapshots d /\
  (forall title' subtitle' url' utcnow',
      Store.update_market_metadata ticker title' subtitle' url' utcnow' d' =
      Store.update_market_metadata ticker title' subtitle' url' utcnow' d).
Proof.
  intros d'. subst d'. unfold Store.update_market_metadata,
    Store.get_market_metadata. simpl.
  set (others := filter (fun m => negb (String.eqb (Store.meta_ticker m) ticker))
                   (Store.market_metadata d)).
  assert (Hnone : filter (fun m => String.eqb (Store.meta_ticker m) ticker)
                    others = []).
  { apply filter_none. intros m Hm. apply filter_In in Hm.
    now apply negb_true_iff. }
  split; [| split; [| split; [| split; [| split]]]].
  - rewrite filter_app, Hnone. simpl. now rewrite String.eqb_refl.
  - rewrite find_app_none by apply find_filter_self.
    simpl. now rewrite String.eqb_refl.
  - intros t Hne.
    destruct (find (fun m => String.eqb (Store.meta_ticker m) t) others)
      as [m |] eqn:Hfind.
    + rewrite (find_app_some _ _ _ _ Hfind).
      unfold others in Hfind. rewrite (find_filter_other ticker t) in Hfind
        by exact Hne.
      now rewrite Hfind.
    + rewrite (find_app_none _ _ _ Hfind). simpl.
      destruct (String.eqb_spec ticker t) as [Heq | _];
        [now symmetry in Heq |].
      unfold others in Hfind. rewrite (find_filter_other ticker t) in Hfind
        by exact Hne.
      now rewrite Hfind.
  - intros Hnd. rewrite map_app. simpl. apply NoDup_snoc.
    + now apply NoDup_map_filter.
    + intros Hin. apply in_map_iff in Hin. destruct Hin as [m [Ht Hm]].
      apply filter_In in Hm. destruct Hm as [_ Hm].
      apply negb_true_iff in Hm. rewrite Ht, String.eqb_refl in Hm.
      discriminate Hm.
  - reflexivity.
  - intros title' subtitle' url' utcnow'. f_equal.
    rewrite filter_app. simpl. rewrite String.eqb_refl. simpl.
    rewrite app_nil_r. f_equal.
    apply filter_all. intros m Hm. apply filter_In in Hm. tauto.
Qed.

(** X6.  After [update_market_metadata] the table holds exactly one row for
    the ticker, [get_market_metadata] returns the values just written, the
    metadata of every other ticker reads as before, tickers that were unique
    in the table stay unique, and the snapshots are not touched; a later
    write for the same ticker, whatever its values and its reading of the
    clock, gives the store that this later write alone would have given: the
    earlier write leaves no trace, and the row carries the later clock. *)
Theorem update_market_metadata_upsert (ticker title subtitle url : string)
    (utcnow : Z) (d : Store.db) :
  let d' := Store.update_market_metadata ticker title subtitle url utcnow d in
  length (filter (fun m => String.eqb (Store.meta_ticker m) ticker)
            (Store.market_metadata d')) = 1%nat /\
  Store.get_market_metadata ticker d' =
    Some {| Store.info_ticker := ticker; Store.info_title := title;
            Store.info_subtitle := subtitle; Store.info_url := url |} /\
  (forall t, t <> ticker ->
             Store.get_market_metadata t d' = Store.get_market_metadata t d) /\
  (NoDup (map Store.meta_ticker (Store.market_metadata d)) ->
   NoDup (map Store.meta_ticker (Store.market_metadata d'))) /\
  Store.market_snapshots d' = Store.market_snapshots d /\
  (forall title' subtitle' url' utcnow',
      Store.update_market_metadata ticker title' subtitle' url' utcnow' d' =
      Store.update_market_metadata ticker title' subtitle' url' utcnow' d).
Proof. apply update_market_metadata_row. Qed.

(** [get_market_metadata] of a ticker never written is [None]. *)
Lemma get_market_metadata_empty (t : string) :
  Store.get_market_metadata t Store.empty = None.
Proof. reflexivity. Qed.

(** [update_market_metadata_upsert] on a table that already holds a row for
    the ticker, written at an earlier reading of the clock. *)
Lemma update_market_metadata_upsert_witness :
  let d := Store.update_market_metadata "A" "old" "" "u" 1 Store.empty in
  let d' := Store.update_market_metadata "A" "new" "" "u" 2 d in
  Store.get_market_metadata "A" d' =
    Some {| Store.info_ticker := "A"; Store.info_title := "new";
            Store.info_subtitle := ""; Store.info_url := "u" |} /\
  NoDup (map Store.meta_ticker (Store.market_metadata d')) /\
  d' = Store.update_market_metadata "A" "new" "" "u" 2 Store.empty.
Proof.
  intros d d'.
  destruct (update_market_metadata_upsert "A" "new" "" "u" 2 d)
    as [_ [Hget [_ [Hnd _]]]].
  destruct (update_market_metadata_upsert "A" "old" "" "u" 1 Store.empty)
    as [_ [_ [_ [_ [_ Hlast]]]]].
  split; [exact Hget |]. split.
  - apply Hnd. simpl. repeat constructor. intros [].
  - exact (Hlast "new"%string ""%string "u"%string 2%Z).
Defined.

End Metadata.

(** ** database.py: more on [prune_old_data] *)

Section PruneMore.
Import Database.

Lemma filter_filter_and {A : Type} (f g : A -> bool) (l : list A) :
  filter f (filter g l) = filter (fun a => g a && f a) l.
Proof.
  induction l as [| x l IH]; [reflexivity |]. simpl.
  destruct (g x); simpl; [destruct (f x) |]; now rewrite IH.
Qed.

(** Whatever the tickers and counts handed to the loop, the table it leaves
    is a selection of the rows of the table it got. *)
Lemma prune_fold_is_filter (cap : Z) (todo : list (string * Z))
    (tbl : list row) (total : Z) :
  exists keep,
    fst (fold_left (prune_step cap) todo (tbl, total)) = filter keep tbl.
Proof.
  revert tbl total. induction todo as [| tc todo IH]; intros tbl total.
  - exists (fun _ => true). simpl. symmetry. now apply filter_all.
  - simpl. unfold prune_step at 2. simpl.
    destruct (IH (delete_where_id_in
                    (select_oldest_ids (fst tc) (snd tc - cap) tbl) tbl)
                 (total + (snd tc - cap))%Z) as [keep Hkeep].
    rewrite Hkeep. unfold delete_where_id_in. rewrite filter_filter_and.
    eexists. reflexivity.
Qed.

(** X7.  Whatever the cap, [prune_old_data] only deletes: the table it
    leaves is a selection of the rows stored before, unchanged and in their
    order, so every row left was stored before, keys that were distinct stay
    distinct, and the table does not grow. *)
Theorem prune_old_data_only_deletes (cap : Z) (tbl : list row) :
  (exists keep, fst (prune_old_data cap tbl) = filter keep tbl) /\
  (forall r, In r (fst (prune_old_data cap tbl)) -> In r tbl) /\
  (NoDup (map id tbl) -> NoDup (map id (fst (prune_old_data cap tbl)))) /\
  (length (fst (prune_old_data cap tbl)) <= length tbl)%nat.
Proof.
  destruct (prune_fold_is_filter cap (tickers_to_prune cap tbl) tbl 0%Z)
    as [keep Hkeep].
  fold (prune_old_data cap tbl) in Hkeep.
  split; [now exists keep |]. rewrite Hkeep. split; [| split].
  - intros r Hr. now apply filter_In in Hr.
  - apply NoDup_map_filter.
  - pose proof (filter_partition_length keep tbl). lia.
Qed.

(** A table in which no ticker exceeds the cap is left alone. *)
Lemma prune_old_data_within_cap (cap : Z) (tbl : list row) :
  (forall t, (count_rows t tbl <= cap)%Z) ->
  prune_old_data cap tbl = (tbl, 0%Z).
Proof.
  intros Hwithin. unfold prune_old_data.
  assert (Hnone : tickers_to_prune cap tbl = []).
  { unfold tickers_to_prune. apply filter_none. intros [t c] Hin.
    unfold group_by_ticker_count in Hin. apply in_map_iff in Hin.
    destruct Hin as [t' [[= -> <-] _]]. simpl.
    apply Z.ltb_ge. apply Hwithin. }
  now rewrite Hnone.
Qed.

(** The rows of each ticker after pruning. *)
Lemma prune_old_data_rows (cap : Z) (tbl : list row) (t : string) :
  (0 <= cap)%Z ->
  NoDup (map id tbl) ->
  ((count_rows t tbl <= cap)%Z ->
   where_ticker t (fst (prune_old_data cap tbl)) = where_ticker t tbl) /\
  ((cap < count_rows t tbl)%Z ->
   Permutation (where_ticker t (fst (prune_old_data cap tbl)))
     (Spec.newest_rows t (Z.to_nat (count_rows t tbl - cap)) tbl)).
Proof.
  intros Hcap Hnd.
  destruct (tickers_to_prune_spec cap tbl Hcap) as [Htickers Htodo].
  destruct (prune_loop cap (tickers_to_prune cap tbl) Hcap Htickers tbl 0%Z Hnd)
    as [_ [Huntouched [Hpruned _]]].
  { intros t' c Hin. now apply Htodo. }
  fold (prune_old_data cap tbl) in Huntouched, Hpruned. split.
  - intros Hle. apply Huntouched. intros Hin.
    apply in_map_iff in Hin. destruct Hin as [[t' c] [Heq Hin]].
    simpl in Heq. subst t'. apply Htodo in Hin. lia.
  - intros Hlt. apply Hpruned, Htodo. now split.
Qed.

Lemma prune_old_data_counts (cap : Z) (tbl : list row) (t : string) :
  (0 <= cap)%Z ->
  NoDup (map id tbl) ->
  (count_rows t (fst (prune_old_data cap tbl)) <= cap)%Z.
Proof.
  intros Hcap Hnd.
  destruct (prune_old_data_rows cap tbl t Hcap Hnd) as [Hsmall Hlarge].
  destruct (Z.lt_ge_cases cap (count_rows t tbl)) as [Hlt | Hge].
  - unfold count_rows at 1. rewrite (Permutation_length (Hlarge Hlt)).
    unfold Spec.newest_rows. rewrite length_skipn.
    rewrite (Permutation_length (order_by_timestamp_asc_perm _)).
    unfold count_rows in *. lia.
  - rewrite (count_rows_ext t _ tbl) by (apply Hsmall; lia). lia.
Qed.

(** X8.  A table in which no ticker has more rows than the cap is returned
    as it is, with the count 0; and, for a cap that is not negative and rows
    with distinct keys, pruning a second time with the same cap deletes
    nothing. *)
Theorem prune_old_data_idempotent (cap : Z) (tbl : list row) :
  ((forall t, (count_rows t tbl <= cap)%Z) ->
   prune_old_data cap tbl = (tbl, 0%Z)) /\
  ((0 <= cap)%Z -> NoDup (map id tbl) ->
   prune_old_data cap (fst (prune_old_data cap tbl)) =
     (fst (prune_old_data cap tbl), 0%Z)).
Proof.
  split; [apply prune_old_data_within_cap |].
  intros Hcap Hnd. apply prune_old_data_within_cap.
  intros t. now apply prune_old_data_counts.
Qed.

(** [prune_old_data_idempotent] on the example table. *)
Lemma prune_old_data_idempotent_witness :
  prune_old_data 2 (fst (prune_old_data 2 Spec.stored_rows)) =
    (fst (prune_old_data 2 Spec.stored_rows), 0%Z).
Proof.
  apply (proj2 (prune_old_data_idempotent 2 Spec.stored_rows)); [lia |].
  unfold Spec.stored_rows. simpl.
  repeat constructor; simpl; intuition discriminate.
Defined.

(** *** Pruning and reading *)

Lemma StronglySorted_snoc {A : Type} (R : A -> A -> Prop) (l : list A) (x : A) :
  StronglySorted R l -> Forall (fun y => R y x) l ->
  StronglySorted R (l ++ [x]).
Proof.
  induction 1 as [| y l Hl IH Hy]; intros Hall; simpl.
  - repeat constructor.
  - inversion Hall as [| ? ? Hyx Hall']; subst.
    constructor; [now apply IH |].
    apply Forall_app. split; [exact Hy | now constructor].
Qed.

Lemma StronglySorted_rev {A : Type} (R : A -> A -> Prop) (l : list A) :
  StronglySorted R l -> StronglySorted (fun a b => R b a) (rev l).
Proof.
  induction 1 as [| x l Hl IH Hx]; simpl; [constructor |].
  apply StronglySorted_snoc; [exact IH |].
  apply Forall_forall. intros y Hy. apply in_rev in Hy.
  rewrite Forall_forall in Hx. now apply Hx.
Qed.

(** With distinct timestamps, the ascending order is the descending order
    read backwards. *)
Lemma order_asc_rev_desc (rows : list row) :
  NoDup (map row_timestamp rows) ->
  order_by_timestamp_asc rows =
  rev (stable_sort (fun y x => (row_timestamp x <? row_timestamp y)%Z) rows).
Proof.
  intros Hnd. unfold order_by_timestamp_asc.
  apply (sorted_perm_unique (fun y x => (row_timestamp y <? row_timestamp x)%Z)).
  - intros a b Ha Hb Hab Hba.
    apply (Permutation_in _ (stable_sort_perm _ rows)) in Ha, Hb.
    apply (NoDup_map_injective row_timestamp rows a b Hnd Ha Hb).
    apply Z.ltb_ge in Hab, Hba. lia.
  - apply stable_sort_sorted.
    + intros a b Hab. apply Z.ltb_lt in Hab. apply Z.ltb_ge. lia.
    + intros a b c Hab Hbc. apply Z.ltb_ge in Hab, Hbc. apply Z.ltb_ge. lia.
  - apply (StronglySorted_rev
             (fun a b => (row_timestamp a <? row_timestamp b)%Z = false)).
    apply (stable_sort_sorted (fun y x => (row_timestamp x <? row_timestamp y)%Z)).
    + intros a b Hab. apply Z.ltb_lt in Hab. apply Z.ltb_ge. lia.
    + intros a b c Hab Hbc. apply Z.ltb_ge in Hab, Hbc. apply Z.ltb_ge. lia.
  - rewrite <- Permutation_rev. now rewrite !stable_sort_perm.
Qed.

(** With distinct timestamps, the rows of a ticker that pruning leaves are,
    in descending order, the first rows of the descending order before. *)
Lemma prune_old_data_desc_prefix (cap : Z) (tbl : list row) (t : string) :
  (0 <= cap)%Z ->
  NoDup (map id tbl) ->
  NoDup (map row_timestamp (where_ticker t tbl)) ->
  stable_sort (fun y x => (row_timestamp x <? row_timestamp y)%Z)
    (where_ticker t (fst (prune_old_data cap tbl))) =
  firstn (Z.to_nat cap)
    (stable_sort (fun y x => (row_timestamp x <? row_timestamp y)%Z)
       (where_ticker t tbl)).
Proof.
  intros Hcap Hnd Hts.
  set (desc := stable_sort (fun y x => (row_timestamp x <? row_timestamp y)%Z)).
  assert (Hlen : length (desc (where_ticker t tbl)) = length (where_ticker t tbl))
    by apply stable_sort_length.
  destruct (prune_old_data_rows cap tbl t Hcap Hnd) as [Hsmall Hlarge].
  destruct (Z.lt_ge_cases cap (count_rows t tbl)) as [Hlt | Hge].
  - specialize (Hlarge Hlt).
    unfold Spec.newest_rows in Hlarge.
    rewrite (order_asc_rev_desc _ Hts), skipn_rev in Hlarge. fold desc in Hlarge.
    replace (length (desc (where_ticker t tbl))
             - Z.to_nat (count_rows t tbl - cap))%nat
      with (Z.to_nat cap) in Hlarge by (unfold count_rows in *; lia).
    rewrite <- Permutation_rev in Hlarge.
    assert (Hsub : forall r,
              In r (desc (where_ticker t (fst (prune_old_data cap tbl)))) ->
              In r (where_ticker t tbl)).
    { intros r Hr. unfold desc in Hr.
      apply (Permutation_in _ (stable_sort_perm _ _)) in Hr.
      apply (Permutation_in _ Hlarge) in Hr.
      apply (Permutation_in _ (order_by_timestamp_desc_perm (where_ticker t tbl))).
      fold desc. rewrite <- (firstn_skipn (Z.to_nat cap)).
      apply in_or_app. now left. }
    apply (sorted_perm_unique (fun y x => (row_timestamp x <? row_timestamp y)%Z)).
    + intros a b Ha Hb Hab Hba.
      apply (NoDup_map_injective row_timestamp _ a b Hts (Hsub a Ha) (Hsub b Hb)).
      apply Z.ltb_ge in Hab, Hba. lia.
    + apply stable_sort_sorted.
      * intros a b Hab. apply Z.ltb_lt in Hab. apply Z.ltb_ge. lia.
      * intros a b c Hab Hbc. apply Z.ltb_ge in Hab, Hbc. apply Z.ltb_ge. lia.
    + apply StronglySorted_firstn. apply stable_sort_sorted.
      * intros a b Hab. apply Z.ltb_lt in Hab. apply Z.ltb_ge. lia.
      * intros a b c Hab Hbc. apply Z.ltb_ge in Hab, Hbc. apply Z.ltb_ge. lia.
    + unfold desc. rewrite stable_sort_perm. exact Hlarge.
  - rewrite (Hsmall ltac:(lia)).
    rewrite firstn_all2; [reflexivity |].
    unfold count_rows in Hge. lia.
Qed.

(** X9.  For a cap that is not negative, rows with distinct keys and a
    ticker whose stored timestamps are distinct, pruning to the cap does not
    change what [get_history] reads for that ticker with any limit from 0 to
    the cap: the history after pruning is the history before. *)
Theorem prune_old_data_then_get_history (cap lim : Z) (tbl : list row)
    (t : string) :
  (0 <= cap)%Z ->
  NoDup (map id tbl) ->
  NoDup (map row_timestamp (where_ticker t tbl)) ->
  (0 <= lim <= cap)%Z ->
  get_history t lim (fst (prune_old_data cap tbl)) = get_history t lim tbl.
Proof.
  intros Hcap Hnd Hts Hlim. unfold get_history.
  rewrite (prune_old_data_desc_prefix cap tbl t Hcap Hnd Hts).
  unfold limit. destruct (Z.ltb_spec lim 0) as [Hneg | _]; [lia |].
  rewrite firstn_firstn.
  replace (Nat.min (Z.to_nat lim) (Z.to_nat cap)) with (Z.to_nat lim) by lia.
  reflexivity.
Qed.

(** [prune_old_data_then_get_history] on the example table, whose first
    ticker has three rows at three instants. *)
Lemma prune_old_data_then_get_history_witness :
  get_history "A" 2 (fst (prune_old_data 2 Spec.stored_rows)) =
  get_history "A" 2 Spec.stored_rows.
Proof.
  apply prune_old_data_then_get_history; [lia | | | lia].
  - unfold Spec.stored_rows. simpl.
    repeat constructor; simpl; intuition discriminate.
  - unfold Spec.stored_rows. simpl.
    repeat constructor; simpl; intuition discriminate.
Defined.

End PruneMore.

(** ** alerts.py: [send_alert] on the events of the detector *)

Section AlertsFacts.
Import Detector.
Import Alerts.

(** A spread event carries the two quotes as numbers. *)
Lemma _detect_spread_compression_quotes (config : Config) (utcnow : Z)
    (market : Market) (history : list Database.MarketSnapshot)
    (e : SpikeEvent) :
  _detect_spread_compression config utcnow market history = Ok (Some e) ->
  exists bid ask,
    extra_float (extra_info e) "yes_bid" = Ok bid /\
    extra_float (extra_info e) "yes_ask" = Ok ask.
Proof.
  unfold _detect_spread_compression.
  destruct (yes_bid market) as [bid |]; [| discriminate].
  destruct (yes_ask market) as [ask |]; [| discriminate].
  destruct (Rle_dec _ 0); [discriminate |].
  destruct (length _ <? 3)%nat; [discriminate |].
  destruct (Stats.mean _) as [avg | x]; simpl; [| discriminate].
  destruct (truediv _ avg) as [ratio | x]; simpl; [| discriminate].
  destruct (Rle_dec ratio _); [| discriminate].
  intros [= <-]. simpl. eexists. eexists. split; reflexivity.
Qed.

(** What [detect_spikes] returns: volume and price events, and spread
    events with a positive average and numeric quotes. *)
Lemma detect_spikes_events (config : Config) (utcnow : Z) (market : Market)
    (history : list Database.MarketSnapshot) :
  exists events,
    detect_spikes config utcnow market history = Ok events /\
    (length events <= 3)%nat /\
    forall e, In e events ->
      spike_type e = VOLUME \/ spike_type e = PRICE \/
      (spike_type e = SPREAD_COMPRESSION /\ (0 < average_value e)%R /\
       exists bid ask,
         extra_float (extra_info e) "yes_bid" = Ok bid /\
         extra_float (extra_info e) "yes_ask" = Ok ask).
Proof.
  destruct (Nat.lt_ge_cases (length history) 2) as [Hshort | Hlong].
  - exists []. split; [now apply detect_spikes_short |].
    split; [simpl; lia | intros e []].
  - destruct (detect_spikes_checks config utcnow market history Hlong)
      as [v [p [s [_ [Hvt [_ [Hpt [Hs [Hst Hrun]]]]]]]]].
    eexists. split; [exact Hrun |]. split.
    + destruct v, p, s; simpl; lia.
    + intros e Hin. rewrite !in_append_if in Hin.
      destruct Hin as [[[[] | Hv] | Hp] | Hse].
      * left. now apply Hvt.
      * right. left. now apply Hpt.
      * right. right. destruct (Hst e Hse) as [Htype [_ Havg]].
        split; [exact Htype |]. split; [exact Havg |]. subst s.
        exact (_detect_spread_compression_quotes _ _ _ _ _ Hs).
Qed.

(** Such an event has a message and embed fields. *)
Lemma detected_event_renders (e : SpikeEvent) :
  spike_type e = VOLUME \/ spike_type e = PRICE \/
  (spike_type e = SPREAD_COMPRESSION /\ (0 < average_value e)%R /\
   exists bid ask,
     extra_float (extra_info e) "yes_bid" = Ok bid /\
     extra_float (extra_info e) "yes_ask" = Ok ask) ->
  exists message embed_fields,
    format_message e = Ok message /\
    _build_embed_fields e = Ok embed_fields.
Proof.
  unfold format_message, _build_embed_fields.
  intros [-> | [-> | [-> [Havg [bid [ask [-> ->]]]]]]].
  - eexists. eexists. split; reflexivity.
  - eexists. eexists. split; reflexivity.
  - unfold truediv.
    destruct (Req_dec_T (average_value e) 0) as [Hz | _]; [lra |].
    simpl. eexists. eexists. split; reflexivity.
Qed.

(** [send_alert] on an event that renders. *)
Lemma send_alert_renders (alerts : AlertManager) (post : result unit)
    (e : SpikeEvent) (message : list line) (embed_fields : list field) :
  format_message e = Ok message ->
  _build_embed_fields e = Ok embed_fields ->
  snd (send_alert alerts post e) = Ok tt /\
  (webhook_set alerts = false ->
   fst (send_alert alerts post e) = [Print message]) /\
  (webhook_set alerts = true ->
   exists url json,
     discord_webhook_url alerts = Some url /\
     map embed_title (embeds json) = [spike_type e] /\
     map color (embeds json) = [_get_embed_color (spike_type e)] /\
     map fields (embeds json) = [embed_fields] /\
     fst (send_alert alerts post e) =
       match post with
       | Ok _ => [Print message; Post url json]
       | Raise _ => [Print message; Post url json; PrintFailure]
       end).
Proof.
  intros Hmsg Hfields.
  unfold send_alert, _print_console_alert, _send_discord_alert.
  rewrite Hmsg, Hfields.
  destruct (webhook_set alerts) eqn:Hset; simpl.
  - split; [now destruct post |]. split; [discriminate |]. intros _.
    unfold webhook_set in Hset.
    destruct (discord_webhook_url alerts) as [url |]; [| discriminate].
    exists url. eexists. split; [reflexivity |].
    split; [| split; [| split]]; [| | | destruct post; reflexivity];
      reflexivity.
  - split; [reflexivity |]. split; [reflexivity | discriminate].
Qed.

(** X10.  [send_alert] does not raise on an event that [detect_spikes]
    returned, whatever the webhook setting and the outcome of the POST: it
    prints the message of the event; without a webhook it does nothing
    else; with a webhook it sends one POST to it, whose embed has the kind
    and the colour of the event, and when the POST fails it prints a notice
    and returns all the same. *)
Theorem send_alert_detected_event (config : Config) (utcnow : Z)
    (market : Market) (history : list Database.MarketSnapshot)
    (events : list SpikeEvent) (e : SpikeEvent)
    (alerts : AlertManager) (post : result unit) :
  detect_spikes config utcnow market history = Ok events ->
  In e events ->
  exists message,
    format_message e = Ok message /\
    snd (send_alert alerts post e) = Ok tt /\
    (webhook_set alerts = false ->
     fst (send_alert alerts post e) = [Print message]) /\
    (webhook_set alerts = true ->
     exists url json,
       discord_webhook_url alerts = Some url /\
       map embed_title (embeds json) = [spike_type e] /\
       map color (embeds json) = [_get_embed_color (spike_type e)] /\
       fst (send_alert alerts post e) =
         match post with
         | Ok _ => [Print message; Post url json]
         | Raise _ => [Print message; Post url json; PrintFailure]
         end).
Proof.
  intros Hrun Hin.
  destruct (detect_spikes_events config utcnow market history)
    as [events' [Hrun' [_ Hkinds]]].
  rewrite Hrun in Hrun'. injection Hrun' as <-.
  destruct (detected_event_renders e (Hkinds e Hin))
    as [message [embed_fields [Hmsg Hfields]]].
  destruct (send_alert_renders alerts post e message embed_fields Hmsg Hfields)
    as [Hok [Hoff Hon]].
  exists message. split; [exact Hmsg |]. split; [exact Hok |].
  split; [exact Hoff |]. intros Hset.
  destruct (Hon Hset) as [url [json [Hurl [Hkind [Hcolor [_ Hout]]]]]].
  exists url, json. auto.
Qed.

(** [send_alert_detected_event] on the spread example, with a webhook whose
    POST fails. *)
Lemma send_alert_detected_event_witness :
  exists e,
    spike_type e = SPREAD_COMPRESSION /\
    snd (send_alert {| discord_webhook_url := Some "hook"%string |}
           (Raise OtherException) e) = Ok tt.
Proof.
  destruct spread_example_event as [events [e [Hrun [Hin Htype]]]].
  exists e. split; [exact Htype |].
  destruct (send_alert_detected_event default_config 0%Z Spec.spread_market
              Spec.spread_history events e
              {| discord_webhook_url := Some "hook"%string |}
              (Raise OtherException) Hrun Hin)
    as [message [_ [Hok _]]].
  exact Hok.
Defined.

End AlertsFacts.

(** ** scanner.py: the poll cycle *)

Section PollCycleFacts.
Import Database.
Import Detector.
Import Alerts.
Import MarketCollector.
Import PollCycle.

Lemma printed_app (out1 out2 : list effect) :
  Effects.printed (out1 ++ out2) = Effects.printed out1 ++ Effects.printed out2.
Proof. apply flat_map_app. Qed.

Lemma posted_kinds_app (out1 out2 : list effect) :
  Effects.posted_kinds (out1 ++ out2) =
  Effects.posted_kinds out1 ++ Effects.posted_kinds out2.
Proof.
  unfold Effects.posted_kinds, Effects.posted. now rewrite !flat_map_app.
Qed.

(** What one alert for an event that renders leaves behind. *)
Lemma send_alert_effects (alerts : AlertManager) (post : result unit)
    (e : SpikeEvent) (message : list line) (embed_fields : list field) :
  format_message e = Ok message ->
  _build_embed_fields e = Ok embed_fields ->
  exists out,
    send_alert alerts post e = (out, Ok tt) /\
    Effects.printed out = [message] /\
    Effects.posted_kinds out =
      if webhook_set alerts then [spike_type e] else [].
Proof.
  intros Hmsg Hfields.
  destruct (send_alert_renders alerts post e message embed_fields Hmsg Hfields)
    as [Hok [Hoff Hon]].
  exists (fst (send_alert alerts post e)). split.
  - rewrite <- Hok. now destruct (send_alert alerts post e).
  - destruct (webhook_set alerts).
    + destruct (Hon eq_refl) as [url [json [_ [Hkind [_ [_ ->]]]]]].
      destruct post; unfold Effects.posted_kinds; simpl;
        rewrite Hkind; split; reflexivity.
    + rewrite (Hoff eq_refl). split; reflexivity.
Qed.

(** The loop over the events of one market. *)
Lemma alert_loop_renders (alerts : AlertManager) (post : nat -> result unit)
    (spikes : list SpikeEvent) :
  Forall (fun e => exists message embed_fields,
                     format_message e = Ok message /\
                     _build_embed_fields e = Ok embed_fields) spikes ->
  forall n, exists out,
    alert_loop alerts post n spikes = (out, Ok (n + length spikes)%nat) /\
    Forall2 (fun e message => format_message e = Ok message)
      spikes (Effects.printed out) /\
    Effects.posted_kinds out =
      if webhook_set alerts then map spike_type spikes else [].
Proof.
  induction 1 as [| e spikes [message [embed_fields [Hmsg Hfields]]] _ IH];
    intros n.
  - exists []. simpl. rewrite Nat.add_0_r. split; [reflexivity |].
    split; [constructor | now destruct (webhook_set alerts)].
  - destruct (send_alert_effects alerts (post n) e message embed_fields
                Hmsg Hfields) as [out [Hsend [Hprinted Hposted]]].
    destruct (IH (S n)) as [out' [Hloop [Hprinted' Hposted']]].
    exists (out ++ out'). simpl. rewrite Hsend, Hloop.
    split; [f_equal; f_equal; lia |].
    rewrite printed_app, posted_kinds_app, Hprinted, Hposted, Hposted'.
    split; [now constructor | now destruct (webhook_set alerts)].
Qed.

Lemma spikes_of_detect (config : Config) (d : Store.db) (m : polled) :
  detect_spikes config (detect_time m) (market m)
    (Store.history_of
       (Store.get_all_market_histories (max_history_points config) d)
       (ticker (market m))) =
  Ok (CycleSpec.spikes_of config d m) /\
  Forall (fun e => exists message embed_fields,
                     format_message e = Ok message /\
                     _build_embed_fields e = Ok embed_fields)
    (CycleSpec.spikes_of config d m) /\
  (length (CycleSpec.spikes_of config d m) <= 3)%nat.
Proof.
  rewrite (proj2 (get_all_market_histories_lookup _ d _)).
  unfold CycleSpec.spikes_of.
  destruct (detect_spikes_events config (detect_time m) (market m)
              (Store.get_history (ticker (market m))
                 (max_history_points config) d))
    as [events [-> [Hlen Hkinds]]].
  split; [reflexivity |]. split; [| exact Hlen].
  apply Forall_forall. intros e He.
  exact (detected_event_renders e (Hkinds e He)).
Qed.

(** The loop over the markets. *)
Lemma market_loop_detected (config : Config) (alerts : AlertManager)
    (post : nat -> result unit) (d : Store.db) (markets : list polled) :
  forall n, exists out,
    market_loop config alerts post
      (Store.get_all_market_histories (max_history_points config) d)
      n markets =
      (out, Ok (n + length (CycleSpec.detected config markets d))%nat) /\
    Forall2 (fun e message => format_message e = Ok message)
      (CycleSpec.detected config markets d) (Effects.printed out) /\
    Effects.posted_kinds out =
      if webhook_set alerts
      then map spike_type (CycleSpec.detected config markets d) else [].
Proof.
  induction markets as [| m markets IH]; intros n.
  - exists []. simpl. rewrite Nat.add_0_r. split; [reflexivity |].
    split; [constructor | now destruct (webhook_set alerts)].
  - destruct (spikes_of_detect config d m) as [Hrun [Hrender _]].
    destruct (alert_loop_renders alerts post _ Hrender n)
      as [out [Hloop [Hprinted Hposted]]].
    destruct (IH (n + length (CycleSpec.spikes_of config d m))%nat)
      as [out' [Hrest [Hprinted' Hposted']]].
    exists (out ++ out'). simpl market_loop. rewrite Hrun, Hloop, Hrest.
    unfold CycleSpec.detected. simpl flat_map.
    fold (CycleSpec.detected config markets d).
    rewrite length_app, map_app, printed_app, posted_kinds_app,
      Hposted, Hposted'.
    split; [f_equal; f_equal; lia |].
    split; [now apply Forall2_app | now destruct (webhook_set alerts)].
Qed.

Lemma detected_length (config : Config) (markets : list polled) (d : Store.db) :
  (length (CycleSpec.detected config markets d) <= 3 * length markets)%nat.
Proof.
  induction markets as [| m markets IH]; simpl; [lia |].
  rewrite length_app.
  pose proof (proj2 (proj2 (spikes_of_detect config d m))). lia.
Qed.

(** X11.  A poll cycle whose [collect_and_store] has returned, with markets
    that carry values of their annotated types, does not raise in detection
    or alerting, whatever the store holds, the webhook setting and the
    outcome of each POST: it alerts exactly the events that [detect_spikes]
    returns for the polled markets on their histories in the store that
    [collect_and_store] left, in the order of the markets; each is printed,
    each is posted when a webhook is set and none otherwise; [spike_count]
    ends as their number, which is at most three per market.  A cycle whose
    fetch or batch insert raises ends with that exception and alerts
    nothing; the fetch leaves the store as it was, the insert leaves the
    metadata as it was. *)
Theorem poll_cycle_alerts_detected (config : Config) (alerts : AlertManager)
    (post : nat -> result unit) (d : Store.db) :
  (forall markets,
      let d' := collect_and_store config markets d in
      let events := CycleSpec.detected config markets d' in
      exists out,
        _poll_cycle config alerts post (Collected markets) d =
          (d', out, Ok (length events)) /\
        Forall2 (fun e message => format_message e = Ok message)
          events (Effects.printed out) /\
        Effects.posted_kinds out =
          (if webhook_set alerts then map spike_type events else []) /\
        (length events <= 3 * length markets)%nat) /\
  (forall e,
      _poll_cycle config alerts post (FetchRaised e) d = (d, [], Raise e)) /\
  (forall inserted e,
      exists d',
        _poll_cycle config alerts post (StoreRaised inserted e) d =
          (d', [], Raise e) /\
        Store.market_metadata d' = Store.market_metadata d).
Proof.
  split; [| split].
  - intros markets d' events.
    destruct (market_loop_detected config alerts post d' markets 0)
      as [out [Hloop [Hprinted Hposted]]].
    exists out. unfold _poll_cycle. fold d'. rewrite Hloop.
    split; [reflexivity |]. split; [exact Hprinted |].
    split; [exact Hposted | apply detected_length].
  - reflexivity.
  - intros inserted e. eexists. split; [reflexivity |].
    destruct (save_snapshots_batch_rows
                (map (fun m => to_snapshot (snapshot_time m) (market m))
                   inserted) d) as [new_rows [_ [_ [_ [_ Hmeta]]]]].
    exact Hmeta.
Qed.

(** *** The history that a polled market is checked against *)

Lemma metadata_fold_rows (markets : list polled) (d : Store.db) :
  Store.market_snapshots
    (fold_left
       (fun d m =>
          Store.update_market_metadata
            (ticker (market m)) (title (market m))
            (subtitle (market m)) (url (market m))
            (metadata_time m) d)
       markets d) = Store.market_snapshots d.
Proof.
  revert d. induction markets as [| m markets IH]; intros d; [reflexivity |].
  simpl. now rewrite IH.
Qed.

(** The table after [collect_and_store]: the rows stored before, then one
    row per polled market, pruned. *)
Lemma collect_and_store_rows (config : Config) (markets : list polled)
    (d : Store.db) :
  exists new_rows,
    map snap new_rows =
      map (fun m => to_snapshot (snapshot_time m) (market m)) markets /\
    (NoDup (map id (Store.market_snapshots d)) ->
     NoDup (map id (Store.market_snapshots d ++ new_rows))) /\
    Store.market_snapshots (collect_and_store config markets d) =
      fst (prune_old_data (max_history_points config)
             (Store.market_snapshots d ++ new_rows)).
Proof.
  set (snapshots := map (fun m => to_snapshot (snapshot_time m) (market m))
                      markets).
  destruct (save_snapshots_batch_rows snapshots d)
    as [new_rows [Hrows [Hsnaps [_ [Hunique _]]]]].
  exists new_rows. split; [exact Hsnaps |]. split.
  - intros Hnd. rewrite <- Hrows. now apply Hunique.
  - unfold collect_and_store. fold snapshots. simpl.
    rewrite metadata_fold_rows.
    replace (match snapshots with
             | [] => d
             | _ :: _ => Store.save_snapshots_batch snapshots d
             end) with (Store.save_snapshots_batch snapshots d)
      by (destruct snapshots; reflexivity).
    now rewrite Hrows.
Qed.

(** Among the rows of a batch with distinct tickers, the rows of the ticker
    of a polled market are the one row of its snapshot. *)
Lemma where_ticker_new_rows (markets : list polled) (new_rows : list row)
    (m : polled) :
  map snap new_rows =
    map (fun m => to_snapshot (snapshot_time m) (market m)) markets ->
  NoDup (map (fun m => ticker (market m)) markets) ->
  In m markets ->
  exists r,
    where_ticker (ticker (market m)) new_rows = [r] /\
    snap r = to_snapshot (snapshot_time m) (market m).
Proof.
  revert new_rows.
  induction markets as [| m0 markets IH]; intros new_rows Hsnaps Hnd Hin;
    [destruct Hin |].
  destruct new_rows as [| r0 new_rows]; [discriminate Hsnaps |].
  simpl in Hsnaps. injection Hsnaps as Hr0 Hsnaps.
  apply NoDup_cons_iff in Hnd. destruct Hnd as [Hfresh Hnd].
  assert (Htickers : forall r, In r new_rows ->
            In (row_ticker r) (map (fun m => ticker (market m)) markets)).
  { intros r Hr. apply (in_map snap) in Hr. rewrite Hsnaps in Hr.
    apply in_map_iff in Hr. destruct Hr as [m' [Heq Hm']].
    unfold row_ticker. rewrite <- Heq. simpl.
    apply (in_map (fun m => ticker (market m))). exact Hm'. }
  destruct Hin as [<- | Hin].
  - exists r0. split; [| exact Hr0].
    unfold where_ticker. simpl. unfold row_ticker at 1. rewrite Hr0. simpl.
    rewrite String.eqb_refl. f_equal. apply filter_none. intros r Hr.
    destruct (String.eqb_spec (row_ticker r) (ticker (market m0)))
      as [Heq | _]; [| reflexivity].
    exfalso. apply Hfresh. rewrite <- Heq. now apply Htickers.
  - destruct (IH new_rows Hsnaps Hnd Hin) as [r [Hrows Hr]].
    exists r. split; [| exact Hr].
    unfold where_ticker. simpl. unfold row_ticker at 1. rewrite Hr0. simpl.
    destruct (String.eqb_spec (ticker (market m0)) (ticker (market m)))
      as [Heq | _]; [| exact Hrows].
    exfalso. apply Hfresh. rewrite Heq.
    apply (in_map (fun m => ticker (market m))). exact Hin.
Qed.

(** A row newer than all the others goes first in
    [ORDER BY timestamp DESC]. *)
Lemma order_desc_head (rows : list row) (r : row) :
  In r rows ->
  (forall x, In x rows -> x = r \/ (row_timestamp x < row_timestamp r)%Z) ->
  exists others,
    stable_sort (fun y x => (row_timestamp x <? row_timestamp y)%Z) rows =
      r :: others.
Proof.
  intros Hin Hnewest.
  pose proof (order_by_timestamp_desc_perm rows) as Hperm.
  pose proof (order_by_timestamp_desc_sorted rows) as Hsorted.
  destruct (stable_sort _ rows) as [| h others].
  - exfalso. apply (Permutation_in _ (Permutation_sym Hperm)) in Hin.
    destruct Hin.
  - exists others. f_equal.
    destruct (Hnewest h (Permutation_in _ Hperm (or_introl eq_refl)))
      as [-> | Holder]; [reflexivity |].
    apply (Permutation_in _ (Permutation_sym Hperm)) in Hin.
    destruct Hin as [-> | Hin]; [reflexivity |].
    inversion Hsorted as [| ? ? _ Hall]; subst.
    rewrite Forall_forall in Hall. specialize (Hall r Hin). lia.
Qed.

(** Pruning to a cap of at least 1 keeps the row of a ticker that is newer
    than all its others, and adds no row. *)
Lemma prune_old_data_keeps_newest_row (cap : Z) (tbl : list row)
    (t : string) (r : row) :
  (1 <= cap)%Z ->
  NoDup (map id tbl) ->
  In r (where_ticker t tbl) ->
  (forall x, In x (where_ticker t tbl) ->
             x = r \/ (row_timestamp x < row_timestamp r)%Z) ->
  In r (where_ticker t (fst (prune_old_data cap tbl))) /\
  (forall x, In x (where_ticker t (fst (prune_old_data cap tbl))) ->
             In x (where_ticker t tbl)).
Proof.
  intros Hcap Hnd Hin Hnewest. split.
  - destruct (prune_old_data_rows cap tbl t ltac:(lia) Hnd) as [Hsmall Hlarge].
    destruct (Z.lt_ge_cases cap (count_rows t tbl)) as [Hlt | Hge];
      [| now rewrite Hsmall by lia].
    apply (Permutation_in _ (Permutation_sym (Hlarge Hlt))).
    set (k := Z.to_nat (count_rows t tbl - cap)).
    pose proof (oldest_newest_rows t k tbl) as Hsplit.
    pose proof (order_by_timestamp_asc_sorted (where_ticker t tbl)) as Hsorted.
    pose proof (rows_of_ticker_unique_ids t tbl Hnd) as Hunique.
    pose proof (order_by_timestamp_asc_perm (where_ticker t tbl)) as Hperm.
    assert (Hlen : length (Spec.newest_rows t k tbl) = Z.to_nat cap).
    { unfold Spec.newest_rows. rewrite length_skipn.
      rewrite (Permutation_length Hperm). unfold k, count_rows in *. lia. }
    rewrite <- Hsplit in Hsorted, Hunique.
    apply (Permutation_in _ (Permutation_sym Hperm)) in Hin.
    rewrite <- Hsplit in Hin. apply in_app_or in Hin.
    destruct Hin as [Hold | Hnew]; [| exact Hnew]. exfalso.
    destruct (Spec.newest_rows t k tbl) as [| y rest] eqn:Hrows;
      [simpl in Hlen; lia |].
    assert (Hy : In y (where_ticker t tbl)).
    { apply (Permutation_in _ Hperm). rewrite <- Hsplit.
      apply in_or_app. right. now left. }
    pose proof (StronglySorted_app_cross _ _ _ Hsorted r y Hold
                  (or_introl eq_refl)) as Hle.
    destruct (Hnewest y Hy) as [-> | Hlt']; [| simpl in Hle; lia].
    destruct (prefix_ids_split _ _ Hunique) as [Hin1 Hin2].
    pose proof (Hin1 r Hold) as Hleft.
    pose proof (Hin2 r (or_introl eq_refl)) as Hright.
    rewrite Hleft in Hright. discriminate Hright.
  - intros x Hx. apply where_ticker_in in Hx. destruct Hx as [Hx Ht].
    apply where_ticker_in. split; [| exact Ht].
    destruct (prune_fold_is_filter cap (tickers_to_prune cap tbl) tbl 0%Z)
      as [keep Hkeep].
    fold (prune_old_data cap tbl) in Hkeep. rewrite Hkeep in Hx.
    now apply filter_In in Hx.
Qed.

(** The volume check is silent when the newest snapshot of the history
    carries the volume of the market, or more. *)
Lemma _detect_volume_spike_no_increase (config : Config) (utcnow : Z)
    (market : Market) (newest : MarketSnapshot) (rest : list MarketSnapshot) :
  (volume market <= Database.volume newest)%Z ->
  _detect_volume_spike config utcnow market (newest :: rest) = Ok None.
Proof.
  intros Hle. unfold _detect_volume_spike.
  destruct (length (newest :: rest) <? 3)%nat; [reflexivity |].
  destruct (length (rates_of_change (newest :: rest)) <? 2)%nat;
    [reflexivity |].
  simpl item0. cbn [bind].
  assert (Hrate : (volume market - Database.volume newest <=? 0)%Z = true)
    by (apply Z.leb_le; lia).
  now rewrite Hrate.
Qed.

(** The history of a polled market after [collect_and_store]. *)
Lemma collect_and_store_history (config : Config) (markets : list polled)
    (d : Store.db) (m : polled) :
  (1 <= max_history_points config)%Z ->
  NoDup (map id (Store.market_snapshots d)) ->
  NoDup (map (fun m => ticker (market m)) markets) ->
  (forall m r, In m markets -> In r (Store.market_snapshots d) ->
               row_ticker r = ticker (market m) ->
               (row_timestamp r < snapshot_time m)%Z) ->
  In m markets ->
  exists rest,
    Store.get_history (ticker (market m)) (max_history_points config)
      (collect_and_store config markets d) =
    to_snapshot (snapshot_time m) (market m) :: rest.
Proof.
  intros Hcap Hnd Htickers Hnewer Hin.
  destruct (collect_and_store_rows config markets d)
    as [new_rows [Hsnaps [Hunique Hrows]]].
  destruct (where_ticker_new_rows markets new_rows m Hsnaps Htickers Hin)
    as [r [Hnew Hr]].
  set (t := ticker (market m)) in *.
  set (tbl := Store.market_snapshots d ++ new_rows) in *.
  assert (Hmine : where_ticker t tbl =
                  where_ticker t (Store.market_snapshots d) ++ [r]).
  { unfold tbl, where_ticker. rewrite filter_app. fold (where_ticker t new_rows).
    now rewrite Hnew. }
  assert (Hrin : In r (where_ticker t tbl)).
  { rewrite Hmine. apply in_or_app. right. now left. }
  assert (Hnewest : forall x, In x (where_ticker t tbl) ->
                      x = r \/ (row_timestamp x < row_timestamp r)%Z).
  { intros x Hx. rewrite Hmine in Hx. apply in_app_or in Hx.
    destruct Hx as [Hx | [<- | []]]; [right | now left].
    apply where_ticker_in in Hx. destruct Hx as [Hx Ht].
    unfold row_timestamp at 2. rewrite Hr. simpl.
    now apply (Hnewer m x Hin Hx). }
  destruct (prune_old_data_keeps_newest_row (max_history_points config) tbl t r
              Hcap (Hunique Hnd) Hrin Hnewest) as [Hkept Hsub].
  destruct (order_desc_head _ r Hkept) as [others Hsorted].
  { intros x Hx. apply Hnewest, Hsub, Hx. }
  unfold Store.get_history, get_history. rewrite Hrows. fold tbl.
  rewrite Hsorted. unfold limit.
  destruct (Z.ltb_spec (max_history_points config) 0) as [Hneg | _]; [lia |].
  destruct (Z.to_nat (max_history_points config)) as [| k] eqn:Hk; [lia |].
  simpl. rewrite Hr. eexists. reflexivity.
Qed.

(** X12.  In a poll cycle the volume check never fires.  With at least one
    history point kept, distinct keys in the store, distinct tickers among
    the polled markets and every snapshot taken later than the stored
    snapshots of its ticker, the history that a polled market is checked
    against starts with the snapshot of that very market, saved a moment
    before; the volume of the market equals the newest stored volume, the
    volume check returns nothing, [detect_spikes] returns no volume event
    for any polled market, and no volume alert reaches the webhook. *)
Theorem poll_cycle_volume_check_silent (config : Config)
    (alerts : AlertManager) (post : nat -> result unit)
    (markets : list polled) (d : Store.db) :
  (1 <= max_history_points config)%Z ->
  NoDup (map id (Store.market_snapshots d)) ->
  NoDup (map (fun m => ticker (market m)) markets) ->
  (forall m r, In m markets -> In r (Store.market_snapshots d) ->
               row_ticker r = ticker (market m) ->
               (row_timestamp r < snapshot_time m)%Z) ->
  let d' := collect_and_store config markets d in
  (forall m, In m markets ->
     exists rest,
       Store.get_history (ticker (market m)) (max_history_points config) d' =
         to_snapshot (snapshot_time m) (market m) :: rest /\
       forall utcnow,
         _detect_volume_spike config utcnow (market m)
           (to_snapshot (snapshot_time m) (market m) :: rest) = Ok None) /\
  Forall (fun e => spike_type e <> VOLUME) (CycleSpec.detected config markets d') /\
  ~ In VOLUME
      (Effects.posted_kinds
         (snd (fst (_poll_cycle config alerts post (Collected markets) d)))).
Proof.
  intros Hcap Hnd Htickers Hnewer d'.
  assert (Hhistory : forall m, In m markets ->
            exists rest,
              Store.get_history (ticker (market m))
                (max_history_points config) d' =
                to_snapshot (snapshot_time m) (market m) :: rest /\
              forall utcnow,
                _detect_volume_spike config utcnow (market m)
                  (to_snapshot (snapshot_time m) (market m) :: rest) = Ok None).
  { intros m Hin.
    destruct (collect_and_store_history config markets d m
                Hcap Hnd Htickers Hnewer Hin) as [rest Hrest].
    exists rest. split; [exact Hrest |]. intros utcnow.
    apply _detect_volume_spike_no_increase. simpl. lia. }
  assert (Hquiet : Forall (fun e => spike_type e <> VOLUME)
                     (CycleSpec.detected config markets d')).
  { unfold CycleSpec.detected. apply Forall_flat_map, Forall_forall.
    intros m Hin. apply Forall_forall. intros e He.
    destruct (Hhistory m Hin) as [rest [Hrest Hsilent]].
    unfold CycleSpec.spikes_of in He. fold d' in He.
    set (history := Store.get_history (ticker (market m))
                      (max_history_points config) d') in *.
    destruct (Nat.lt_ge_cases (length history) 2) as [Hshort | Hlong].
    - rewrite (detect_spikes_short _ _ _ _ Hshort) in He. destruct He.
    - destruct (detect_spikes_checks config (detect_time m) (market m)
                  history Hlong)
        as [v [p [s [Hv [_ [_ [Hpt [_ [Hst Hrun]]]]]]]]].
      assert (Hsame : sorted_newest_first history = history)
        by apply sorted_newest_first_of_sorted, get_history_newest_first.
      rewrite Hsame, Hrest, Hsilent in Hv. injection Hv as <-.
      rewrite Hrun in He. rewrite !in_append_if in He.
      destruct He as [[[[] | Hv] | Hp] | Hs]; [discriminate Hv | |].
      + rewrite (Hpt e Hp). discriminate.
      + rewrite (proj1 (Hst e Hs)). discriminate. }
  split; [exact Hhistory |]. split; [exact Hquiet |].
  destruct (market_loop_detected config alerts post d' markets 0)
    as [out [Hloop [_ Hposted]]].
  unfold _poll_cycle. fold d'. rewrite Hloop. simpl. rewrite Hposted.
  destruct (webhook_set alerts); [| intros []].
  intros Hin. apply in_map_iff in Hin. destruct Hin as [e [Hkind He]].
  rewrite Forall_forall in Hquiet. exact (Hquiet e He Hkind).
Qed.

(** [poll_cycle_volume_check_silent] on the example table and two polled
    markets. *)
Lemma poll_cycle_volume_check_silent_witness :
  Forall (fun e => spike_type e <> VOLUME)
    (CycleSpec.detected default_config CycleSpec.example_polled
       (collect_and_store default_config CycleSpec.example_polled
          CycleSpec.example_store)).
Proof.
  apply (poll_cycle_volume_check_silent default_config
           {| discord_webhook_url := None |} (fun _ => Ok tt)
           CycleSpec.example_polled CycleSpec.example_store).
  - simpl. lia.
  - simpl. repeat constructor; simpl; intuition discriminate.
  - simpl. repeat constructor; simpl; intuition discriminate.
  - intros m r Hm Hr Ht. simpl in Hm, Hr.
    destruct Hm as [<- | [<- | []]];
      destruct Hr as [<- | [<- | [<- | [<- | []]]]];
      try discriminate Ht; unfold row_timestamp; simpl; lia.
Defined.

End PollCycleFacts.

(** ** scanner.py: stopping the loop *)

Section ScannerStop.
Import Scanner.

(** The loop over two runs of cycles: the second run is entered only if the
    first left the loop running. *)
Lemma start_loop_app (cycles1 cycles2 : list cycle) (s : MarketScanner) :
  start_loop (cycles1 ++ cycles2) s =
    match start_loop cycles1 s with
    | (s1, trace1, InLoop) =>
        let '(s2, trace2, status) := start_loop cycles2 s1 in
        (s2, trace1 ++ trace2, status)
    | (s1, trace1, Exited) => (s1, trace1, Exited)
    end.
Proof.
  revert s. induction cycles1 as [| c cycles1 IH]; intros s.
  - simpl. destruct (_running s) eqn:Hrun.
    + now destruct (start_loop cycles2 s) as [[s2 trace2] status].
    + destruct cycles2 as [| c2 cycles2]; simpl; now rewrite Hrun.
  - simpl. destruct (_running s); [| reflexivity].
    destruct (iteration c s) as [s1 trace1]. rewrite IH.
    destruct (start_loop cycles1 s1) as [[s2 trace2] [|]]; [reflexivity |].
    destruct (start_loop cycles2 s2) as [[s3 trace3] status].
    now rewrite app_assoc.
Qed.

(** A pass during which a stop is requested leaves the flag cleared; it
    sleeps only if the request came during the sleep. *)
Lemma iteration_stop (c : cycle) (s : MarketScanner) :
  _running s = true ->
  stop_during_cycle c = true \/ stop_during_sleep c = true ->
  _running (fst (iteration c s)) = false /\
  count_event PollCycle (snd (iteration c s)) = 1%nat /\
  count_event Sleep (snd (iteration c s)) =
    (if stop_during_cycle c then 0 else 1)%nat.
Proof.
  intros Hrun Hstop.
  split; [| split; [apply iteration_trace |]]; unfold iteration;
    set (s1 := {| _running := _running s && negb (stop_during_cycle c);
                  auth_token := cycle_token c (auth_token s) |});
    destruct (handle_trace (cycle_result c) s1) as [Hpoll [Hsleep Hflag]];
    destruct (handle (cycle_result c) s1) as [s2 handled];
    simpl in Hpoll, Hsleep, Hflag; unfold s1 in Hflag; simpl in Hflag;
    rewrite Hrun in Hflag; rewrite Hflag;
    destruct (stop_during_cycle c) eqn:Hcycle; simpl.
  - exact Hflag.
  - destruct Hstop as [Hstop | ->]; [discriminate Hstop | reflexivity].
  - destruct (count_event_cycle Sleep handled) as [_ ->].
    rewrite Hsleep. reflexivity.
  - destruct (count_event_cycle Sleep handled) as [-> _].
    rewrite Hsleep. reflexivity.
Qed.

Lemma start_loop_stopped (cycles : list cycle) (s : MarketScanner) :
  _running s = false -> start_loop cycles s = (s, [], Exited).
Proof. intros Hrun. destruct cycles; simpl; now rewrite Hrun. Qed.

(** X13.  A stop request ends the loop with the pass in which it arrives:
    if nothing asks for a stop during the first cycles and [stop()] runs
    during the next cycle or the sleep after it, the loop exits with the flag
    cleared, having started one cycle per pass up to and including that one
    and none of the cycles after it; it has slept once after every earlier
    cycle, and after the last one only if the request came during the
    sleep. *)
Theorem scanner_stop_ends_loop (before after : list cycle) (c : cycle)
    (s : MarketScanner) :
  Spec.no_stop_request before ->
  stop_during_cycle c = true \/ stop_during_sleep c = true ->
  start (before ++ c :: after) s = start (before ++ [c]) s /\
  snd (start (before ++ c :: after) s) = Exited /\
  _running (fst (fst (start (before ++ c :: after) s))) = false /\
  count_event PollCycle (snd (fst (start (before ++ c :: after) s))) =
    S (length before) /\
  count_event Sleep (snd (fst (start (before ++ c :: after) s))) =
    (length before + if stop_during_cycle c then 0 else 1)%nat.
Proof.
  intros Hquiet Hstop.
  assert (Hrun : forall rest,
            exists s1 trace1 s2 trace2,
              start_loop before
                {| _running := true; auth_token := auth_token s |} =
                (s1, trace1, InLoop) /\
              _running s1 = true /\
              count_event PollCycle trace1 = length before /\
              count_event Sleep trace1 = length before /\
              iteration c s1 = (s2, trace2) /\
              start (before ++ c :: rest) s = (s2, trace1 ++ trace2, Exited)).
  { intros rest. unfold start. rewrite start_loop_app.
    destruct (start_loop_no_stop before Hquiet
                {| _running := true; auth_token := auth_token s |} eq_refl)
      as [Hstatus [Hflag [Hpolls Hsleeps]]].
    destruct (start_loop before _) as [[s1 trace1] status].
    simpl in Hstatus, Hflag, Hpolls, Hsleeps. subst status.
    destruct (iteration c s1) as [s2 trace2] eqn:Hpass.
    exists s1, trace1, s2, trace2.
    split; [reflexivity |]. split; [exact Hflag |].
    split; [exact Hpolls |]. split; [exact Hsleeps |].
    split; [exact Hpass |]. simpl. rewrite Hflag, Hpass.
    destruct (iteration_stop c s1 Hflag Hstop) as [Hoff _].
    rewrite Hpass in Hoff. simpl in Hoff.
    rewrite (start_loop_stopped rest s2 Hoff).
    now rewrite app_nil_r. }
  destruct (Hrun after)
    as [s1 [trace1 [s2 [trace2 [Hbefore [Hflag [Hpolls [Hsleeps [Hpass Hall]]]]]]]]].
  destruct (Hrun [])
    as [s1' [trace1' [s2' [trace2' [Hbefore' [_ [_ [_ [Hpass' Hone]]]]]]]]].
  rewrite Hbefore in Hbefore'. injection Hbefore' as <- <-.
  rewrite Hpass in Hpass'. injection Hpass' as <- <-.
  split; [now rewrite Hall, Hone |]. rewrite Hall. simpl.
  destruct (iteration_stop c s1 Hflag Hstop) as [Hoff [Hpoll Hsleep]].
  rewrite Hpass in Hoff, Hpoll, Hsleep. simpl in Hoff, Hpoll, Hsleep.
  rewrite !count_event_app, Hpolls, Hsleeps, Hpoll, Hsleep.
  split; [reflexivity |]. split; [exact Hoff |]. split; [lia | reflexivity].
Qed.

(** [scanner_stop_ends_loop] on a loop that is stopped during the sleep
    after its second cycle. *)
Lemma scanner_stop_ends_loop_witness :
  let fine := {| cycle_result := Ok tt;
                 cycle_token := fun t => t;
                 stop_during_cycle := false;
                 stop_during_sleep := false |} in
  let last := {| cycle_result := Ok tt;
                 cycle_token := fun t => t;
                 stop_during_cycle := false;
                 stop_during_sleep := true |} in
  let s := {| _running := false; auth_token := None |} in
  snd (start ([fine] ++ last :: [fine; fine]) s) = Exited /\
  count_event PollCycle (snd (fst (start ([fine] ++ last :: [fine; fine]) s)))
    = 2%nat.
Proof.
  intros fine last s.
  destruct (scanner_stop_ends_loop [fine] [fine; fine] last s)
    as [_ [Hexit [_ [Hpolls _]]]].
  - repeat constructor.
  - right. reflexivity.
  - split; [exact Hexit | exact Hpolls].
Defined.

End ScannerStop.

(** ** auth.py: calls of [get_token] one after the other *)

Section TokenRefresh.
Import Auth.

(** X14.  When the cache holds no usable token, [get_token] logs in; if the
    login succeeds, every later call whose clock is before the login time
    plus 23 hours minus 60 seconds returns the token of that login without
    a request and leaves the cache alone, and a call at or after that time
    logs in again; if the login fails, the cache is as before and every
    later call logs in again. *)
Theorem get_token_refresh_then_reuse (utcnow_check utcnow_login : Z)
    (post : result response) (_token : option AuthToken) :
  (forall t, _token = Some t ->
             (expires_at t - 60 * 1000000 <= utcnow_check)%Z) ->
  let cache := snd (fst (get_token utcnow_check utcnow_login post _token)) in
  (forall r tok m,
      post = Ok r -> raise_for_status r = Ok tt ->
      json r !! "token"%string = Some tok ->
      json r !! "member_id"%string = Some m ->
      forall later_check later_login later_post,
        ((later_check < utcnow_login + 23 * 3600 * 1000000 - 60 * 1000000)%Z ->
         get_token later_check later_login later_post cache =
           (Ok tok, cache, 0%nat)) /\
        ((utcnow_login + 23 * 3600 * 1000000 - 60 * 1000000 <= later_check)%Z ->
         snd (get_token later_check later_login later_post cache) = 1%nat)) /\
  (forall e,
      fst (fst (get_token utcnow_check utcnow_login post _token)) = Raise e ->
      cache = _token /\
      forall later_check later_login later_post,
        (utcnow_check <= later_check)%Z ->
        snd (get_token later_check later_login later_post cache) = 1%nat).
Proof.
  intros Hstale cache.
  assert (Hexpired : match _token with
                     | None => true
                     | Some t => is_expired utcnow_check t 60
                     end = true).
  { destruct _token as [t |]; [| reflexivity].
    unfold is_expired, timedelta_seconds. apply Z.leb_le.
    specialize (Hstale t eq_refl). lia. }
  split.
  - intros r tok m -> Hstatus Htok Hm later_check later_login later_post.
    assert (Hcache : cache =
              Some {| token := tok; member_id := m;
                      expires_at := (utcnow_login + 23 * 3600 * 1000000)%Z |}).
    { unfold cache, get_token. rewrite Hexpired.
      now rewrite (_login_ok utcnow_login r tok m _token Hstatus Htok Hm). }
    rewrite Hcache. unfold get_token, is_expired, timedelta_seconds. simpl.
    split; intros Hclock.
    + destruct (Z.leb_spec
                  (utcnow_login + 23 * 3600 * 1000000 - 60 * 1000000)
                  later_check) as [Hle | _]; [lia | reflexivity].
    + destruct (Z.leb_spec
                  (utcnow_login + 23 * 3600 * 1000000 - 60 * 1000000)
                  later_check) as [_ | Hlt]; [| lia].
      now destruct (_login later_login later_post _) as [[u | x] c].
  - intros e Hraise.
    assert (Hcache : cache = _token).
    { unfold cache. unfold get_token in *. rewrite Hexpired in *.
      pose proof (_login_raise utcnow_login post _token) as Hkeep.
      pose proof (_login_returns utcnow_login post _token) as Hret.
      destruct (_login utcnow_login post _token) as [[u | x] c]; simpl in *.
      - destruct (Hret u eq_refl) as [t ->]. discriminate Hraise.
      - exact (Hkeep x eq_refl). }
    split; [exact Hcache |].
    intros later_check later_login later_post Hlater. rewrite Hcache.
    unfold get_token.
    assert (Hstill : match _token with
                     | None => true
                     | Some t => is_expired later_check t 60
                     end = true).
    { destruct _token as [t |]; [| reflexivity].
      unfold is_expired, timedelta_seconds. apply Z.leb_le.
      specialize (Hstale t eq_refl). lia. }
    rewrite Hstill.
    now destruct (_login later_login later_post _token) as [[u | x] c].
Qed.

(** [get_token_refresh_then_reuse] on an empty cache and a login that
    succeeds at time 5. *)
Lemma get_token_refresh_then_reuse_witness :
  let reply := {| status_code := 200;
                  json := {[ "token"%string := VStr "b";
                             "member_id"%string := VStr "m" ]} |} in
  let cache := snd (fst (get_token 0 5 (Ok reply) None)) in
  get_token 1000000 1000005 (Raise OtherException) cache =
    (Ok (VStr "b"), cache, 0%nat).
Proof.
  intros reply cache.
  destruct (get_token_refresh_then_reuse 0 5 (Ok reply) None) as [Hreuse _].
  - intros t Ht. discriminate Ht.
  - apply (Hreuse reply (VStr "b") (VStr "m") eq_refl eq_refl);
      [reflexivity | reflexivity | lia].
Defined.

End TokenRefresh.

(** ** collector.py: [fetch_all_markets], [fetch_single_market] *)

Section Fetching.
Import MarketCollector.
Import FetchSpec.

Lemma requests_of_app (xs ys : list exchange) (cursor : value) :
  requests_of (xs ++ ys) cursor =
  requests_of xs cursor ++ requests_of ys (cursor_after xs cursor).
Proof.
  revert cursor. induction xs as [| x xs IH]; intros cursor; [reflexivity |].
  simpl. now rewrite IH.
Qed.

Lemma requests_of_length (xs : list exchange) (cursor : value) :
  length (requests_of xs cursor) = length xs.
Proof.
  revert cursor. induction xs as [| x xs IH]; intros cursor; simpl;
    [reflexivity | now rewrite IH].
Qed.

(** The loop through exchanges that continue. *)
Lemma fetch_loop_continues (more : list exchange) :
  Forall continues more ->
  forall (rest : list exchange) (cursor : value)
         (markets : list Collector.Market),
  fetch_loop (more ++ rest) cursor markets =
    (requests_of more cursor
       ++ fst (fetch_loop rest (cursor_after more cursor)
                 (markets ++ flat_map page more)),
     snd (fetch_loop rest (cursor_after more cursor)
            (markets ++ flat_map page more))).
Proof.
  induction 1 as [| x more [[[h Hh] [p [c Hp]]] Hgo] _ IH];
    intros rest cursor markets.
  - simpl. rewrite app_nil_r. now destruct (fetch_loop rest cursor markets).
  - assert (Hho : header_of x = h) by (unfold header_of; now rewrite Hh).
    assert (Hpo : page x = p) by (unfold page; now rewrite Hp).
    assert (Hco : next_cursor x = c) by (unfold next_cursor; now rewrite Hp).
    rewrite Hco in Hgo.
    change (cursor_after (x :: more) cursor)
      with (cursor_after more (next_cursor x)).
    simpl. rewrite Hh, Hp, Hgo, IH, Hho, Hpo, Hco, app_assoc. reflexivity.
Qed.

(** The round of an exchange that ends the pagination. *)
Lemma fetch_loop_ends (last : exchange) (rest : list exchange)
    (cursor : value) (markets : list Collector.Market) :
  ends last ->
  fetch_loop (last :: rest) cursor markets =
    (requests_of [last] cursor, Returned (markets ++ page last)).
Proof.
  intros [[[h Hh] [p [c Hp]]] Hstop].
  assert (Hho : header_of last = h) by (unfold header_of; now rewrite Hh).
  assert (Hpo : page last = p) by (unfold page; now rewrite Hp).
  assert (Hco : next_cursor last = c) by (unfold next_cursor; now rewrite Hp).
  rewrite Hco in Hstop.
  simpl. now rewrite Hh, Hp, Hstop, Hho, Hpo.
Qed.

(** X15.  When every exchange answers and the first answer without a true
    cursor is that of the exchange [last], [fetch_all_markets] returns the
    markets of all pages up to that one, in order; it sends one request per
    page, the first without a cursor and each later one with the cursor of
    the answer before, and none after the last page. *)
Theorem fetch_all_markets_pages (more : list exchange) (last : exchange)
    (rest : list exchange) :
  Forall continues more ->
  ends last ->
  fetch_all_markets (more ++ last :: rest) =
    (requests_of (more ++ [last]) VNone,
     Returned (flat_map page (more ++ [last]))) /\
  length (requests_of (more ++ [last]) VNone) = S (length more) /\
  map cursor_param (requests_of (more ++ [last]) VNone) =
    None :: map (fun x => Some (next_cursor x)) more.
Proof.
  intros Hmore Hlast. unfold fetch_all_markets.
  rewrite (fetch_loop_continues more Hmore), (fetch_loop_ends last rest _ _ Hlast).
  simpl fst. simpl snd. rewrite requests_of_app, flat_map_app. simpl flat_map.
  rewrite app_nil_r. split; [reflexivity |].
  split; [rewrite length_app, requests_of_length; simpl; lia |].
  rewrite <- requests_of_app. clear Hlast rest.
  assert (Hcursors : forall cursor,
            map cursor_param (requests_of (more ++ [last]) cursor) =
            (if truthy cursor then Some cursor else None)
              :: map (fun x => Some (next_cursor x)) more).
  { induction Hmore as [| x more [_ Hgo] _ IH]; intros cursor;
      [reflexivity |].
    simpl. rewrite IH, Hgo. reflexivity. }
  apply (Hcursors VNone).
Qed.

(** X16.  While every answer carries a true cursor the loop of
    [fetch_all_markets] goes on: it has no bound on the number of pages.
    The first exchange that fails ends the call with its exception, the
    markets of the pages before are not returned, and no further request is
    sent: none at all when the headers cannot be obtained, the one of the
    failing page otherwise. *)
Theorem fetch_all_markets_aborts (more : list exchange) :
  Forall continues more ->
  fetch_all_markets more = (requests_of more VNone, Fetching) /\
  (forall bad rest e,
      auth_headers bad = Raise e ->
      fetch_all_markets (more ++ bad :: rest) =
        (requests_of more VNone, Raised e)) /\
  (forall bad rest h e,
      auth_headers bad = Ok h ->
      page_of (get_response bad) = Raise e ->
      fetch_all_markets (more ++ bad :: rest) =
        (requests_of (more ++ [bad]) VNone, Raised e)).
Proof.
  intros Hmore. unfold fetch_all_markets. split; [| split].
  - rewrite <- (app_nil_r more) at 1.
    rewrite (fetch_loop_continues more Hmore). simpl.
    now rewrite app_nil_r.
  - intros bad rest e Hauth.
    rewrite (fetch_loop_continues more Hmore). simpl. rewrite Hauth. simpl.
    now rewrite app_nil_r.
  - intros bad rest h e Hauth Hpage.
    rewrite (fetch_loop_continues more Hmore). simpl. rewrite Hauth, Hpage.
    simpl. rewrite requests_of_app. simpl. unfold header_of.
    now rewrite Hauth.
Qed.

Lemma answer_answers (tickers : list string) (cursor : value) :
  answers (answer tickers cursor) /\
  next_cursor (answer tickers cursor) = cursor /\
  length (page (answer tickers cursor)) = length tickers.
Proof.
  assert (Hmarkets : exists p,
            markets_of
              (map (fun t => VDict {[ "ticker"%string := VStr t ]}) tickers)
              = Ok p /\ length p = length tickers).
  { induction tickers as [| t tickers [p [IH Hlen]]]; simpl;
      [now exists [] |].
    destruct (proj2 (from_api_response_returns_iff
                       {[ "ticker"%string := VStr t ]})) as [m Hm].
    { intros v Hv _. rewrite lookup_singleton_eq in Hv.
      injection Hv as <-. now exists t. }
    rewrite Hm, IH. simpl. eexists. split; [reflexivity |].
    simpl. now rewrite Hlen. }
  destruct Hmarkets as [p [Hp Hlen]].
  assert (Hpage : page_of (get_response (answer tickers cursor)) =
                  Ok (p, cursor)).
  { unfold page_of, answer, get. simpl.
    rewrite lookup_insert_eq. simpl. rewrite Hp. simpl.
    rewrite lookup_insert_ne by discriminate.
    now rewrite lookup_singleton_eq. }
  unfold answers, next_cursor, page. rewrite Hpage.
  split; [split; [now exists (VStr "Bearer") | now exists p, cursor] |].
  split; [reflexivity | exact Hlen].
Qed.

(** [fetch_all_markets_pages] on two pages. *)
Lemma fetch_all_markets_pages_witness :
  let first := answer ["A"; "B"]%string (VStr "next") in
  let last := answer ["C"]%string VNone in
  exists markets,
    fetch_all_markets ([first] ++ last :: [first]) =
      (requests_of ([first] ++ [last]) VNone, Returned markets) /\
    length markets = 3%nat.
Proof.
  intros first last.
  destruct (answer_answers ["A"; "B"]%string (VStr "next")) as [Ha [Hc Hn]].
  destruct (answer_answers ["C"]%string VNone) as [Ha' [Hc' Hn']].
  destruct (fetch_all_markets_pages [first] last [first]) as [Hrun _].
  - constructor; [| constructor]. split; [exact Ha |].
    unfold first. now rewrite Hc.
  - split; [exact Ha' |]. unfold last. now rewrite Hc'.
  - eexists. split; [exact Hrun |].
    simpl. rewrite app_nil_r, length_app. unfold first, last.
    rewrite Hn, Hn'. reflexivity.
Defined.

(** [fetch_all_markets_aborts] on a page followed by a failure to
    authenticate. *)
Lemma fetch_all_markets_aborts_witness :
  let first := answer ["A"]%string (VStr "next") in
  let bad := {| auth_headers := Raise (HTTPStatusError 401);
                get_response := Raise OtherException |} in
  snd (fetch_all_markets ([first] ++ bad :: [])) =
    Raised (HTTPStatusError 401).
Proof.
  intros first bad.
  destruct (answer_answers ["A"]%string (VStr "next")) as [Ha [Hc _]].
  destruct (fetch_all_markets_aborts [first]) as [_ [Hauth _]].
  - constructor; [| constructor]. split; [exact Ha |].
    unfold first. now rewrite Hc.
  - now rewrite (Hauth bad [] (HTTPStatusError 401) eq_refl).
Defined.

(** The only exception of [Market.from_api_response]. *)
Lemma from_api_response_raises (data : gmap string value) (e : exn) :
  Collector.from_api_response data = Raise e -> e = AttributeError.
Proof.
  unfold Collector.from_api_response.
  destruct (truthy (get data "ticker" (VStr ""))); simpl; [| discriminate].
  unfold lower_method.
  destruct (get data "ticker" (VStr "")); simpl; try discriminate;
    now intros [= <-].
Qed.

(** X17.  [fetch_single_market] returns [None] exactly when the request
    ends in the status 404; any other status outside 200 to 299 is raised
    as it is, and so is a failure to obtain the headers, in which case the
    outcome of the request plays no part. *)
Theorem fetch_single_market_not_found (auth : result value)
    (response : result Auth.response) :
  (forall e, auth = Raise e ->
             fetch_single_market auth response = Raise e) /\
  (forall h, auth = Ok h ->
     (fetch_single_market auth response = Ok None <->
      (exists r, response = Ok r /\ Auth.status_code r = 404%Z) \/
      response = Raise (HTTPStatusError 404)) /\
     (forall r, response = Ok r ->
        ~ (200 <= Auth.status_code r < 300)%Z ->
        Auth.status_code r <> 404%Z ->
        fetch_single_market auth response =
          Raise (HTTPStatusError (Auth.status_code r))) /\
     (forall r data,
        response = Ok r ->
        (200 <= Auth.status_code r < 300)%Z ->
        get (Auth.json r) "market" (VDict (Auth.json r)) = VDict data ->
        fetch_single_market auth response =
          match Collector.from_api_response data with
          | Ok market => Ok (Some market)
          | Raise e => Raise e
          end)).
Proof.
  split; [intros e ->; reflexivity |].
  intros h ->. unfold fetch_single_market, Auth.raise_for_status. simpl.
  split; [| split].
  - destruct response as [r | e]; simpl.
    + destruct (Z.leb_spec 200 (Auth.status_code r)) as [Hlow | Hlow];
        destruct (Z.ltb_spec (Auth.status_code r) 300) as [Hhigh | Hhigh];
        simpl.
      * split.
        -- intros Hnone. exfalso.
           destruct (get (Auth.json r) "market" (VDict (Auth.json r)));
             simpl in Hnone; try discriminate Hnone.
           destruct (Collector.from_api_response d) as [m | e] eqn:Hm;
             [discriminate Hnone |].
           rewrite (from_api_response_raises d e Hm) in Hnone.
           discriminate Hnone.
        -- intros [[r' [[= <-] Hcode]] | Hraise]; [lia | discriminate Hraise].
      * destruct (Z.eqb_spec (Auth.status_code r) 404) as [Hcode | Hcode].
        -- split; [intros _; left; now exists r | reflexivity].
        -- split; [discriminate |].
           intros [[r' [[= <-] Hcode']] | Hraise];
             [contradiction | discriminate Hraise].
      * destruct (Z.eqb_spec (Auth.status_code r) 404) as [Hcode | Hcode].
        -- split; [intros _; left; now exists r | reflexivity].
        -- split; [discriminate |].
           intros [[r' [[= <-] Hcode']] | Hraise];
             [contradiction | discriminate Hraise].
      * destruct (Z.eqb_spec (Auth.status_code r) 404) as [Hcode | Hcode].
        -- split; [intros _; left; now exists r | reflexivity].
        -- split; [discriminate |].
           intros [[r' [[= <-] Hcode']] | Hraise];
             [contradiction | discriminate Hraise].
    + destruct e; try (split; [discriminate |];
                       intros [[r' [Hr _]] | Hraise]; discriminate).
      destruct (Z.eqb_spec status_code 404) as [-> | Hcode].
      * split; [intros _; now right | reflexivity].
      * split; [discriminate |].
        intros [[r' [Hr _]] | [= Hraise]]; [discriminate Hr | contradiction].
  - intros r -> Hout Hcode. simpl.
    destruct (Z.leb_spec 200 (Auth.status_code r)) as [Hlow | Hlow];
      destruct (Z.ltb_spec (Auth.status_code r) 300) as [Hhigh | Hhigh];
      simpl; try lia;
      destruct (Z.eqb_spec (Auth.status_code r) 404); try contradiction;
      reflexivity.
  - intros r data -> Hin Hdata. simpl.
    destruct (Z.leb_spec 200 (Auth.status_code r)) as [Hlow | Hlow];
      destruct (Z.ltb_spec (Auth.status_code r) 300) as [Hhigh | Hhigh];
      simpl; try lia.
    rewrite Hdata.
    destruct (Collector.from_api_response data) as [m | e] eqn:Hm;
      [reflexivity |].
    now rewrite (from_api_response_raises data e Hm).
Qed.

End Fetching.

(** ** collector.py: [collect_and_store] *)

Section CollectAndStore.
Import Database.
Import Detector.
Import MarketCollector.

(** The metadata of a ticker after the loop of updates: that of the last
    polled market with the ticker, if there is one. *)
Lemma metadata_fold_lookup (markets : list polled) (d : Store.db) (t : string) :
  Store.get_market_metadata t
    (fold_left
       (fun d m =>
          Store.update_market_metadata
            (ticker (market m)) (title (market m))
            (subtitle (market m)) (url (market m))
            (metadata_time m) d)
       markets d) =
  match find (fun m => String.eqb (ticker (market m)) t) (rev markets) with
  | Some m => Some {| Store.info_ticker := ticker (market m);
                      Store.info_title := title (market m);
                      Store.info_subtitle := subtitle (market m);
                      Store.info_url := url (market m) |}
  | None => Store.get_market_metadata t d
  end.
Proof.
  revert d. induction markets as [| m markets IH]; intros d; [reflexivity |].
  simpl fold_left. rewrite IH. simpl rev.
  destruct (find _ (rev markets)) as [m' |] eqn:Hfind.
  - now rewrite (find_app_some _ _ _ _ Hfind).
  - rewrite (find_app_none _ _ _ Hfind). simpl.
    destruct (update_market_metadata_row (ticker (market m)) (title (market m))
                (subtitle (market m)) (url (market m)) (metadata_time m) d)
      as [_ [Hsame [Hother _]]].
    destruct (String.eqb_spec (ticker (market m)) t) as [<- | Hne].
    + exact Hsame.
    + apply Hother. congruence.
Qed.

Lemma find_unique_ticker (markets : list polled) (m : polled) :
  NoDup (map (fun m => ticker (market m)) markets) ->
  In m markets ->
  find (fun m' => String.eqb (ticker (market m')) (ticker (market m)))
    (rev markets) = Some m.
Proof.
  intros Hnd Hin.
  destruct (find _ (rev markets)) as [m' |] eqn:Hfind.
  - apply find_some in Hfind. destruct Hfind as [Hin' Heq].
    apply in_rev in Hin'. apply String.eqb_eq in Heq. f_equal.
    exact (NoDup_map_injective (fun m => ticker (market m)) markets m' m
             Hnd Hin' Hin Heq).
  - exfalso. apply in_rev in Hin.
    pose proof (find_none _ _ Hfind m Hin) as Hno. simpl in Hno.
    now rewrite String.eqb_refl in Hno.
Qed.

Lemma collect_and_store_metadata (config : Config) (markets : list polled)
    (d : Store.db) (t : string) :
  Store.get_market_metadata t (collect_and_store config markets d) =
  match find (fun m => String.eqb (ticker (market m)) t) (rev markets) with
  | Some m => Some {| Store.info_ticker := ticker (market m);
                      Store.info_title := title (market m);
                      Store.info_subtitle := subtitle (market m);
                      Store.info_url := url (market m) |}
  | None => Store.get_market_metadata t d
  end.
Proof.
  set (snapshots := map (fun m => to_snapshot (snapshot_time m) (market m))
                      markets).
  transitivity
    (Store.get_market_metadata t
       (fold_left
          (fun d m =>
             Store.update_market_metadata
               (ticker (market m)) (title (market m))
               (subtitle (market m)) (url (market m))
               (metadata_time m) d)
          markets (Store.save_snapshots_batch snapshots d))).
  - unfold collect_and_store. fold snapshots.
    replace (match snapshots with
             | [] => d
             | _ :: _ => Store.save_snapshots_batch snapshots d
             end) with (Store.save_snapshots_batch snapshots d)
      by (destruct snapshots; reflexivity).
    reflexivity.
  - rewrite metadata_fold_lookup.
    destruct (find _ (rev markets)); [reflexivity |].
    unfold Store.get_market_metadata.
    destruct (save_snapshots_batch_rows snapshots d)
      as [new_rows [_ [_ [_ [_ Hmeta]]]]].
    now rewrite Hmeta.
Qed.

(** X18.  What [collect_and_store] leaves in the store, for a cap that is
    not negative and a table with distinct keys: the keys are still
    distinct, no ticker has more rows than the cap, and every row was there
    before or holds the snapshot of a polled market; the metadata of a
    ticker that was not polled reads as before, and, when the tickers of the
    polled markets are distinct, the metadata of each polled market is what
    the market carries. *)
Theorem collect_and_store_invariants (config : Config)
    (markets : list polled) (d : Store.db) :
  (0 <= max_history_points config)%Z ->
  NoDup (map id (Store.market_snapshots d)) ->
  let d' := collect_and_store config markets d in
  NoDup (map id (Store.market_snapshots d')) /\
  (forall t, (count_rows t (Store.market_snapshots d')
              <= max_history_points config)%Z) /\
  (forall r, In r (Store.market_snapshots d') ->
     In r (Store.market_snapshots d) \/
     exists m, In m markets /\
               snap r = to_snapshot (snapshot_time m) (market m)) /\
  (forall t, ~ In t (map (fun m => ticker (market m)) markets) ->
     Store.get_market_metadata t d' = Store.get_market_metadata t d) /\
  (NoDup (map (fun m => ticker (market m)) markets) ->
   forall m, In m markets ->
     Store.get_market_metadata (ticker (market m)) d' =
       Some {| Store.info_ticker := ticker (market m);
               Store.info_title := title (market m);
               Store.info_subtitle := subtitle (market m);
               Store.info_url := url (market m) |}).
Proof.
  intros Hcap Hnd d'.
  destruct (collect_and_store_rows config markets d)
    as [new_rows [Hsnaps [Hunique Hrows]]].
  fold d' in Hrows. specialize (Hunique Hnd).
  destruct (prune_fold_is_filter (max_history_points config)
              (tickers_to_prune (max_history_points config)
                 (Store.market_snapshots d ++ new_rows))
              (Store.market_snapshots d ++ new_rows) 0%Z) as [keep Hkeep].
  fold (prune_old_data (max_history_points config)
          (Store.market_snapshots d ++ new_rows)) in Hkeep.
  split; [| split; [| split; [| split]]].
  - rewrite Hrows, Hkeep. now apply NoDup_map_filter.
  - intros t. rewrite Hrows. now apply prune_old_data_counts.
  - intros r Hr. rewrite Hrows, Hkeep in Hr. apply filter_In in Hr.
    destruct Hr as [Hr _]. apply in_app_or in Hr.
    destruct Hr as [Hold | Hnew]; [now left | right].
    apply (in_map snap) in Hnew. rewrite Hsnaps in Hnew.
    apply in_map_iff in Hnew. destruct Hnew as [m [Heq Hm]].
    exists m. split; [exact Hm | now symmetry].
  - intros t Hout. unfold d'. rewrite collect_and_store_metadata.
    destruct (find _ (rev markets)) as [m |] eqn:Hfind; [| reflexivity].
    exfalso. apply Hout. apply find_some in Hfind.
    destruct Hfind as [Hin Heq]. apply in_rev in Hin.
    apply String.eqb_eq in Heq. rewrite <- Heq.
    now apply (in_map (fun m => ticker (market m))).
  - intros Htickers m Hin. unfold d'. rewrite collect_and_store_metadata.
    now rewrite (find_unique_ticker markets m Htickers Hin).
Qed.

(** [collect_and_store_invariants] on the example table and two polled
    markets. *)
Lemma collect_and_store_invariants_witness :
  let d' := collect_and_store default_config CycleSpec.example_polled
              CycleSpec.example_store in
  NoDup (map id (Store.market_snapshots d')) /\
  forall t, (count_rows t (Store.market_snapshots d') <= 100)%Z.
Proof.
  intros d'.
  destruct (collect_and_store_invariants default_config
              CycleSpec.example_polled CycleSpec.example_store)
    as [Hunique [Hcounts _]].
  - simpl. lia.
  - simpl. repeat constructor; simpl; intuition discriminate.
  - split; [exact Hunique | exact Hcounts].
Defined.

End CollectAndStore.

(** ** scanner.py: [get_market_history] *)

Section MarketHistory.
Import Database.

Lemma get_market_metadata_none (t : string) (d : Store.db) :
  Store.get_market_metadata t d = None <->
  ~ In t (map Store.meta_ticker (Store.market_metadata d)).
Proof.
  unfold Store.get_market_metadata.
  destruct (find _ (Store.market_metadata d)) as [m |] eqn:Hfind.
  - split; [discriminate |]. intros Hout. exfalso. apply Hout.
    apply find_some in Hfind. destruct Hfind as [Hin Heq].
    apply String.eqb_eq in Heq. rewrite <- Heq. now apply in_map.
  - split; [| reflexivity]. intros _ Hin. apply in_map_iff in Hin.
    destruct Hin as [m [Heq Hm]]. apply (find_none _ _ Hfind) in Hm.
    rewrite Heq, String.eqb_refl in Hm. discriminate Hm.
Qed.

Lemma get_history_nil (t : string) (lim : Z) (tbl : list row) :
  lim <> 0%Z ->
  (get_history t lim tbl = [] <-> ~ In t (map row_ticker tbl)).
Proof.
  intros Hlim. split; [| apply get_history_absent].
  intros Hnil Hin. apply in_map_iff in Hin. destruct Hin as [r [Ht Hr]].
  assert (Hrow : In r (where_ticker t tbl)) by now apply where_ticker_in.
  destruct (get_history_rows t lim tbl) as [k [Hrows [Hpos Hneg]]].
  rewrite Hrows in Hnil. apply (f_equal (@length _)) in Hnil.
  rewrite length_map, length_firstn, stable_sort_length in Hnil. simpl in Hnil.
  destruct (where_ticker t tbl) as [| x rows]; [destruct Hrow |].
  simpl in Hnil, Hneg.
  destruct (Z.lt_ge_cases lim 0) as [Hlt | Hge];
    [rewrite (Hneg Hlt) in Hnil | rewrite (Hpos Hge) in Hnil]; lia.
Qed.

(** X19.  [get_market_history] returns the metadata and the history as the
    store reads them, and, unless the configured number of history points
    is 0, it returns [None] exactly for a ticker with no stored snapshot and
    no metadata; with 0 history points it returns [None] for every ticker
    without metadata, whatever is stored. *)
Theorem get_market_history_none (config : Config) (t : string) (d : Store.db) :
  (forall metadata history,
      PollCycle.get_market_history config t d = Some (metadata, history) ->
      metadata = Store.get_market_metadata t d /\
      history = Store.get_history t (max_history_points config) d) /\
  (max_history_points config <> 0%Z ->
   (PollCycle.get_market_history config t d = None <->
    ~ In t (map row_ticker (Store.market_snapshots d)) /\
    ~ In t (map Store.meta_ticker (Store.market_metadata d)))) /\
  (max_history_points config = 0%Z ->
   (PollCycle.get_market_history config t d = None <->
    ~ In t (map Store.meta_ticker (Store.market_metadata d)))).
Proof.
  unfold PollCycle.get_market_history. split; [| split].
  - intros metadata history.
    destruct (Store.get_history t (max_history_points config) d);
      destruct (Store.get_market_metadata t d);
      try discriminate; intros [= <- <-]; split; reflexivity.
  - intros Hlim.
    rewrite <- get_market_metadata_none.
    rewrite <- (get_history_nil t (max_history_points config) _ Hlim).
    fold (Store.get_history t (max_history_points config) d).
    destruct (Store.get_history t (max_history_points config) d);
      destruct (Store.get_market_metadata t d); split;
      try discriminate; try (intros [H1 H2]; discriminate); auto.
  - intros Hzero. rewrite <- get_market_metadata_none.
    unfold Store.get_history, get_history, limit. rewrite Hzero. simpl.
    destruct (Store.get_market_metadata t d); split;
      try discriminate; auto.
Qed.

End MarketHistory.

(** ** detector.py: what the events carry *)

Section EventFields.
Import Detector.

Ltac split_run H :=
  repeat (match type of H with
          | context [match ?c with _ => _ end] =>
              destruct c; simpl in H; try discriminate H
          end).

(** The fields that every check copies from the market, the clock and the
    configuration. *)
Lemma _detect_volume_spike_fields (config : Config) (utcnow : Z)
    (market : Market) (history : list Database.MarketSnapshot)
    (e : SpikeEvent) :
  _detect_volume_spike config utcnow market history = Ok (Some e) ->
  spike_type e = VOLUME /\
  event_ticker e = ticker market /\ event_title e = title market /\
  event_subtitle e = subtitle market /\ event_url e = url market /\
  event_timestamp e = utcnow /\ threshold e = volume_std_threshold config.
Proof.
  unfold _detect_volume_spike, item0, bind. intros H; split_run H;
    injection H as <-; simpl; auto 10.
Qed.

Lemma _detect_price_spike_fields (config : Config) (utcnow : Z)
    (market : Market) (history : list Database.MarketSnapshot)
    (e : SpikeEvent) :
  _detect_price_spike config utcnow market history = Ok (Some e) ->
  spike_type e = PRICE /\
  event_ticker e = ticker market /\ event_title e = title market /\
  event_subtitle e = subtitle market /\ event_url e = url market /\
  event_timestamp e = utcnow /\ threshold e = price_spike_threshold config.
Proof.
  unfold _detect_price_spike. intros H; split_run H;
    injection H as <-; simpl; auto 10.
Qed.

Lemma _detect_spread_compression_fields (config : Config) (utcnow : Z)
    (market : Market) (history : list Database.MarketSnapshot)
    (e : SpikeEvent) :
  _detect_spread_compression config utcnow market history = Ok (Some e) ->
  spike_type e = SPREAD_COMPRESSION /\
  event_ticker e = ticker market /\ event_title e = title market /\
  event_subtitle e = subtitle market /\ event_url e = url market /\
  event_timestamp e = utcnow /\
  threshold e = spread_compression_threshold config.
Proof.
  unfold _detect_spread_compression, bind. intros H; split_run H;
    injection H as <-; simpl; auto 10.
Qed.

(** X20.  [detect_spikes] returns at most one event of each kind, volume
    before price before spread; every event carries the ticker, title,
    subtitle and link of the market it was called with, the reading of the
    clock as its timestamp, and as threshold the configured threshold of its
    kind. *)
Theorem detect_spikes_event_fields (config : Config) (utcnow : Z)
    (market : Market) (history : list Database.MarketSnapshot) :
  exists events,
    detect_spikes config utcnow market history = Ok events /\
    (exists kinds,
        map spike_type events = filter kinds [VOLUME; PRICE; SPREAD_COMPRESSION]) /\
    forall e, In e events ->
      event_ticker e = ticker market /\ event_title e = title market /\
      event_subtitle e = subtitle market /\ event_url e = url market /\
      event_timestamp e = utcnow /\
      threshold e =
        match spike_type e with
        | VOLUME => volume_std_threshold config
        | PRICE => price_spike_threshold config
        | SPREAD_COMPRESSION => spread_compression_threshold config
        end.
Proof.
  destruct (Nat.lt_ge_cases (length history) 2) as [Hshort | Hlong].
  - exists []. split; [now apply detect_spikes_short |].
    split; [now exists (fun _ => false) | intros e []].
  - destruct (detect_spikes_checks config utcnow market history Hlong)
      as [v [p [s [Hv [Hvt [Hp [Hpt [Hs [Hst Hrun]]]]]]]]].
    eexists. split; [exact Hrun |]. split.
    + exists (fun k => match k with
                       | VOLUME => match v with Some _ => true | None => false end
                       | PRICE => match p with Some _ => true | None => false end
                       | SPREAD_COMPRESSION => match s with Some _ => true | None => false end
                       end).
      destruct v as [ev |], p as [ep |], s as [es |]; simpl;
        repeat match goal with
               | |- context [spike_type ?x] =>
                   first [ rewrite (Hvt x eq_refl)
                         | rewrite (Hpt x eq_refl)
                         | rewrite (proj1 (Hst x eq_refl)) ]
               end; reflexivity.
    + intros e Hin. rewrite !in_append_if in Hin.
      destruct Hin as [[[[] | ->] | ->] | ->].
      * destruct (_detect_volume_spike_fields _ _ _ _ _ Hv)
          as [-> [? [? [? [? [? ?]]]]]]. auto 10.
      * destruct (_detect_price_spike_fields _ _ _ _ _ Hp)
          as [-> [? [? [? [? [? ?]]]]]]. auto 10.
      * destruct (_detect_spread_compression_fields _ _ _ _ _ Hs)
          as [-> [? [? [? [? [? ?]]]]]]. auto 10.
Qed.

End EventFields.

(** ** detector.py: thresholds at the ends of their range *)

Section Thresholds.
Import Detector.


End Thresholds.
